(** * The MRM emergency handler: a shallow embedding and its properties

    The development follows
    [system/emergency_handler/src/emergency_handler/emergency_handler_core.cpp].
    The node is a single object whose members are read and written by
    subscription callbacks and by a periodic timer callback.  The members
    become a record, the callbacks become functions on that record, and the
    timer path (which publishes messages, sends service requests, logs and
    may throw) runs in a small monad that threads the record, appends to a
    list of observable events and stops at an exception. *)

From Stdlib Require Import ZArith QArith List String Bool Lia.
From Stdlib Require DecimalString.
From Stdlib Require Import Qabs Lqa.
Import ListNotations.

Local Open Scope string_scope.
Local Open Scope list_scope.
Local Open Scope Z_scope.

(** ** Message constants *)

(** Modelled from the spec: the enumerators of the message types the handler
    uses.  They are declared in message packages ([MrmState], [HazardStatus],
    [ControlModeReport], [MrmBehaviorStatus], [HazardLightsCommand],
    [GearCommand]) whose definitions are not among the sources at hand.  The
    spec names the enumerators (section 3); the numerals are those of the
    message definitions.  The code compares fields with these constants and
    nothing else, and so do the proofs; the one numeral that matters beyond
    distinctness is [NOT_AVAILABLE = 0], the value a value-initialised
    status message holds. *)
Module MrmState.
(* uint16 state *)
Definition NORMAL : Z := 1.
Definition MRM_OPERATING : Z := 2.
Definition MRM_SUCCEEDED : Z := 3.
Definition MRM_FAILED : Z := 4.
(* uint16 behavior *)
Definition NONE : Z := 1.
Definition EMERGENCY_STOP : Z := 2.
Definition COMFORTABLE_STOP : Z := 3.
End MrmState.

Module HazardStatus.
(* uint8 level *)
Definition NO_FAULT : Z := 0.
Definition SAFE_FAULT : Z := 1.
Definition LATENT_FAULT : Z := 2.
Definition SINGLE_POINT_FAULT : Z := 3.
End HazardStatus.

Module ControlModeReport.
Definition NO_COMMAND : Z := 0.
Definition AUTONOMOUS : Z := 1.
Definition MANUAL : Z := 4.
End ControlModeReport.

Module MrmBehaviorStatus.
Definition NOT_AVAILABLE : Z := 0.
Definition AVAILABLE : Z := 1.
Definition OPERATING : Z := 2.
End MrmBehaviorStatus.

Module HazardLightsCommand.
Definition NO_COMMAND : Z := 0.
Definition DISABLE : Z := 1.
Definition ENABLE : Z := 2.
End HazardLightsCommand.

Module GearCommand.
Definition DRIVE : Z := 2.
Definition PARK : Z := 22.
End GearCommand.

(** ** Data *)

(** [hazard_status_stamped_->status]: the fields the handler reads. *)
Record HazardStatusMsg : Type := mkHazardStatus {
  level : Z;
  emergency : bool;
  emergency_holding : bool
}.

(** [autoware_adapi_v1_msgs::msg::MrmState]. Times are nanoseconds. *)
Record MrmStateMsg : Type := mkMrmState {
  stamp : Z;
  state : Z;
  behavior : Z
}.

(** [param_].  [timeout_hazard_status] is a [double] number of seconds in the
    source; here it is the rational that the [double] is, so there is no
    NaN. *)
Record Param : Type := mkParam {
  update_rate : Z;
  timeout_hazard_status : Q;
  use_parking_after_stopped : bool;
  use_comfortable_stop : bool;
  turning_hazard_on_emergency : bool
}.

(** The members of [EmergencyHandler] that the timer path reads or writes.
    [hazard_status_stamped_] is a shared pointer that is null until the first
    message; the other snapshots are default-constructed by the constructor.
    [odom_] keeps [twist.twist.linear.x] and [control_mode_] keeps [mode],
    the status members keep [state].  [prev_control_command_] is stored by
    its callback and never read, it is left out. *)
Record EmergencyHandler : Type := mkHandler {
  param_ : Param;
  hazard_status_stamped_ : option HazardStatusMsg;
  stamp_hazard_status_ : Z;
  odom_ : Q;
  control_mode_ : Z;
  mrm_comfortable_stop_status_ : Z;
  mrm_emergency_stop_status_ : Z;
  mrm_state_ : MrmStateMsg;
  is_hazard_status_timeout_ : bool
}.

Definition set_mrm_state_ (m : MrmStateMsg) (h : EmergencyHandler) : EmergencyHandler :=
  mkHandler (param_ h) (hazard_status_stamped_ h) (stamp_hazard_status_ h) (odom_ h)
    (control_mode_ h) (mrm_comfortable_stop_status_ h) (mrm_emergency_stop_status_ h)
    m (is_hazard_status_timeout_ h).

Definition set_is_hazard_status_timeout_ (b : bool) (h : EmergencyHandler) : EmergencyHandler :=
  mkHandler (param_ h) (hazard_status_stamped_ h) (stamp_hazard_status_ h) (odom_ h)
    (control_mode_ h) (mrm_comfortable_stop_status_ h) (mrm_emergency_stop_status_ h)
    (mrm_state_ h) b.

Definition set_stamp (t : Z) (m : MrmStateMsg) : MrmStateMsg :=
  mkMrmState t (state m) (behavior m).
Definition set_state (st : Z) (m : MrmStateMsg) : MrmStateMsg :=
  mkMrmState (stamp m) st (behavior m).
Definition set_behavior (b : Z) (m : MrmStateMsg) : MrmStateMsg :=
  mkMrmState (stamp m) (state m) b.

(** ** What a timer callback can be observed to do *)

Inductive Client : Type :=
| client_mrm_comfortable_stop_
| client_mrm_emergency_stop_.

Inductive Severity : Type := DEBUG | INFO | WARN | ERROR.

Inductive Event : Type :=
| pub_hazard_cmd (command : Z)
| pub_gear_cmd (stamp_ : Z) (command : Z)
| pub_mrm_state (msg : MrmStateMsg)
| send_request (c : Client) (operate : bool)
| log (sev : Severity) (text : string)
| log_throttle (sev : Severity) (period_ms : Z) (text : string).

Inductive Exception : Type :=
| runtime_error (what : string).

(** What the callback reads from outside the object while it runs.  The
    clock is read three times, by [this->now()]: in
    [checkHazardStatusTimeout] for the staleness test ([now]), in
    [publishControlCommands] for the stamp of the gear command
    ([now_commands]), and, after the arbitration step and the service calls
    it blocks on, in [publishMrmState] for the stamp of the MRM state
    ([now_mrm_state]).  Nothing is assumed about how the three readings are
    related.  The rest is the answers of the two backup controllers
    ([result->response.success] for a request sent to a client), and whether
    the node's logger lets DEBUG through.  The logging macros evaluate their
    arguments only when the severity is enabled, which matters for
    [transitionTo]. *)
Record Env : Type := mkEnv {
  now : Z;
  now_commands : Z;
  now_mrm_state : Z;
  response_success : Client -> bool -> bool;
  debug_enabled : bool
}.

Inductive Outcome (A : Type) : Type :=
| Returned (a : A) (h : EmergencyHandler) (out : list Event)
| Thrown (e : Exception) (out : list Event)
| NullDeref (out : list Event).
Arguments Returned {A} a h out.
Arguments Thrown {A} e out.
Arguments NullDeref {A} out.

Definition M (A : Type) : Type := Env -> EmergencyHandler -> Outcome A.

Definition ret {A} (a : A) : M A := fun _ h => Returned a h [].

(** The events of a first part go in front of what the rest does. *)
Definition prepend {A} (o1 : list Event) (r : Outcome A) : Outcome A :=
  match r with
  | Returned a h o2 => Returned a h (o1 ++ o2)
  | Thrown e o2 => Thrown e (o1 ++ o2)
  | NullDeref o2 => NullDeref (o1 ++ o2)
  end.

Definition bind {A B} (m : M A) (f : A -> M B) : M B := fun env h =>
  match m env h with
  | Returned a h1 o1 => prepend o1 (f a env h1)
  | Thrown e o1 => Thrown e o1
  | NullDeref o1 => NullDeref o1
  end.

Declare Scope handler_scope.
Delimit Scope handler_scope with handler.
Notation "x <- c1 ;; c2" := (bind c1 (fun x => c2))
  (at level 61, c1 at next level, right associativity) : handler_scope.
Notation "c1 ;; c2" := (bind c1 (fun _ => c2))
  (at level 61, right associativity) : handler_scope.
Local Open Scope handler_scope.

Definition gets {A} (f : EmergencyHandler -> A) : M A := fun _ h => Returned (f h) h [].
Definition asks {A} (f : Env -> A) : M A := fun env h => Returned (f env) h [].
Definition modify (f : EmergencyHandler -> EmergencyHandler) : M unit :=
  fun _ h => Returned tt (f h) [].
Definition emit (e : Event) : M unit := fun _ h => Returned tt h [e].
Definition throw {A} (e : Exception) : M A := fun _ _ => Thrown e [].

(** [hazard_status_stamped_->status]: dereferencing the null pointer is not
    given a meaning. *)
Definition hazard_status : M HazardStatusMsg := fun _ h =>
  match hazard_status_stamped_ h with
  | Some hs => Returned hs h []
  | None => NullDeref []
  end.

(** ** Numbers *)

(** [a < b] on [double]s, read on rationals. *)
Definition Qltb (a b : Q) : bool := negb (Qle_bool b a).

(** [std::to_string] of an [int]. *)
Definition to_string (z : Z) : string :=
  DecimalString.NilZero.string_of_int (Z.to_int z).

(** *** Rounding to [double]

    A finite [double] is a rational, and the comparisons of the code are
    exact on them; what is not exact is the arithmetic that produces a
    [double].  [to_double] is the rounding of IEEE 754 binary64 (53 bits of
    precision, the least exponent -1074, to nearest, ties to even) on
    rationals.  It has no infinity: a number beyond the range of [double]
    is rounded as if the exponent were unbounded, which no 64-bit count of
    nanoseconds comes near. *)

(** The integer nearest to [n / d], the even one at a tie ([0 <= n],
    [0 < d]). *)
Definition nearest_even (n d : Z) : Z :=
  let q := n / d in
  match 2 * (n mod d) ?= d with
  | Lt => q
  | Gt => q + 1
  | Eq => if Z.even q then q else q + 1
  end.

(** Numerator and denominator of [(n / d) / 2 ^ e]. *)
Definition scaled (n d e : Z) : Z * Z :=
  if 0 <=? e then (n, d * 2 ^ e) else (n * 2 ^ (- e), d).

(** The [e] with [2 ^ e <= n / d < 2 ^ (e + 1)] ([0 < n], [0 < d]). *)
Definition binade (n d : Z) : Z :=
  let e := Z.log2 n - Z.log2 d in
  let (n', d') := scaled n d e in
  if d' <=? n' then e else e - 1.

Definition to_double (x : Q) : Q :=
  let n := Z.abs (Qnum x) in
  let d := Zpos (Qden x) in
  if n =? 0 then 0%Q
  else
    let e := Z.max (binade n d - 52) (-1074) in
    let (n', d') := scaled n d e in
    let m := Z.sgn (Qnum x) * nearest_even n' d' in
    if 0 <=? e then inject_Z (m * 2 ^ e) else Qmake m (Z.to_pos (2 ^ (- e))).

(** [rclcpp::Duration::seconds] of a difference of two times.  Modelled from
    rclcpp, which is not among the sources at hand: it returns
    [std::chrono::duration<double>(std::chrono::nanoseconds(ns)).count()],
    that is the count of nanoseconds converted to [double] and divided, as a
    [double], by 1e9.  Both steps round. *)
Definition seconds (ns : Z) : Q :=
  to_double (Qdiv (to_double (inject_Z ns)) (inject_Z 1000000000)).

(** ** Subscription callbacks *)

Definition onHazardStatusStamped (now_ : Z) (msg : HazardStatusMsg)
  (h : EmergencyHandler) : EmergencyHandler :=
  mkHandler (param_ h) (Some msg) now_ (odom_ h)
    (control_mode_ h) (mrm_comfortable_stop_status_ h) (mrm_emergency_stop_status_ h)
    (mrm_state_ h) (is_hazard_status_timeout_ h).

Definition onOdometry (linear_x : Q) (h : EmergencyHandler) : EmergencyHandler :=
  mkHandler (param_ h) (hazard_status_stamped_ h) (stamp_hazard_status_ h) linear_x
    (control_mode_ h) (mrm_comfortable_stop_status_ h) (mrm_emergency_stop_status_ h)
    (mrm_state_ h) (is_hazard_status_timeout_ h).

Definition onControlMode (mode : Z) (h : EmergencyHandler) : EmergencyHandler :=
  mkHandler (param_ h) (hazard_status_stamped_ h) (stamp_hazard_status_ h) (odom_ h)
    mode (mrm_comfortable_stop_status_ h) (mrm_emergency_stop_status_ h)
    (mrm_state_ h) (is_hazard_status_timeout_ h).

Definition onMrmComfortableStopStatus (st : Z) (h : EmergencyHandler) : EmergencyHandler :=
  mkHandler (param_ h) (hazard_status_stamped_ h) (stamp_hazard_status_ h) (odom_ h)
    (control_mode_ h) st (mrm_emergency_stop_status_ h)
    (mrm_state_ h) (is_hazard_status_timeout_ h).

Definition onMrmEmergencyStopStatus (st : Z) (h : EmergencyHandler) : EmergencyHandler :=
  mkHandler (param_ h) (hazard_status_stamped_ h) (stamp_hazard_status_ h) (odom_ h)
    (control_mode_ h) (mrm_comfortable_stop_status_ h) st
    (mrm_state_ h) (is_hazard_status_timeout_ h).

(** ** The constructor

    The snapshots are value-initialised messages: velocity 0, mode 0 and
    status 0, which is [NOT_AVAILABLE]. *)
Definition EmergencyHandler_new (p : Param) (now_ : Z) : EmergencyHandler :=
  mkHandler p None 0 (0 # 1) 0 0 0
    (mkMrmState now_ MrmState.NORMAL MrmState.NONE) false.

(** ** Predicates on the snapshots *)

Definition isEmergency : M bool :=
  hs <- hazard_status ;;
  timeout <- gets is_hazard_status_timeout_ ;;
  ret (emergency hs || emergency_holding hs || timeout).

(** [constexpr auto th_stopped_velocity = 0.001]. *)
Definition th_stopped_velocity : Q := 1 # 1000.

Definition isStopped : M bool :=
  vx <- gets odom_ ;;
  if Qltb vx th_stopped_velocity then ret true else ret false.

Definition isDataReady : M bool :=
  hs <- gets hazard_status_stamped_ ;;
  match hs with
  | None =>
      emit (log_throttle INFO 5000 "waiting for hazard_status_stamped msg...") ;;
      ret false
  | Some _ =>
      p <- gets param_ ;;
      cs <- gets mrm_comfortable_stop_status_ ;;
      if use_comfortable_stop p && (cs =? MrmBehaviorStatus.NOT_AVAILABLE) then
        emit (log_throttle INFO 5000
                "waiting for mrm comfortable stop to become available...") ;;
        ret false
      else
        es <- gets mrm_emergency_stop_status_ ;;
        if es =? MrmBehaviorStatus.NOT_AVAILABLE then
          emit (log_throttle INFO 5000
                  "waiting for mrm emergency stop to become available...") ;;
          ret false
        else ret true
  end.

Definition checkHazardStatusTimeout : M unit :=
  t <- asks now ;;
  t0 <- gets stamp_hazard_status_ ;;
  p <- gets param_ ;;
  if Qltb (timeout_hazard_status p) (seconds (t - t0)) then
    modify (set_is_hazard_status_timeout_ true) ;;
    emit (log_throttle WARN 1000 "heartbeat_hazard_status is timeout")
  else
    modify (set_is_hazard_status_timeout_ false).

(** ** Publishing *)

Definition createHazardCmdMsg : M Z :=
  is_emergency <- isEmergency ;;
  hs <- hazard_status ;;
  p <- gets param_ ;;
  if emergency_holding hs then
    ret HazardLightsCommand.ENABLE
  else if is_emergency && turning_hazard_on_emergency p then
    ret HazardLightsCommand.ENABLE
  else
    ret HazardLightsCommand.NO_COMMAND.

(** [isStopped] has no effect, so calling it ahead of the [&&] that guards it
    in the source changes nothing. *)
Definition publishControlCommands : M unit :=
  stamp_ <- asks now_commands ;;
  cmd <- createHazardCmdMsg ;;
  emit (pub_hazard_cmd cmd) ;;
  p <- gets param_ ;;
  stopped <- isStopped ;;
  if use_parking_after_stopped p && stopped then
    emit (pub_gear_cmd stamp_ GearCommand.PARK)
  else
    emit (pub_gear_cmd stamp_ GearCommand.DRIVE).

Definition publishMrmState : M unit :=
  t <- asks now_mrm_state ;;
  modify (fun h => set_mrm_state_ (set_stamp t (mrm_state_ h)) h) ;;
  m <- gets mrm_state_ ;;
  emit (pub_mrm_state m).

(** ** The behavior invoker *)

(** [client->async_send_request(request).get()] followed by the read of
    [result->response.success].  The blocking [get] is taken to return. *)
Definition request (c : Client) (operate : bool) : M bool :=
  emit (send_request c operate) ;;
  asks (fun env => response_success env c operate).

Definition callMrmBehavior (mrm_behavior : Z) : M unit :=
  if mrm_behavior =? MrmState.NONE then
    emit (log WARN "MRM behavior is None. Do nothing.")
  else if mrm_behavior =? MrmState.COMFORTABLE_STOP then
    success <- request client_mrm_comfortable_stop_ true ;;
    if success then emit (log WARN "Comfortable stop is operated")
    else emit (log ERROR "Comfortable stop is failed to operate")
  else if mrm_behavior =? MrmState.EMERGENCY_STOP then
    success <- request client_mrm_emergency_stop_ true ;;
    if success then emit (log WARN "Emergency stop is operated")
    else emit (log ERROR "Emergency stop is failed to operate")
  else
    emit (log WARN (String.append "invalid MRM behavior: " (to_string mrm_behavior))).

Definition cancelMrmBehavior (mrm_behavior : Z) : M unit :=
  if mrm_behavior =? MrmState.NONE then
    ret tt
  else if mrm_behavior =? MrmState.COMFORTABLE_STOP then
    success <- request client_mrm_comfortable_stop_ false ;;
    if success then emit (log WARN "Comfortable stop is canceled")
    else emit (log ERROR "Comfortable stop is failed to cancel")
  else if mrm_behavior =? MrmState.EMERGENCY_STOP then
    success <- request client_mrm_emergency_stop_ false ;;
    if success then emit (log WARN "Emergency stop is canceled")
    else emit (log ERROR "Emergency stop is failed to cancel")
  else
    emit (log WARN (String.append "invalid MRM behavior: " (to_string mrm_behavior))).

(** ** The behavior arbitrator *)

Definition getCurrentMrmBehavior : M Z :=
  hs <- hazard_status ;;
  timeout <- gets is_hazard_status_timeout_ ;;
  let level_ := if timeout then HazardStatus.SINGLE_POINT_FAULT else level hs in
  m <- gets mrm_state_ ;;
  p <- gets param_ ;;
  (* the second [if] of the state machine and the final [return] *)
  let from_comfortable_stop : M Z :=
    if (behavior m =? MrmState.COMFORTABLE_STOP)
       && (level_ =? HazardStatus.SINGLE_POINT_FAULT)
    then ret MrmState.EMERGENCY_STOP
    else ret (behavior m) in
  if behavior m =? MrmState.NONE then
    if level_ =? HazardStatus.LATENT_FAULT then
      if use_comfortable_stop p then ret MrmState.COMFORTABLE_STOP
      else ret MrmState.EMERGENCY_STOP
    else if level_ =? HazardStatus.SINGLE_POINT_FAULT then
      ret MrmState.EMERGENCY_STOP
    else from_comfortable_stop
  else from_comfortable_stop.

Definition commit_behavior (b : Z) : M unit :=
  modify (fun h => set_mrm_state_ (set_behavior b (mrm_state_ h)) h).

Definition operateMrm : M unit :=
  m <- gets mrm_state_ ;;
  if state m =? MrmState.NORMAL then
    let current_mrm_behavior := MrmState.NONE in
    if negb (current_mrm_behavior =? behavior m) then
      cancelMrmBehavior (behavior m) ;;
      commit_behavior current_mrm_behavior
    else ret tt
  else if state m =? MrmState.MRM_OPERATING then
    current_mrm_behavior <- getCurrentMrmBehavior ;;
    if negb (current_mrm_behavior =? behavior m) then
      cancelMrmBehavior (behavior m) ;;
      callMrmBehavior current_mrm_behavior ;;
      commit_behavior current_mrm_behavior
    else ret tt
  else if state m =? MrmState.MRM_SUCCEEDED then
    ret tt
  else if state m =? MrmState.MRM_FAILED then
    ret tt
  else
    emit (log WARN (String.append "invalid MRM state: " (to_string (state m)))).

(** ** The state machine *)

Definition state2string (st : Z) : M string :=
  if st =? MrmState.NORMAL then ret "NORMAL"
  else if st =? MrmState.MRM_OPERATING then ret "MRM_OPERATING"
  else if st =? MrmState.MRM_SUCCEEDED then ret "MRM_SUCCEEDED"
  else if st =? MrmState.MRM_FAILED then ret "MRM_FAILED"
  else throw (runtime_error (String.append "invalid state: " (to_string st))).

(** The two calls of [state2string] are arguments of the DEBUG logging macro:
    they run only when DEBUG is enabled.  Every caller passes a declared
    state as [new_state], so the old state is converted first here; the
    order only decides which text an exception carries when both are
    invalid. *)
Definition transitionTo (new_state : Z) : M unit :=
  dbg <- asks debug_enabled ;;
  (if dbg then
     m <- gets mrm_state_ ;;
     from <- state2string (state m) ;;
     to <- state2string new_state ;;
     emit (log DEBUG (String.append "MRM State changed: "
                        (String.append from (String.append " -> " to))))
   else ret tt) ;;
  modify (fun h => set_mrm_state_ (set_state new_state (mrm_state_ h)) h).

Definition updateMrmState : M unit :=
  is_emergency <- isEmergency ;;
  mode <- gets control_mode_ ;;
  let is_auto_mode := mode =? ControlModeReport.AUTONOMOUS in
  m <- gets mrm_state_ ;;
  if state m =? MrmState.NORMAL then
    if is_auto_mode && is_emergency then transitionTo MrmState.MRM_OPERATING
    else ret tt
  else
    if negb is_emergency then transitionTo MrmState.NORMAL
    else if state m =? MrmState.MRM_OPERATING then
      stopped <- isStopped ;;
      if stopped then transitionTo MrmState.MRM_SUCCEEDED else ret tt
    else if state m =? MrmState.MRM_SUCCEEDED then ret tt
    else if state m =? MrmState.MRM_FAILED then ret tt
    else throw (runtime_error (String.append "invalid state: " (to_string (state m)))).

(** ** The timer callback *)

Definition onTimer : M unit :=
  ready <- isDataReady ;;
  if negb ready then ret tt
  else
    checkHazardStatusTimeout ;;
    updateMrmState ;;
    publishControlCommands ;;
    operateMrm ;;
    publishMrmState.

(** ** Runs of the node

    The executor delivers one callback at a time.  A run is a list of
    deliveries; it ends early if the timer callback throws. *)
Inductive Input : Type :=
| HazardStatusStamped (now_ : Z) (msg : HazardStatusMsg)
| Odometry (linear_x : Q)
| ControlMode (mode : Z)
| MrmComfortableStopStatus (st : Z)
| MrmEmergencyStopStatus (st : Z)
| Timer (env : Env).

Definition deliver (i : Input) (h : EmergencyHandler) : Outcome unit :=
  match i with
  | HazardStatusStamped t msg => Returned tt (onHazardStatusStamped t msg h) []
  | Odometry vx => Returned tt (onOdometry vx h) []
  | ControlMode mode => Returned tt (onControlMode mode h) []
  | MrmComfortableStopStatus st => Returned tt (onMrmComfortableStopStatus st h) []
  | MrmEmergencyStopStatus st => Returned tt (onMrmEmergencyStopStatus st h) []
  | Timer env => onTimer env h
  end.

Fixpoint run (h : EmergencyHandler) (inputs : list Input) : Outcome unit :=
  match inputs with
  | [] => Returned tt h []
  | i :: rest =>
      match deliver i h with
      | Returned _ h1 o1 => prepend o1 (run h1 rest)
      | Thrown e o1 => Thrown e o1
      | NullDeref o1 => NullDeref o1
      end
  end.

(** The handlers a run goes through, the first one included. *)
Fixpoint visited (h : EmergencyHandler) (inputs : list Input) : list EmergencyHandler :=
  h :: match inputs with
       | [] => []
       | i :: rest =>
           match deliver i h with
           | Returned _ h1 _ => visited h1 rest
           | _ => []
           end
       end.

(** The handlers the node can be in: the constructed one, and any one that a
    delivery which returns leads to. *)
Inductive reachable (p : Param) : EmergencyHandler -> Prop :=
| reachable_new (t : Z) : reachable p (EmergencyHandler_new p t)
| reachable_deliver (h h' : EmergencyHandler) (i : Input) (out : list Event) :
    reachable p h -> deliver i h = Returned tt h' out -> reachable p h'.

(** * The turn signal decider: the shift predicates

    The inline members of [TurnSignalDecider] in
    [behavior_path_planner_common/turn_signal_decider.hpp].  Lengths and the
    threshold are [double]s in the source and rationals here; indices are
    [size_t] and naturals here. *)

Definition isAvoidShift (start_shift_length end_shift_length threshold : Q) : bool :=
  Qltb (Qabs start_shift_length) threshold && Qltb threshold (Qabs end_shift_length).

Definition isReturnShift (start_shift_length end_shift_length threshold : Q) : bool :=
  Qltb threshold (Qabs start_shift_length) && Qltb (Qabs end_shift_length) threshold.

Definition isLeftMiddleShift (start_shift_length end_shift_length threshold : Q) : bool :=
  Qltb threshold start_shift_length && Qltb threshold end_shift_length.

Definition isRightMiddleShift (start_shift_length end_shift_length threshold : Q) : bool :=
  Qltb start_shift_length threshold && Qltb end_shift_length threshold.

(** Each block of the source is [if (kind) { if (c1) return false; if (c2)
    return false; }]; a block returns false exactly when its kind and one of
    its two conditions hold, and otherwise falls through to the next. *)
Definition existShiftSideLane (start_shift_length end_shift_length : Q)
  (no_left_lanes no_right_lanes : bool) (threshold : Q) : bool :=
  let relative_shift_length := Qminus end_shift_length start_shift_length in
  if isAvoidShift start_shift_length end_shift_length threshold
     && ((Qltb 0 relative_shift_length && no_left_lanes)
         || (Qltb relative_shift_length 0 && no_right_lanes))
  then false
  else if isReturnShift start_shift_length end_shift_length threshold
          && ((Qltb 0 relative_shift_length && no_right_lanes)
              || (Qltb relative_shift_length 0 && no_left_lanes))
  then false
  else if isLeftMiddleShift start_shift_length end_shift_length threshold
          && ((Qltb 0 relative_shift_length && no_left_lanes)
              || (Qltb relative_shift_length 0 && no_left_lanes))
  then false
  else if isRightMiddleShift start_shift_length end_shift_length threshold
          && ((Qltb relative_shift_length 0 && no_right_lanes)
              || (Qltb 0 relative_shift_length && no_right_lanes))
  then false
  else true.

(** What a function that indexes with [std::vector::at] gives: a value, or
    the exception [std::out_of_range] of the failed access. *)
Inductive Checked (A : Type) : Type :=
| Value (a : A)
| out_of_range (index size_ : nat).
Arguments Value {A} a.
Arguments out_of_range {A} index size_.

Section Geometry.

(** The geometry comes from libraries that are not among the sources at
    hand (the vehicle footprint, the pose transform, boost's [intersects]
    and [within], the lanelet bounds); the predicates are defined over any
    such functions. *)
Variables Pose Transform Footprint LineString Polygon Point Lane : Type.
Variable createFootprint : Footprint.
Variable pose2transform : Pose -> Transform.
Variable transformVector : Footprint -> Transform -> Footprint.
Variable intersects : LineString -> Footprint -> bool.
Variable leftBound2d : Lane -> LineString.
Variable rightBound2d : Lane -> LineString.
Variable within : Point -> Polygon -> bool.
Variable polygon2d : Lane -> Polygon.

(** The inner loop of [straddleRoadBound]: [for (i = ...; i < end_idx; ++i)]
    with [remaining] iterations to go; [path.path.points.at(i)] throws when
    [i] is not below the size. *)
Fixpoint straddle_points (points : list Pose) (lane : Lane) (i remaining : nat)
  : Checked bool :=
  match remaining with
  | O => Value false
  | S r =>
      match nth_error points i with
      | None => out_of_range i (List.length points)
      | Some pose =>
          let shifted_vehicle_footprint :=
            transformVector createFootprint (pose2transform pose) in
          if intersects (leftBound2d lane) shifted_vehicle_footprint then Value true
          else if intersects (rightBound2d lane) shifted_vehicle_footprint then Value true
          else straddle_points points lane (S i) r
      end
  end.

Fixpoint straddleRoadBound (points : list Pose) (start_idx end_idx : nat)
  (lanes : list Lane) : Checked bool :=
  match lanes with
  | [] => Value false
  | lane :: rest =>
      match straddle_points points lane start_idx (end_idx - start_idx) with
      | Value true => Value true
      | Value false => straddleRoadBound points start_idx end_idx rest
      | out_of_range i n => out_of_range i n
      end
  end.

(** [within] takes the point as the source converts it ([to2D] of
    [toLaneletPoint]) and the polygon as [basicPolygon] gives it. *)
Definition isNearEndOfShift (start_shift_length end_shift_length : Q) (ego_pos : Point)
  (original_lanes : list Lane) (threshold : Q) : bool :=
  if negb (isReturnShift start_shift_length end_shift_length threshold) then false
  else existsb (fun lane => within ego_pos (polygon2d lane)) original_lanes.

(** The footprint of the vehicle at a path point touches a bound of the
    lane. *)
Definition touches_bound (lane : Lane) (pose : Pose) : bool :=
  intersects (leftBound2d lane) (transformVector createFootprint (pose2transform pose))
  || intersects (rightBound2d lane) (transformVector createFootprint (pose2transform pose)).

End Geometry.

Arguments straddle_points {Pose Transform Footprint LineString Lane}.
Arguments straddleRoadBound {Pose Transform Footprint LineString Lane}.
Arguments touches_bound {Pose Transform Footprint LineString Lane}.
Arguments isNearEndOfShift {Polygon Point Lane}.

(** * Vocabulary of the statements *)

(** ** What a tick reads and decides *)

(** [is_emergency] and the effective fault level of the spec (sections 4.3
    and 4.4), read off a fault report and the staleness flag. *)
Definition is_emergency_of (hs : HazardStatusMsg) (stale : bool) : bool :=
  emergency hs || emergency_holding hs || stale.

Definition effective_level (hs : HazardStatusMsg) (stale : bool) : Z :=
  if stale then HazardStatus.SINGLE_POINT_FAULT else level hs.

(** [stale] as the watchdog computes it at clock reading [t]. *)
Definition stale_at (t : Z) (h : EmergencyHandler) : bool :=
  Qltb (timeout_hazard_status (param_ h)) (seconds (t - stamp_hazard_status_ h)).

Definition stale_log (stale : bool) : list Event :=
  if stale then [log_throttle WARN 1000 "heartbeat_hazard_status is timeout"] else [].

Definition stopped (h : EmergencyHandler) : bool := Qltb (odom_ h) th_stopped_velocity.

(** The readiness gate of section 4.1. *)
Definition data_ready (h : EmergencyHandler) : bool :=
  match hazard_status_stamped_ h with
  | None => false
  | Some _ =>
      negb (use_comfortable_stop (param_ h)
            && (mrm_comfortable_stop_status_ h =? MrmBehaviorStatus.NOT_AVAILABLE))
      && negb (mrm_emergency_stop_status_ h =? MrmBehaviorStatus.NOT_AVAILABLE)
  end.

(** The state machine of section 4.3 as a function of what it reads. *)
Definition next_state (is_auto_mode is_emergency is_stopped : bool) (st : Z) : Z :=
  if st =? MrmState.NORMAL then
    if is_auto_mode && is_emergency then MrmState.MRM_OPERATING else st
  else if negb is_emergency then MrmState.NORMAL
  else if (st =? MrmState.MRM_OPERATING) && is_stopped then MrmState.MRM_SUCCEEDED
  else st.

(** The selection and escalation rules of section 4.4. *)
Definition selected_behavior (use_cs : bool) (lvl b : Z) : Z :=
  if b =? MrmState.NONE then
    if lvl =? HazardStatus.LATENT_FAULT then
      if use_cs then MrmState.COMFORTABLE_STOP else MrmState.EMERGENCY_STOP
    else if lvl =? HazardStatus.SINGLE_POINT_FAULT then MrmState.EMERGENCY_STOP
    else b
  else if b =? MrmState.COMFORTABLE_STOP then
    if lvl =? HazardStatus.SINGLE_POINT_FAULT then MrmState.EMERGENCY_STOP else b
  else b.

(** The commands of section 4.6. *)
Definition hazard_command (hs : HazardStatusMsg) (h : EmergencyHandler) : Z :=
  if emergency_holding hs then HazardLightsCommand.ENABLE
  else if is_emergency_of hs (is_hazard_status_timeout_ h)
          && turning_hazard_on_emergency (param_ h)
  then HazardLightsCommand.ENABLE
  else HazardLightsCommand.NO_COMMAND.

Definition gear_command (h : EmergencyHandler) : Z :=
  if use_parking_after_stopped (param_ h) && stopped h then GearCommand.PARK
  else GearCommand.DRIVE.

(** The cycle in the order section 4.7 of the spec words it: staleness,
    state machine, arbitration, commands, state. *)
Definition onTimer_as_specified : M unit :=
  ready <- isDataReady ;;
  if negb ready then ret tt
  else
    checkHazardStatusTimeout ;;
    updateMrmState ;;
    operateMrm ;;
    publishControlCommands ;;
    publishMrmState.

(** ** The MRM state of a handler *)

Definition state_of (h : EmergencyHandler) : Z := state (mrm_state_ h).
Definition behavior_of (h : EmergencyHandler) : Z := behavior (mrm_state_ h).

Definition with_state (st : Z) (h : EmergencyHandler) : EmergencyHandler :=
  set_mrm_state_ (set_state st (mrm_state_ h)) h.
Definition with_behavior (b : Z) (h : EmergencyHandler) : EmergencyHandler :=
  set_mrm_state_ (set_behavior b (mrm_state_ h)) h.
Definition with_stamp (t : Z) (h : EmergencyHandler) : EmergencyHandler :=
  set_mrm_state_ (set_stamp t (mrm_state_ h)) h.

Definition declared_state (st : Z) : Prop :=
  st = MrmState.NORMAL \/ st = MrmState.MRM_OPERATING \/
  st = MrmState.MRM_SUCCEEDED \/ st = MrmState.MRM_FAILED.

Definition declared_behavior (b : Z) : Prop :=
  b = MrmState.NONE \/ b = MrmState.COMFORTABLE_STOP \/ b = MrmState.EMERGENCY_STOP.

Definition normal_implies_none (m : MrmStateMsg) : Prop :=
  state m = MrmState.NORMAL -> behavior m = MrmState.NONE.

(** How [behavior] may differ between two consecutive handlers: not at all,
    one of the three steps up, or the reset that comes with NORMAL. *)
Definition behavior_step (b b' st' : Z) : Prop :=
  b' = b \/
  (b = MrmState.NONE /\ b' = MrmState.COMFORTABLE_STOP) \/
  (b = MrmState.NONE /\ b' = MrmState.EMERGENCY_STOP) \/
  (b = MrmState.COMFORTABLE_STOP /\ b' = MrmState.EMERGENCY_STOP) \/
  (b' = MrmState.NONE /\ st' = MrmState.NORMAL).

(** ** Traces *)

Definition is_log (e : Event) : bool :=
  match e with
  | log _ _ | log_throttle _ _ _ => true
  | _ => false
  end.

Definition is_request (e : Event) : bool :=
  match e with
  | send_request _ _ => true
  | _ => false
  end.

Definition is_publication (e : Event) : bool :=
  match e with
  | pub_hazard_cmd _ | pub_gear_cmd _ _ | pub_mrm_state _ => true
  | _ => false
  end.

(** What the invoker emits: requests and log lines. *)
Definition is_invoker (e : Event) : bool := is_log e || is_request e.

(** The requests, and the publications, of a trace, in order. *)
Definition requests (out : list Event) : list Event := filter is_request out.
Definition publications (out : list Event) : list Event := filter is_publication out.

(** The backup controller that serves a behavior, and the request the
    invoker sends it. *)
Definition client_of (b : Z) : option Client :=
  if b =? MrmState.COMFORTABLE_STOP then Some client_mrm_comfortable_stop_
  else if b =? MrmState.EMERGENCY_STOP then Some client_mrm_emergency_stop_
  else None.

Definition request_to (b : Z) (operate : bool) : list Event :=
  match client_of b with
  | Some c => [send_request c operate]
  | None => []
  end.

(** ** What the arbitration step leaves and sends *)

(** The behavior after the arbitration step, run in the state [st]. *)
Definition arbitrated (st : Z) (use_cs : bool) (lvl b : Z) : Z :=
  if st =? MrmState.NORMAL then MrmState.NONE
  else if st =? MrmState.MRM_OPERATING then selected_behavior use_cs lvl b
  else b.

(** The requests of the arbitration step that takes the behavior from [b]
    to [b'] in the state [st]. *)
Definition arbitration_requests (st b b' : Z) : list Event :=
  if st =? MrmState.NORMAL then request_to b false
  else if st =? MrmState.MRM_OPERATING then
    if b' =? b then [] else request_to b false ++ request_to b' true
  else [].

(** ** What a list of deliveries has shown the node *)

Definition is_hazard_report (i : Input) : bool :=
  match i with HazardStatusStamped _ _ => true | _ => false end.

Definition is_odometry (i : Input) : bool :=
  match i with Odometry _ => true | _ => false end.

Definition shows_emergency_stop_available (i : Input) : bool :=
  match i with
  | MrmEmergencyStopStatus st => negb (st =? MrmBehaviorStatus.NOT_AVAILABLE)
  | _ => false
  end.

Definition shows_comfortable_stop_available (i : Input) : bool :=
  match i with
  | MrmComfortableStopStatus st => negb (st =? MrmBehaviorStatus.NOT_AVAILABLE)
  | _ => false
  end.

Definition prerequisites_observed (p : Param) (inputs : list Input) : bool :=
  existsb is_hazard_report inputs
  && existsb shows_emergency_stop_available inputs
  && (negb (use_comfortable_stop p) || existsb shows_comfortable_stop_available inputs).

(** ** Sample handlers, environments and runs *)

(** Ten ticks a second, a deadline of half a second, parking after stop,
    comfortable stop and hazard lights on emergency all enabled. *)
Definition sample_param : Param := mkParam 10 (1 # 2) true true true.

(** A tick at 0.1 s: the commands are stamped a microsecond later and the
    MRM state, after the service calls, three milliseconds later; both
    controllers answer with success; DEBUG logging off. *)
Definition sample_env : Env :=
  mkEnv 100000000 100001000 103000000 (fun _ _ => true) false.

(** A tick two seconds after time 0; the sample deadline is half a second. *)
Definition late_env : Env :=
  mkEnv 2000000000 2000001000 2003000000 (fun _ _ => true) false.

(** NORMAL in autonomous mode, a fresh report of a single point fault with
    the emergency flag set. *)
Definition normal_with_fault : EmergencyHandler :=
  mkHandler sample_param
    (Some (mkHazardStatus HazardStatus.SINGLE_POINT_FAULT true false)) 0 (5 # 1)
    ControlModeReport.AUTONOMOUS MrmBehaviorStatus.AVAILABLE MrmBehaviorStatus.AVAILABLE
    (mkMrmState 0 MrmState.NORMAL MrmState.NONE) false.


(** MRM_SUCCEEDED with COMFORTABLE_STOP, a fresh report of a single point
    fault with the emergency flag set, vehicle at rest. *)
Definition succeeded_comfortable : EmergencyHandler :=
  mkHandler sample_param
    (Some (mkHazardStatus HazardStatus.SINGLE_POINT_FAULT true false)) 0 (0 # 1)
    ControlModeReport.AUTONOMOUS MrmBehaviorStatus.AVAILABLE MrmBehaviorStatus.AVAILABLE
    (mkMrmState 0 MrmState.MRM_SUCCEEDED MrmState.COMFORTABLE_STOP) false.

(** MRM_OPERATING with COMFORTABLE_STOP, a fresh report of a single point
    fault with the emergency flag set, vehicle at rest. *)
Definition operating_comfortable_at_rest : EmergencyHandler :=
  mkHandler sample_param
    (Some (mkHazardStatus HazardStatus.SINGLE_POINT_FAULT true false)) 0 (0 # 1)
    ControlModeReport.AUTONOMOUS MrmBehaviorStatus.AVAILABLE MrmBehaviorStatus.AVAILABLE
    (mkMrmState 0 MrmState.MRM_OPERATING MrmState.COMFORTABLE_STOP) false.

(** The same with the vehicle moving at 5 m/s. *)
Definition operating_comfortable_moving : EmergencyHandler :=
  mkHandler sample_param
    (Some (mkHazardStatus HazardStatus.SINGLE_POINT_FAULT true false)) 0 (5 # 1)
    ControlModeReport.AUTONOMOUS MrmBehaviorStatus.AVAILABLE MrmBehaviorStatus.AVAILABLE
    (mkMrmState 0 MrmState.MRM_OPERATING MrmState.COMFORTABLE_STOP) false.

(** MRM_OPERATING with EMERGENCY_STOP, vehicle moving. *)
Definition operating_emergency_moving : EmergencyHandler :=
  mkHandler sample_param
    (Some (mkHazardStatus HazardStatus.SINGLE_POINT_FAULT true false)) 0 (5 # 1)
    ControlModeReport.AUTONOMOUS MrmBehaviorStatus.AVAILABLE MrmBehaviorStatus.AVAILABLE
    (mkMrmState 0 MrmState.MRM_OPERATING MrmState.EMERGENCY_STOP) false.

(** The same with the vehicle reversing at 5 m/s. *)
Definition reversing : EmergencyHandler :=
  mkHandler sample_param
    (Some (mkHazardStatus HazardStatus.SINGLE_POINT_FAULT true false)) 0 (-5 # 1)
    ControlModeReport.AUTONOMOUS MrmBehaviorStatus.AVAILABLE MrmBehaviorStatus.AVAILABLE
    (mkMrmState 0 MrmState.MRM_OPERATING MrmState.EMERGENCY_STOP) false.

(** NORMAL with the behavior 7, which is no declared behavior; the report
    shows no emergency. *)
Definition normal_with_behavior_7 : EmergencyHandler :=
  mkHandler sample_param
    (Some (mkHazardStatus HazardStatus.NO_FAULT false false)) 0 (5 # 1)
    ControlModeReport.AUTONOMOUS MrmBehaviorStatus.AVAILABLE MrmBehaviorStatus.AVAILABLE
    (mkMrmState 0 MrmState.NORMAL 7) false.

(** The state 9, which is no declared state, with the same report. *)
Definition state_9 : EmergencyHandler :=
  mkHandler sample_param
    (Some (mkHazardStatus HazardStatus.NO_FAULT false false)) 0 (5 # 1)
    ControlModeReport.AUTONOMOUS MrmBehaviorStatus.AVAILABLE MrmBehaviorStatus.AVAILABLE
    (mkMrmState 0 9 MrmState.NONE) false.

(** A fault report, both controllers available, autonomous mode, and two
    ticks; no odometry. *)
Definition run_without_odometry : list Input :=
  [HazardStatusStamped 0 (mkHazardStatus HazardStatus.SINGLE_POINT_FAULT true false);
   MrmComfortableStopStatus MrmBehaviorStatus.AVAILABLE;
   MrmEmergencyStopStatus MrmBehaviorStatus.AVAILABLE;
   ControlMode ControlModeReport.AUTONOMOUS;
   Timer sample_env;
   Timer sample_env].

(** The fault clears, a tick, a latent fault appears, a tick. *)
Definition recovery_then_latent_fault : list Input :=
  [HazardStatusStamped 0 (mkHazardStatus HazardStatus.NO_FAULT false false);
   Timer sample_env;
   HazardStatusStamped 0 (mkHazardStatus HazardStatus.LATENT_FAULT true false);
   Timer sample_env].

(** Deliveries in which the emergency-stop controller never reports anything
    but NOT_AVAILABLE. *)
Definition inputs_without_emergency_stop : list Input :=
  [HazardStatusStamped 0 (mkHazardStatus HazardStatus.SINGLE_POINT_FAULT true false);
   MrmComfortableStopStatus MrmBehaviorStatus.AVAILABLE;
   ControlMode ControlModeReport.AUTONOMOUS;
   Timer sample_env;
   MrmEmergencyStopStatus MrmBehaviorStatus.NOT_AVAILABLE;
   Timer sample_env].

(** MRM_FAILED with EMERGENCY_STOP and a single point fault. *)
Definition failed_with_fault : EmergencyHandler :=
  mkHandler sample_param
    (Some (mkHazardStatus HazardStatus.SINGLE_POINT_FAULT true false)) 0 (5 # 1)
    ControlModeReport.AUTONOMOUS MrmBehaviorStatus.AVAILABLE MrmBehaviorStatus.AVAILABLE
    (mkMrmState 0 MrmState.MRM_FAILED MrmState.EMERGENCY_STOP) false.

(** NORMAL in manual mode, a fresh report of a single point fault with the
    emergency flag set. *)
Definition manual_with_fault : EmergencyHandler :=
  mkHandler sample_param
    (Some (mkHazardStatus HazardStatus.SINGLE_POINT_FAULT true false)) 0 (5 # 1)
    ControlModeReport.MANUAL MrmBehaviorStatus.AVAILABLE MrmBehaviorStatus.AVAILABLE
    (mkMrmState 0 MrmState.NORMAL MrmState.NONE) false.

(** MRM_OPERATING with EMERGENCY_STOP, vehicle moving, and a fresh report
    that shows no fault any more. *)
Definition operating_after_fault_cleared : EmergencyHandler :=
  mkHandler sample_param
    (Some (mkHazardStatus HazardStatus.NO_FAULT false false)) 0 (5 # 1)
    ControlModeReport.AUTONOMOUS MrmBehaviorStatus.AVAILABLE MrmBehaviorStatus.AVAILABLE
    (mkMrmState 0 MrmState.MRM_OPERATING MrmState.EMERGENCY_STOP) false.

(** MRM_OPERATING with EMERGENCY_STOP and a single point fault, vehicle at
    rest. *)
Definition operating_emergency_at_rest : EmergencyHandler :=
  mkHandler sample_param
    (Some (mkHazardStatus HazardStatus.SINGLE_POINT_FAULT true false)) 0 (0 # 1)
    ControlModeReport.AUTONOMOUS MrmBehaviorStatus.AVAILABLE MrmBehaviorStatus.AVAILABLE
    (mkMrmState 0 MrmState.MRM_OPERATING MrmState.EMERGENCY_STOP) false.

(** NORMAL in autonomous mode, a fresh report with the emergency flag set
    and the level SAFE_FAULT. *)
Definition normal_with_safe_fault : EmergencyHandler :=
  mkHandler sample_param
    (Some (mkHazardStatus HazardStatus.SAFE_FAULT true false)) 0 (5 # 1)
    ControlModeReport.AUTONOMOUS MrmBehaviorStatus.AVAILABLE MrmBehaviorStatus.AVAILABLE
    (mkMrmState 0 MrmState.NORMAL MrmState.NONE) false.

(** The same with the level LATENT_FAULT. *)
Definition normal_with_latent_fault : EmergencyHandler :=
  mkHandler sample_param
    (Some (mkHazardStatus HazardStatus.LATENT_FAULT true false)) 0 (5 # 1)
    ControlModeReport.AUTONOMOUS MrmBehaviorStatus.AVAILABLE MrmBehaviorStatus.AVAILABLE
    (mkMrmState 0 MrmState.NORMAL MrmState.NONE) false.

(** A tick at 0.1 s in which both controllers answer with failure. *)
Definition failing_env : Env :=
  mkEnv 100000000 100001000 103000000 (fun _ _ => false) false.

(** The next tick, at 0.2 s. *)
Definition next_env : Env :=
  mkEnv 200000000 200001000 203000000 (fun _ _ => true) false.

(** The node starts; a single point fault is reported while the vehicle
    drives at 5 m/s in autonomous mode; the tick at 0.1 s starts the
    emergency stop; at 0.15 s a report shows the fault gone. *)
Definition fault_then_cleared : list Input :=
  [HazardStatusStamped 0 (mkHazardStatus HazardStatus.SINGLE_POINT_FAULT true false);
   MrmComfortableStopStatus MrmBehaviorStatus.AVAILABLE;
   MrmEmergencyStopStatus MrmBehaviorStatus.AVAILABLE;
   ControlMode ControlModeReport.AUTONOMOUS;
   Odometry (5 # 1);
   Timer sample_env;
   HazardStatusStamped 150000000 (mkHazardStatus HazardStatus.NO_FAULT false false)].

(** Where [fault_then_cleared] leaves the node: MRM_OPERATING with
    EMERGENCY_STOP, as published at the first tick, and a report without
    fault. *)
Definition recovering : EmergencyHandler :=
  mkHandler sample_param
    (Some (mkHazardStatus HazardStatus.NO_FAULT false false)) 150000000 (5 # 1)
    ControlModeReport.AUTONOMOUS MrmBehaviorStatus.AVAILABLE MrmBehaviorStatus.AVAILABLE
    (mkMrmState 103000000 MrmState.MRM_OPERATING MrmState.EMERGENCY_STOP) false.






(** A geometry on a line, to run the predicates on: a pose is a position, a
    footprint is the position it covers, a lane is the pair of the positions
    of its left and right bounds, and a line string intersects a footprint
    when the positions coincide. *)
Definition line_intersects (bound footprint : Z) : bool := bound =? footprint.
Definition line_transform (footprint transform : Z) : Z := footprint + transform.
Definition line_within (p : Z) (polygon : Z * Z) : bool :=
  (fst polygon <=? p) && (p <=? snd polygon).

Definition line_straddle (points : list Z) (start_idx end_idx : nat) (lanes : list (Z * Z))
  : Checked bool :=
  straddleRoadBound 0 (fun pose : Z => pose) line_transform line_intersects
    (fun lane : Z * Z => fst lane) (fun lane : Z * Z => snd lane)
    points start_idx end_idx lanes.

Definition line_touches (lane : Z * Z) (pose : Z) : bool :=
  touches_bound 0 (fun pose : Z => pose) line_transform line_intersects
    (fun lane : Z * Z => fst lane) (fun lane : Z * Z => snd lane) lane pose.

(** * Properties *)

(** ** Proof automation *)

Ltac break_one :=
  match goal with
  | H : context [match ?x with _ => _ end] |- _ =>
      lazymatch x with
      | context [match _ with _ => _ end] => fail
      | _ => destruct x eqn:?
      end
  | |- context [match ?x with _ => _ end] =>
      lazymatch x with
      | context [match _ with _ => _ end] => fail
      | _ => destruct x eqn:?
      end
  end.

Ltac monad_unfold :=
  cbv [bind prepend ret gets asks modify emit throw hazard_status request
       commit_behavior negb andb orb] in *.

Ltac inv_returned :=
  repeat match goal with
  | H : Returned _ _ _ = Returned _ _ _ |- _ => inversion H; subst; clear H
  | H : Thrown _ _ = Returned _ _ _ |- _ => discriminate H
  | H : NullDeref _ = Returned _ _ _ |- _ => discriminate H
  end.

(** ** The monad *)

Lemma bind_Returned_inv {A B} (m : M A) (f : A -> M B) env h b h2 out :
  bind m f env h = Returned b h2 out ->
  exists a h1 o1 o2,
    m env h = Returned a h1 o1 /\ f a env h1 = Returned b h2 o2 /\ out = o1 ++ o2.
Proof.
  unfold bind. destruct (m env h) as [a h1 o1| |]; try discriminate.
  destruct (f a env h1) as [b' h2' o2| |] eqn:E; simpl; try discriminate.
  intros H; inversion H; subst. now exists a, h1, o1, o2.
Qed.

Lemma prepend_nil {A} (r : Outcome A) : prepend [] r = r.
Proof. destruct r; reflexivity. Qed.

Lemma bind_Returned {A B} (m : M A) (f : A -> M B) env h a h1 o1 :
  m env h = Returned a h1 o1 ->
  bind m f env h = prepend o1 (f a env h1).
Proof. unfold bind. now intros ->. Qed.

(** ** The pieces of the timer callback *)

Lemma isDataReady_spec env h :
  exists o, isDataReady env h = Returned (data_ready h) h o /\
    (data_ready h = true -> o = []) /\
    (data_ready h = false -> exists text, o = [log_throttle INFO 5000 text]).
Proof.
  unfold isDataReady, data_ready. monad_unfold.
  destruct (hazard_status_stamped_ h); simpl.
  2:{ eexists. split; [reflexivity|]. split; [discriminate|]. intros _. now eexists. }
  destruct (use_comfortable_stop (param_ h));
  destruct (mrm_comfortable_stop_status_ h =? MrmBehaviorStatus.NOT_AVAILABLE);
  destruct (mrm_emergency_stop_status_ h =? MrmBehaviorStatus.NOT_AVAILABLE);
  simpl; eexists; (split; [reflexivity|]);
  (split; [try discriminate; reflexivity | try discriminate; intros _; now eexists]).
Qed.

Lemma with_state_same h : with_state (state (mrm_state_ h)) h = h.
Proof. destruct h as [? ? ? ? ? ? ? [] ?]; reflexivity. Qed.

Lemma with_behavior_same h : with_behavior (behavior (mrm_state_ h)) h = h.
Proof. destruct h as [? ? ? ? ? ? ? [] ?]; reflexivity. Qed.

Lemma checkHazardStatusTimeout_spec env h :
  checkHazardStatusTimeout env h =
  Returned tt (set_is_hazard_status_timeout_ (stale_at (now env) h) h)
    (if stale_at (now env) h
     then [log_throttle WARN 1000 "heartbeat_hazard_status is timeout"] else []).
Proof.
  unfold checkHazardStatusTimeout, stale_at. monad_unfold.
  destruct (Qltb _ _); reflexivity.
Qed.

Lemma isEmergency_spec env h hs :
  hazard_status_stamped_ h = Some hs ->
  isEmergency env h = Returned (is_emergency_of hs (is_hazard_status_timeout_ h)) h [].
Proof. intros E. unfold isEmergency. monad_unfold. rewrite E. reflexivity. Qed.

Lemma isStopped_spec env h : isStopped env h = Returned (stopped h) h [].
Proof. unfold isStopped, stopped. monad_unfold. destruct (Qltb _ _); reflexivity. Qed.

Lemma state2string_declared st env h :
  declared_state st -> exists s, state2string st env h = Returned s h [].
Proof.
  intros [-> | [-> | [-> | ->]]]; eexists; reflexivity.
Qed.

Lemma transitionTo_quiet st env h :
  debug_enabled env = false -> transitionTo st env h = Returned tt (with_state st h) [].
Proof. intros E. unfold transitionTo. monad_unfold. rewrite E. reflexivity. Qed.

Lemma transitionTo_post st env h h' o :
  transitionTo st env h = Returned tt h' o ->
  h' = with_state st h /\ forallb is_log o = true.
Proof.
  unfold transitionTo, state2string. monad_unfold.
  repeat (break_one; try discriminate); intros H; inv_returned; split; reflexivity.
Qed.

Lemma transitionTo_returns st env h :
  declared_state (state (mrm_state_ h)) -> declared_state st ->
  exists o, transitionTo st env h = Returned tt (with_state st h) o /\ forallb is_log o = true.
Proof.
  intros H1 H2. destruct (debug_enabled env) eqn:E.
  2:{ exists []. split; [now apply transitionTo_quiet | reflexivity]. }
  destruct (state2string_declared _ env h H1) as [s1 E1].
  destruct (state2string_declared _ env h H2) as [s2 E2].
  unfold transitionTo. monad_unfold. rewrite E, E1, E2.
  eexists. split; reflexivity.
Qed.

Lemma updateMrmState_post env h hs h' o :
  hazard_status_stamped_ h = Some hs ->
  updateMrmState env h = Returned tt h' o ->
  h' = with_state
         (next_state (control_mode_ h =? ControlModeReport.AUTONOMOUS)
            (is_emergency_of hs (is_hazard_status_timeout_ h)) (stopped h)
            (state (mrm_state_ h))) h /\
  forallb is_log o = true.
Proof.
  intros E. unfold updateMrmState.
  rewrite (bind_Returned _ _ _ _ _ _ _ (isEmergency_spec env h hs E)).
  unfold next_state. cbv [bind gets ret throw]. rewrite !prepend_nil.
  set (e := is_emergency_of hs (is_hazard_status_timeout_ h)).
  set (a := control_mode_ h =? ControlModeReport.AUTONOMOUS).
  destruct (state (mrm_state_ h) =? MrmState.NORMAL);
    [| destruct (state (mrm_state_ h) =? MrmState.MRM_OPERATING);
       [| destruct (state (mrm_state_ h) =? MrmState.MRM_SUCCEEDED);
          [| destruct (state (mrm_state_ h) =? MrmState.MRM_FAILED)]]];
    destruct a, e; cbn [andb negb]; rewrite ?isStopped_spec;
    try destruct (stopped h); cbn [andb negb prepend app]; rewrite ?prepend_nil;
    intros H; try discriminate H;
    try (apply transitionTo_post in H; exact H);
    inv_returned; rewrite with_state_same; now split.
Qed.

Lemma updateMrmState_returns env h hs :
  hazard_status_stamped_ h = Some hs ->
  declared_state (state (mrm_state_ h)) ->
  exists o,
    updateMrmState env h =
    Returned tt
      (with_state
         (next_state (control_mode_ h =? ControlModeReport.AUTONOMOUS)
            (is_emergency_of hs (is_hazard_status_timeout_ h)) (stopped h)
            (state (mrm_state_ h))) h) o /\
    forallb is_log o = true.
Proof.
  intros E D.
  assert (R : forall st, declared_state st ->
            exists o, transitionTo st env h = Returned tt (with_state st h) o
                      /\ forallb is_log o = true)
    by (intros st Dst; now apply transitionTo_returns).
  destruct (R MrmState.NORMAL) as [o1 [T1 L1]]; [unfold declared_state; auto|].
  destruct (R MrmState.MRM_OPERATING) as [o2 [T2 L2]]; [unfold declared_state; auto|].
  destruct (R MrmState.MRM_SUCCEEDED) as [o3 [T3 L3]]; [unfold declared_state; auto 6|].
  unfold updateMrmState.
  rewrite (bind_Returned _ _ _ _ _ _ _ (isEmergency_spec env h hs E)).
  unfold next_state. cbv [bind gets ret throw]. rewrite !prepend_nil.
  set (e := is_emergency_of hs (is_hazard_status_timeout_ h)).
  set (a := control_mode_ h =? ControlModeReport.AUTONOMOUS).
  destruct D as [D | [D | [D | D]]]; rewrite D; cbn [Z.eqb Pos.eqb MrmState.NORMAL
      MrmState.MRM_OPERATING MrmState.MRM_SUCCEEDED MrmState.MRM_FAILED];
    destruct a, e; cbn [andb negb]; rewrite ?isStopped_spec;
    try destruct (stopped h); cbn [andb negb prepend app]; rewrite ?prepend_nil;
    rewrite ?T1, ?T2, ?T3; try rewrite <- D; rewrite ?with_state_same;
    eexists; (split; [reflexivity|]); first [assumption | reflexivity].
Qed.

Lemma publishControlCommands_spec env h hs :
  hazard_status_stamped_ h = Some hs ->
  publishControlCommands env h =
  Returned tt h [pub_hazard_cmd (hazard_command hs h); pub_gear_cmd (now_commands env) (gear_command h)].
Proof.
  intros E. unfold publishControlCommands, createHazardCmdMsg, hazard_command, gear_command.
  cbv [bind asks prepend app].
  rewrite (isEmergency_spec env h hs E).
  cbv [hazard_status gets ret emit]. rewrite E.
  destruct (emergency_holding hs);
    destruct (is_emergency_of hs (is_hazard_status_timeout_ h));
    destruct (turning_hazard_on_emergency (param_ h));
    cbn [andb]; rewrite isStopped_spec;
    destruct (use_parking_after_stopped (param_ h));
    destruct (stopped h); reflexivity.
Qed.

Lemma publishMrmState_spec env h :
  publishMrmState env h =
  Returned tt (with_stamp (now_mrm_state env) h) [pub_mrm_state (mrm_state_ (with_stamp (now_mrm_state env) h))].
Proof. reflexivity. Qed.

(** *** The invoker *)

Lemma cancelMrmBehavior_spec b env h :
  exists o, cancelMrmBehavior b env h = Returned tt h o /\
    forallb is_invoker o = true /\ requests o = request_to b false.
Proof.
  unfold cancelMrmBehavior, request_to, client_of. monad_unfold.
  destruct (Z.eqb_spec b MrmState.NONE) as [-> |]; [eexists; repeat split; reflexivity|].
  destruct (b =? MrmState.COMFORTABLE_STOP);
    [|destruct (b =? MrmState.EMERGENCY_STOP)];
    try destruct (response_success env _ _); eexists; repeat split; reflexivity.
Qed.

Lemma callMrmBehavior_spec b env h :
  exists o, callMrmBehavior b env h = Returned tt h o /\
    forallb is_invoker o = true /\ requests o = request_to b true.
Proof.
  unfold callMrmBehavior, request_to, client_of. monad_unfold.
  destruct (Z.eqb_spec b MrmState.NONE) as [-> |]; [eexists; repeat split; reflexivity|].
  destruct (b =? MrmState.COMFORTABLE_STOP);
    [|destruct (b =? MrmState.EMERGENCY_STOP)];
    try destruct (response_success env _ _); eexists; repeat split; reflexivity.
Qed.

(** *** The arbitrator *)

Lemma getCurrentMrmBehavior_spec env h hs :
  hazard_status_stamped_ h = Some hs ->
  getCurrentMrmBehavior env h =
  Returned
    (selected_behavior (use_comfortable_stop (param_ h))
       (effective_level hs (is_hazard_status_timeout_ h)) (behavior (mrm_state_ h))) h [].
Proof.
  intros E. unfold getCurrentMrmBehavior, selected_behavior, effective_level.
  cbv [bind hazard_status gets ret prepend app]. rewrite E.
  set (lvl := if is_hazard_status_timeout_ h then _ else _).
  destruct (Z.eqb_spec (behavior (mrm_state_ h)) MrmState.NONE) as [-> |];
    destruct (lvl =? HazardStatus.LATENT_FAULT);
    destruct (lvl =? HazardStatus.SINGLE_POINT_FAULT);
    destruct (use_comfortable_stop (param_ h));
    try reflexivity;
    destruct (behavior (mrm_state_ h) =? MrmState.COMFORTABLE_STOP); reflexivity.
Qed.

Lemma selected_behavior_step use_cs lvl b st :
  behavior_step b (selected_behavior use_cs lvl b) st.
Proof.
  unfold selected_behavior, behavior_step.
  destruct (Z.eqb_spec b MrmState.NONE);
    destruct (Z.eqb_spec b MrmState.COMFORTABLE_STOP);
    destruct (lvl =? HazardStatus.LATENT_FAULT);
    destruct (lvl =? HazardStatus.SINGLE_POINT_FAULT);
    destruct use_cs; auto 6.
Qed.

Lemma selected_behavior_idem use_cs lvl b :
  selected_behavior use_cs lvl (selected_behavior use_cs lvl b) = selected_behavior use_cs lvl b.
Proof.
  unfold selected_behavior.
  destruct (Z.eqb_spec b MrmState.NONE);
    destruct (Z.eqb_spec b MrmState.COMFORTABLE_STOP);
    destruct (Z.eqb_spec lvl HazardStatus.LATENT_FAULT);
    destruct (Z.eqb_spec lvl HazardStatus.SINGLE_POINT_FAULT);
    destruct use_cs; subst; try reflexivity; try discriminate;
    repeat match goal with
    | |- context [?x =? ?y] => destruct (Z.eqb_spec x y); try congruence
    end.
Qed.

(** What [operateMrm] does in each state. *)
Lemma operateMrm_normal env h :
  state (mrm_state_ h) = MrmState.NORMAL ->
  exists o, operateMrm env h = Returned tt (with_behavior MrmState.NONE h) o /\
    forallb is_invoker o = true /\
    requests o = request_to (behavior (mrm_state_ h)) false.
Proof.
  intros E. unfold operateMrm. cbv [bind gets prepend]; rewrite ?app_nil_l. rewrite E.
  cbn [Z.eqb Pos.eqb MrmState.NORMAL].
  destruct (Z.eqb_spec MrmState.NONE (behavior (mrm_state_ h))) as [Eb | Nb]; cbn [negb].
  - exists []. rewrite Eb at 1. rewrite with_behavior_same. rewrite <- Eb.
    repeat split; reflexivity.
  - destruct (cancelMrmBehavior_spec (behavior (mrm_state_ h)) env h) as (o & -> & L & R).
    exists o. cbv [commit_behavior modify prepend]. rewrite app_nil_r. auto.
Qed.

Lemma operateMrm_operating env h hs :
  state (mrm_state_ h) = MrmState.MRM_OPERATING ->
  hazard_status_stamped_ h = Some hs ->
  let b := behavior (mrm_state_ h) in
  let b' := selected_behavior (use_comfortable_stop (param_ h))
              (effective_level hs (is_hazard_status_timeout_ h)) b in
  exists o, operateMrm env h = Returned tt (with_behavior b' h) o /\
    forallb is_invoker o = true /\
    requests o = (if b' =? b then [] else request_to b false ++ request_to b' true).
Proof.
  intros E Eh b b'. unfold operateMrm. cbv [bind gets prepend]; rewrite ?app_nil_l. rewrite E.
  cbn [Z.eqb Pos.eqb MrmState.NORMAL MrmState.MRM_OPERATING].
  rewrite (getCurrentMrmBehavior_spec env h hs Eh). fold b b'.
  destruct (Z.eqb_spec b' b) as [Eb | Nb]; cbn [negb].
  - exists []. rewrite Eb. unfold b. rewrite with_behavior_same. repeat split; reflexivity.
  - destruct (cancelMrmBehavior_spec b env h) as (o1 & -> & L1 & R1).
    destruct (callMrmBehavior_spec b' env h) as (o2 & -> & L2 & R2).
    exists (o1 ++ o2). cbv [commit_behavior modify prepend]. rewrite !app_nil_r.
    split; [reflexivity|]. split; [rewrite forallb_app, L1, L2; reflexivity|].
    unfold requests in *. now rewrite filter_app, R1, R2.
Qed.

Lemma operateMrm_done env h :
  state (mrm_state_ h) = MrmState.MRM_SUCCEEDED \/ state (mrm_state_ h) = MrmState.MRM_FAILED ->
  operateMrm env h = Returned tt h [].
Proof.
  intros [E | E]; unfold operateMrm; cbv [bind gets prepend]; rewrite ?app_nil_l; rewrite E; reflexivity.
Qed.

Lemma operateMrm_invalid env h :
  ~ declared_state (state (mrm_state_ h)) ->
  operateMrm env h =
  Returned tt h [log WARN (String.append "invalid MRM state: " (to_string (state (mrm_state_ h))))].
Proof.
  intros N. unfold declared_state in N. unfold operateMrm. cbv [bind gets prepend]; rewrite ?app_nil_l.
  repeat match goal with
  | |- context [?x =? ?y] => destruct (Z.eqb_spec x y); [tauto|]
  end.
  reflexivity.
Qed.

Lemma operateMrm_post env h h' o :
  operateMrm env h = Returned tt h' o ->
  exists b', h' = with_behavior b' h /\ forallb is_invoker o = true /\
    behavior_step (behavior (mrm_state_ h)) b' (state (mrm_state_ h)) /\
    (state (mrm_state_ h) = MrmState.NORMAL -> b' = MrmState.NONE) /\
    (b' = behavior (mrm_state_ h) -> requests o = []).
Proof.
  intros H.
  destruct (Z.eq_dec (state (mrm_state_ h)) MrmState.NORMAL) as [E | N1].
  { destruct (operateMrm_normal env h E) as (o' & E' & L & R).
    rewrite E' in H. inv_returned. exists MrmState.NONE.
    repeat split; auto.
    - unfold behavior_step; auto 6.
    - intros Eb. rewrite R, <- Eb. reflexivity. }
  destruct (Z.eq_dec (state (mrm_state_ h)) MrmState.MRM_OPERATING) as [E | N2].
  { destruct (hazard_status_stamped_ h) as [hs|] eqn:Eh.
    2:{ unfold operateMrm in H. cbv [bind gets prepend] in H. rewrite E in H.
        cbn [Z.eqb Pos.eqb MrmState.NORMAL MrmState.MRM_OPERATING] in H.
        unfold getCurrentMrmBehavior in H. cbv [bind hazard_status] in H.
        rewrite Eh in H. discriminate H. }
    destruct (operateMrm_operating env h hs E Eh) as (o' & E' & L & R).
    rewrite E' in H. inv_returned. eexists. split; [reflexivity|].
    repeat split; auto.
    - apply selected_behavior_step.
    - intros En. rewrite En in E. discriminate E.
    - intros Eb. rewrite R, Eb, Z.eqb_refl. reflexivity. }
  destruct (Z.eq_dec (state (mrm_state_ h)) MrmState.MRM_SUCCEEDED) as [E | N3].
  { rewrite operateMrm_done in H by auto. inv_returned.
    exists (behavior (mrm_state_ h')). rewrite with_behavior_same.
    repeat split; auto; try contradiction. unfold behavior_step; auto. }
  destruct (Z.eq_dec (state (mrm_state_ h)) MrmState.MRM_FAILED) as [E | N4].
  { rewrite operateMrm_done in H by auto. inv_returned.
    exists (behavior (mrm_state_ h')). rewrite with_behavior_same.
    repeat split; auto; try contradiction. unfold behavior_step; auto. }
  rewrite operateMrm_invalid in H by (unfold declared_state; tauto). inv_returned.
  exists (behavior (mrm_state_ h')). rewrite with_behavior_same.
  repeat split; auto; try contradiction. unfold behavior_step; auto.
Qed.

(** *** The timer callback, taken apart *)

Lemma onTimer_skip env h :
  data_ready h = false ->
  exists text, onTimer env h = Returned tt h [log_throttle INFO 5000 text].
Proof.
  intros E. destruct (isDataReady_spec env h) as (o & R & _ & L).
  destruct (L E) as [text ->]. exists text.
  unfold onTimer. rewrite (bind_Returned _ _ _ _ _ _ _ R), E. reflexivity.
Qed.

(** A tick that passes the gate and returns went through the five steps, one
    after the other, and its events are theirs in that order. *)
Lemma onTimer_ready_inv env h hs h' out :
  data_ready h = true ->
  hazard_status_stamped_ h = Some hs ->
  onTimer env h = Returned tt h' out ->
  let h1 := set_is_hazard_status_timeout_ (stale_at (now env) h) h in
  let h2 := with_state
              (next_state (control_mode_ h =? ControlModeReport.AUTONOMOUS)
                 (is_emergency_of hs (stale_at (now env) h)) (stopped h)
                 (state (mrm_state_ h))) h1 in
  exists o2 h4 o4,
    updateMrmState env h1 = Returned tt h2 o2 /\ forallb is_log o2 = true /\
    operateMrm env h2 = Returned tt h4 o4 /\
    h' = with_stamp (now_mrm_state env) h4 /\
    out = stale_log (stale_at (now env) h) ++ o2 ++
          [pub_hazard_cmd (hazard_command hs h2); pub_gear_cmd (now_commands env) (gear_command h2)] ++
          o4 ++ [pub_mrm_state (mrm_state_ h')].
Proof.
  intros Er Eh H h1 h2.
  destruct (isDataReady_spec env h) as (o & R & L & _). rewrite (L Er) in R.
  unfold onTimer in H. rewrite (bind_Returned _ _ _ _ _ _ _ R), Er in H.
  cbn [negb] in H. rewrite prepend_nil in H.
  rewrite (bind_Returned _ _ _ _ _ _ _ (checkHazardStatusTimeout_spec env h)) in H.
  fold h1 in H. fold (stale_log (stale_at (now env) h)) in H.
  destruct (bind _ _ env h1) as [[] hx outx| |] eqn:B; try discriminate H.
  cbn [prepend] in H. inv_returned.
  apply bind_Returned_inv in B. destruct B as ([] & hu & o2 & o' & U & B & ->).
  assert (Eh1 : hazard_status_stamped_ h1 = Some hs) by exact Eh.
  destruct (updateMrmState_post env h1 hs hu o2 Eh1 U) as [-> L2].
  change (with_state _ h1) with h2 in U, B.
  assert (Eh2 : hazard_status_stamped_ h2 = Some hs) by exact Eh.
  rewrite (bind_Returned _ _ _ _ _ _ _ (publishControlCommands_spec env h2 hs Eh2)) in B.
  destruct (bind _ _ env h2) as [[] hy outy| |] eqn:B2; try discriminate B.
  cbn [prepend] in B. inv_returned.
  apply bind_Returned_inv in B2. destruct B2 as ([] & h4 & o4 & o5 & O & P & ->).
  rewrite publishMrmState_spec in P. inv_returned.
  exists o2, h4, o4. repeat split; auto.
Qed.

Lemma data_ready_hazard h :
  data_ready h = true -> exists hs, hazard_status_stamped_ h = Some hs.
Proof.
  unfold data_ready. destruct (hazard_status_stamped_ h) as [hs|]; [now exists hs | discriminate].
Qed.

Lemma operateMrm_returns env h hs :
  hazard_status_stamped_ h = Some hs ->
  exists h' o, operateMrm env h = Returned tt h' o.
Proof.
  intros Eh.
  destruct (Z.eq_dec (state (mrm_state_ h)) MrmState.NORMAL) as [E | N1].
  { destruct (operateMrm_normal env h E) as (o & -> & _). eauto. }
  destruct (Z.eq_dec (state (mrm_state_ h)) MrmState.MRM_OPERATING) as [E | N2].
  { destruct (operateMrm_operating env h hs E Eh) as (o & -> & _). eauto. }
  destruct (Z.eq_dec (state (mrm_state_ h)) MrmState.MRM_SUCCEEDED) as [E | N3].
  { rewrite operateMrm_done by auto. eauto. }
  destruct (Z.eq_dec (state (mrm_state_ h)) MrmState.MRM_FAILED) as [E | N4].
  { rewrite operateMrm_done by auto. eauto. }
  rewrite operateMrm_invalid by (unfold declared_state; tauto). eauto.
Qed.

(** A tick that passes the gate in a declared state returns. *)
Lemma onTimer_ready_returns env h :
  data_ready h = true ->
  declared_state (state (mrm_state_ h)) ->
  exists h' out, onTimer env h = Returned tt h' out.
Proof.
  intros Er D. destruct (data_ready_hazard h Er) as [hs Eh].
  destruct (isDataReady_spec env h) as (o & R & L & _). rewrite (L Er) in R.
  unfold onTimer. rewrite (bind_Returned _ _ _ _ _ _ _ R), Er.
  cbn [negb]. rewrite prepend_nil.
  rewrite (bind_Returned _ _ _ _ _ _ _ (checkHazardStatusTimeout_spec env h)).
  set (h1 := set_is_hazard_status_timeout_ _ h).
  destruct (updateMrmState_returns env h1 hs Eh D) as (o2 & U & _).
  rewrite (bind_Returned _ _ _ _ _ _ _ U).
  set (h2 := with_state _ h1) in *.
  rewrite (bind_Returned _ _ _ _ _ _ _ (publishControlCommands_spec env h2 hs Eh)).
  destruct (operateMrm_returns env h2 hs Eh) as (h4 & o4 & O).
  rewrite (bind_Returned _ _ _ _ _ _ _ O), publishMrmState_spec.
  cbn [prepend]. eauto.
Qed.

Lemma forallb_In {A} (f : A -> bool) (l : list A) (x : A) :
  forallb f l = true -> In x l -> f x = true.
Proof. intros H. now apply forallb_forall. Qed.

(** ** The state NORMAL goes with the behavior NONE *)

Lemma onTimer_publishes_invariant env h h' out :
  onTimer env h = Returned tt h' out ->
  (normal_implies_none (mrm_state_ h) -> normal_implies_none (mrm_state_ h')) /\
  (forall m, In (pub_mrm_state m) out -> normal_implies_none m).
Proof.
  intros H. destruct (data_ready h) eqn:Er.
  - destruct (data_ready_hazard h Er) as [hs Eh].
    destruct (onTimer_ready_inv env h hs h' out Er Eh H) as (o2 & h4 & o4 & U & L2 & O & -> & ->).
    destruct (operateMrm_post _ _ _ _ O) as (b' & -> & L4 & _ & Hn & _).
    assert (I : normal_implies_none
                  (mrm_state_ (with_stamp (now_mrm_state env) (with_behavior b'
                     (with_state
                        (next_state (control_mode_ h =? ControlModeReport.AUTONOMOUS)
                           (is_emergency_of hs (stale_at (now env) h)) (stopped h)
                           (state (mrm_state_ h)))
                        (set_is_hazard_status_timeout_ (stale_at (now env) h) h)))))).
    { unfold normal_implies_none. simpl. intros En. apply Hn. exact En. }
    split; [intros _; exact I|].
    intros m Hin. repeat (apply in_app_or in Hin; destruct Hin as [Hin | Hin]).
    + unfold stale_log in Hin. destruct (stale_at _ _); simpl in Hin; intuition discriminate.
    + apply (forallb_In _ _ _ L2) in Hin. discriminate Hin.
    + simpl in Hin. intuition discriminate.
    + apply (forallb_In _ _ _ L4) in Hin. discriminate Hin.
    + simpl in Hin. destruct Hin as [Hin | []]. inversion Hin; subst. exact I.
  - destruct (onTimer_skip env h Er) as [text E]. rewrite E in H. inv_returned.
    split; [auto|]. intros m [Hin | []]. discriminate Hin.
Qed.

Lemma deliver_keeps_invariant i h h' out :
  deliver i h = Returned tt h' out ->
  normal_implies_none (mrm_state_ h) -> normal_implies_none (mrm_state_ h').
Proof.
  destruct i; simpl; intros H; try (inv_returned; auto; fail).
  now apply (onTimer_publishes_invariant env h h' out).
Qed.

Lemma reachable_normal_none p h :
  reachable p h -> normal_implies_none (mrm_state_ h).
Proof.
  induction 1 as [t | h h' i out _ IH D].
  - intros _. reflexivity.
  - exact (deliver_keeps_invariant i h h' out D IH).
Qed.

Lemma next_state_declared a e s st :
  declared_state st -> declared_state (next_state a e s st).
Proof.
  unfold next_state, declared_state.
  intros [-> | [-> | [-> | ->]]]; destruct a, e, s; simpl; auto.
Qed.

Lemma deliver_keeps_declared i h h' out :
  deliver i h = Returned tt h' out ->
  declared_state (state_of h) -> declared_state (state_of h').
Proof.
  unfold state_of.
  destruct i; simpl; intros H; try (inv_returned; auto; fail).
  intros D. destruct (data_ready h) eqn:Er.
  - destruct (data_ready_hazard h Er) as [hs Eh].
    destruct (onTimer_ready_inv env h hs h' out Er Eh H) as (o2 & h4 & o4 & U & L2 & O & -> & _).
    destruct (operateMrm_post _ _ _ _ O) as (b' & -> & _).
    simpl. now apply next_state_declared.
  - destruct (onTimer_skip env h Er) as [text E]. rewrite E in H. inv_returned. exact D.
Qed.

Lemma reachable_declared p h : reachable p h -> declared_state (state_of h).
Proof.
  induction 1 as [t | h h' i out _ IH D].
  - left. reflexivity.
  - exact (deliver_keeps_declared i h h' out D IH).
Qed.

(** A run from a handler the node can reach ends in one. *)
Lemma reachable_run p inputs : forall h h' out,
  reachable p h -> run h inputs = Returned tt h' out -> reachable p h'.
Proof.
  induction inputs as [|i rest IH]; simpl; intros h h' out R H.
  - inv_returned. exact R.
  - destruct (deliver i h) as [[] h1 o1| |] eqn:D; try discriminate H.
    destruct (run h1 rest) as [[] h2 o2| |] eqn:E; simpl in H; try discriminate H.
    inv_returned. apply (IH h1 _ o2); [|exact E].
    exact (reachable_deliver p h h1 i o1 R D).
Qed.

(** C1. In every handler the node can reach, the state NORMAL comes with the
    behavior NONE; a tick from such a handler returns, and every MrmState
    message it publishes obeys the same rule; when the tick passes the gate,
    the last thing it does is to publish the MRM state it leaves.  The
    arbitration step is what enforces the rule: run in the state NORMAL (on
    any handler, reachable or not) it returns with the behavior NONE, after
    cancelling the behavior that was active, and the tick publishes only
    after that step. *)
Theorem normal_state_has_behavior_none (p : Param) (h : EmergencyHandler) :
  reachable p h ->
  normal_implies_none (mrm_state_ h) /\
  (forall env, exists h' out,
     onTimer env h = Returned tt h' out /\
     normal_implies_none (mrm_state_ h') /\
     (forall m, In (pub_mrm_state m) out -> normal_implies_none m) /\
     (data_ready h = true ->
      exists before, out = before ++ [pub_mrm_state (mrm_state_ h')])) /\
  (forall env g,
     state (mrm_state_ g) = MrmState.NORMAL ->
     exists o, operateMrm env g = Returned tt (with_behavior MrmState.NONE g) o /\
               requests o = request_to (behavior (mrm_state_ g)) false).
Proof.
  intros R. pose proof (reachable_normal_none p h R) as I.
  split; [exact I|]. split.
  - intros env.
    assert (exists h' out, onTimer env h = Returned tt h' out) as (h' & out & H).
    { destruct (data_ready h) eqn:Er.
      - apply onTimer_ready_returns; [exact Er | exact (reachable_declared p h R)].
      - destruct (onTimer_skip env h Er) as [text E]. eauto. }
    exists h', out. split; [exact H|].
    destruct (onTimer_publishes_invariant env h h' out H) as [K P].
    split; [auto|]. split; [exact P|].
    intros Er. destruct (data_ready_hazard h Er) as [hs Eh].
    destruct (onTimer_ready_inv env h hs h' out Er Eh H)
      as (o2 & h4 & o4 & _ & _ & _ & _ & ->).
    eexists. rewrite !app_assoc. reflexivity.
  - intros env g E. destruct (operateMrm_normal env g E) as (o & Ho & _ & Hr). eauto.
Qed.

Lemma normal_state_has_behavior_none_witness :
  reachable sample_param recovering /\
  state_of recovering = MrmState.MRM_OPERATING /\
  behavior_of recovering = MrmState.EMERGENCY_STOP /\
  onTimer next_env recovering =
    Returned tt
      (set_mrm_state_ (mkMrmState 203000000 MrmState.NORMAL MrmState.NONE) recovering)
      [pub_hazard_cmd HazardLightsCommand.NO_COMMAND;
       pub_gear_cmd 200001000 GearCommand.DRIVE;
       send_request client_mrm_emergency_stop_ false;
       log WARN "Emergency stop is canceled";
       pub_mrm_state (mkMrmState 203000000 MrmState.NORMAL MrmState.NONE)] /\
  normal_implies_none (mrm_state_ recovering) /\
  (exists h' out,
     onTimer next_env recovering = Returned tt h' out /\
     normal_implies_none (mrm_state_ h') /\
     (forall m, In (pub_mrm_state m) out -> normal_implies_none m) /\
     (data_ready recovering = true ->
      exists before, out = before ++ [pub_mrm_state (mrm_state_ h')])).
Proof.
  assert (R : reachable sample_param recovering).
  { apply (reachable_run sample_param fault_then_cleared
             (EmergencyHandler_new sample_param 0) recovering
             [pub_hazard_cmd HazardLightsCommand.ENABLE;
              pub_gear_cmd 100001000 GearCommand.DRIVE;
              send_request client_mrm_emergency_stop_ true;
              log WARN "Emergency stop is operated";
              pub_mrm_state (mkMrmState 103000000 MrmState.MRM_OPERATING
                               MrmState.EMERGENCY_STOP)]).
    - apply reachable_new.
    - reflexivity. }
  split; [exact R|]. split; [reflexivity|]. split; [reflexivity|].
  split; [reflexivity|].
  pose proof (normal_state_has_behavior_none sample_param recovering R) as W.
  split; [exact (proj1 W) | exact (proj1 (proj2 W) next_env)].
Defined.

(** ** The behavior only escalates *)

Lemma deliver_behavior_step i h h' out :
  deliver i h = Returned tt h' out ->
  behavior_step (behavior_of h) (behavior_of h') (state_of h').
Proof.
  unfold behavior_of, state_of.
  destruct i; simpl; intros H; try (inv_returned; left; reflexivity).
  destruct (data_ready h) eqn:Er.
  - destruct (data_ready_hazard h Er) as [hs Eh].
    destruct (onTimer_ready_inv env h hs h' out Er Eh H) as (o2 & h4 & o4 & U & L2 & O & -> & _).
    destruct (operateMrm_post _ _ _ _ O) as (b' & -> & _ & S & _). exact S.
  - destruct (onTimer_skip env h Er) as [text E]. rewrite E in H. inv_returned.
    left; reflexivity.
Qed.

Lemma visited_adjacent inputs : forall h n g g',
  nth_error (visited h inputs) n = Some g ->
  nth_error (visited h inputs) (S n) = Some g' ->
  behavior_step (behavior_of g) (behavior_of g') (state_of g').
Proof.
  induction inputs as [|i rest IH]; intros h n g g' Hn Hs.
  - simpl in Hs. destruct n; discriminate Hs.
  - simpl in Hn, Hs. destruct (deliver i h) as [[] h1 o1| |] eqn:D;
      try (destruct n; discriminate Hs).
    destruct n as [|n].
    + simpl in Hn. inversion Hn; subst g.
      destruct rest; simpl in Hs; inversion Hs; subst g';
        exact (deliver_behavior_step i h h1 o1 D).
    + simpl in Hn. exact (IH h1 n g g' Hn Hs).
Qed.

Lemma leaving_emergency_stop (l : list EmergencyHandler) :
  (forall n g g', nth_error l n = Some g -> nth_error l (S n) = Some g' ->
                  behavior_step (behavior_of g) (behavior_of g') (state_of g')) ->
  forall j i gi gj, (i < j)%nat ->
    nth_error l i = Some gi -> behavior_of gi = MrmState.EMERGENCY_STOP ->
    nth_error l j = Some gj -> behavior_of gj <> MrmState.EMERGENCY_STOP ->
    exists k gk, (i < k <= j)%nat /\ nth_error l k = Some gk /\
                 behavior_of gk = MrmState.NONE /\ state_of gk = MrmState.NORMAL.
Proof.
  intros Adj. induction j as [|j IH]; intros i gi gj Hij Hi Bi Hj Bj; [lia|].
  assert (Hlen : (j < List.length l)%nat).
  { assert (nth_error l (S j) <> None) as N by congruence.
    apply nth_error_Some in N. lia. }
  assert (exists g, nth_error l j = Some g) as [g Hg].
  { destruct (nth_error l j) as [g|] eqn:Hg; [now exists g | apply nth_error_None in Hg; lia]. }
  pose proof (Adj j g gj Hg Hj) as S.
  destruct (Z.eq_dec (behavior_of g) MrmState.EMERGENCY_STOP) as [Eg | Ng].
  - (* the step out of EMERGENCY_STOP can only be the reset *)
    rewrite Eg in S.
    destruct S as [S | [[S _] | [[S _] | [[S _] | [S T]]]]];
      try discriminate S; try contradiction.
    exists (Datatypes.S j), gj. repeat split; auto.
  - assert (i <> j) as N by (intros ->; rewrite Hg in Hi; inversion Hi; subst; contradiction).
    destruct (IH i gi g ltac:(lia) Hi Bi Hg Ng) as (k & gk & Hk & R).
    exists k, gk. split; [lia | exact R].
Qed.

(** C2. One delivery changes the behavior only upwards in
    NONE < COMFORTABLE_STOP < EMERGENCY_STOP, or resets it to NONE with the
    state NORMAL; so along any run a handler with EMERGENCY_STOP is never
    followed by one with COMFORTABLE_STOP unless a handler in between has the
    behavior NONE (and the state NORMAL). *)
Theorem behavior_only_escalates :
  (forall i h h' out,
     deliver i h = Returned tt h' out ->
     behavior_step (behavior_of h) (behavior_of h') (state_of h')) /\
  (forall h inputs i j gi gj,
     (i < j)%nat ->
     nth_error (visited h inputs) i = Some gi ->
     behavior_of gi = MrmState.EMERGENCY_STOP ->
     nth_error (visited h inputs) j = Some gj ->
     behavior_of gj = MrmState.COMFORTABLE_STOP ->
     exists k gk, (i < k < j)%nat /\ nth_error (visited h inputs) k = Some gk /\
                  behavior_of gk = MrmState.NONE /\ state_of gk = MrmState.NORMAL).
Proof.
  split; [exact deliver_behavior_step|].
  intros h inputs i j gi gj Hij Hi Bi Hj Bj.
  destruct (leaving_emergency_stop (visited h inputs) (visited_adjacent inputs h)
              j i gi gj Hij Hi Bi Hj) as (k & gk & Hk & Hn & Bk & Sk).
  { rewrite Bj. discriminate. }
  exists k, gk. repeat split; auto; try lia.
  assert (k <> j); [|lia].
  intros ->. rewrite Hn in Hj. inversion Hj; subst. rewrite Bk in Bj. discriminate Bj.
Qed.
Lemma behavior_only_escalates_witness :
  behavior_step (behavior_of normal_with_fault)
    (behavior_of (set_mrm_state_
                    (mkMrmState 103000000 MrmState.MRM_OPERATING MrmState.EMERGENCY_STOP)
                    normal_with_fault))
    (state_of (set_mrm_state_
                 (mkMrmState 103000000 MrmState.MRM_OPERATING MrmState.EMERGENCY_STOP)
                 normal_with_fault)) /\
  exists k gk, (0 < k < 4)%nat /\
    nth_error (visited operating_emergency_moving recovery_then_latent_fault) k = Some gk /\
    behavior_of gk = MrmState.NONE /\ state_of gk = MrmState.NORMAL.
Proof.
  split.
  - eapply (proj1 behavior_only_escalates (Timer sample_env) normal_with_fault).
    reflexivity.
  - eapply (proj2 behavior_only_escalates operating_emergency_moving
              recovery_then_latent_fault 0%nat 4%nat).
    + repeat constructor.
    + reflexivity.
    + reflexivity.
    + reflexivity.
    + reflexivity.
Defined.

(** ** Requests in a trace *)

Lemma requests_app a b : requests (a ++ b) = requests a ++ requests b.
Proof. apply filter_app. Qed.

Lemma requests_logs o : forallb is_log o = true -> requests o = [].
Proof.
  induction o as [|e o IH]; [reflexivity|]. simpl. intros H.
  apply andb_prop in H. destruct H as [He Ho].
  destruct e; try discriminate He; simpl; auto.
Qed.

Lemma stale_log_is_log b : forallb is_log (stale_log b) = true.
Proof. destruct b; reflexivity. Qed.

(** ** Where the arbitration rules apply *)

(** C3, as stated, fails: in MRM_SUCCEEDED with COMFORTABLE_STOP and a single
    point fault the tick leaves the behavior at COMFORTABLE_STOP and sends no
    request. *)
Lemma succeeded_comfortable_stop_is_not_escalated :
  data_ready succeeded_comfortable = true /\
  state_of succeeded_comfortable = MrmState.MRM_SUCCEEDED /\
  behavior_of succeeded_comfortable = MrmState.COMFORTABLE_STOP /\
  effective_level (mkHazardStatus HazardStatus.SINGLE_POINT_FAULT true false)
    (stale_at (now sample_env) succeeded_comfortable) = HazardStatus.SINGLE_POINT_FAULT /\
  onTimer sample_env succeeded_comfortable =
    Returned tt (with_stamp 103000000 succeeded_comfortable)
      [pub_hazard_cmd HazardLightsCommand.ENABLE;
       pub_gear_cmd 100001000 GearCommand.PARK;
       pub_mrm_state (mkMrmState 103000000 MrmState.MRM_SUCCEEDED MrmState.COMFORTABLE_STOP)] /\
  behavior_of (with_stamp 103000000 succeeded_comfortable) <> MrmState.EMERGENCY_STOP.
Proof.
  repeat split; try reflexivity. discriminate.
Qed.

Lemma next_state_emergency_done a s st :
  st = MrmState.MRM_SUCCEEDED \/ st = MrmState.MRM_FAILED ->
  next_state a true s st = st.
Proof. intros [-> | ->]; reflexivity. Qed.

(** C3, amended. The selection and escalation rules are applied by the
    arbitration step only when it runs in MRM_OPERATING, where it commits
    the selected behavior and sends the cancel and the call when it differs.
    In MRM_SUCCEEDED and MRM_FAILED the step does nothing, and a tick that
    starts there during an emergency returns with the same state and the
    same behavior and sends no request. *)
Theorem arbitration_rules_apply_in_mrm_operating_only :
  (forall env h hs,
     state_of h = MrmState.MRM_OPERATING ->
     hazard_status_stamped_ h = Some hs ->
     let b' := selected_behavior (use_comfortable_stop (param_ h))
                 (effective_level hs (is_hazard_status_timeout_ h)) (behavior_of h) in
     exists o, operateMrm env h = Returned tt (with_behavior b' h) o /\
       requests o = (if b' =? behavior_of h then []
                     else request_to (behavior_of h) false ++ request_to b' true)) /\
  (forall env h,
     state_of h = MrmState.MRM_SUCCEEDED \/ state_of h = MrmState.MRM_FAILED ->
     operateMrm env h = Returned tt h []) /\
  (forall env h hs,
     data_ready h = true ->
     hazard_status_stamped_ h = Some hs ->
     state_of h = MrmState.MRM_SUCCEEDED \/ state_of h = MrmState.MRM_FAILED ->
     is_emergency_of hs (stale_at (now env) h) = true ->
     exists h' out, onTimer env h = Returned tt h' out /\
       state_of h' = state_of h /\ behavior_of h' = behavior_of h /\ requests out = []).
Proof.
  split; [|split].
  - intros env h hs E Eh b'.
    destruct (operateMrm_operating env h hs E Eh) as (o & Ho & _ & Hr). eauto.
  - intros env h D. now apply operateMrm_done.
  - intros env h hs Er Eh D Ee.
    assert (Dd : declared_state (state (mrm_state_ h)))
      by (unfold declared_state; destruct D; auto).
    destruct (onTimer_ready_returns env h Er Dd) as (h' & out & H).
    exists h', out. split; [exact H|].
    destruct (onTimer_ready_inv env h hs h' out Er Eh H) as (o2 & h4 & o4 & U & L2 & O & -> & ->).
    rewrite Ee, (next_state_emergency_done _ _ _ D) in O.
    rewrite operateMrm_done in O by exact D. inv_returned.
    split; [reflexivity|]. split; [reflexivity|].
    rewrite !requests_app, (requests_logs _ (stale_log_is_log _)), (requests_logs _ L2).
    reflexivity.
Qed.
Lemma arbitration_rules_apply_in_mrm_operating_only_witness :
  (exists o, operateMrm sample_env operating_comfortable_moving =
               Returned tt (with_behavior MrmState.EMERGENCY_STOP operating_comfortable_moving) o /\
             requests o = [send_request client_mrm_comfortable_stop_ false;
                           send_request client_mrm_emergency_stop_ true]) /\
  operateMrm sample_env succeeded_comfortable = Returned tt succeeded_comfortable [] /\
  exists h' out, onTimer sample_env succeeded_comfortable = Returned tt h' out /\
    state_of h' = state_of succeeded_comfortable /\
    behavior_of h' = behavior_of succeeded_comfortable /\ requests out = [].
Proof.
  destruct arbitration_rules_apply_in_mrm_operating_only as (W1 & W2 & W3).
  split; [|split].
  - exact (W1 sample_env operating_comfortable_moving
             (mkHazardStatus HazardStatus.SINGLE_POINT_FAULT true false) eq_refl eq_refl).
  - apply W2. left. reflexivity.
  - apply (W3 sample_env succeeded_comfortable
             (mkHazardStatus HazardStatus.SINGLE_POINT_FAULT true false)).
    + reflexivity.
    + reflexivity.
    + left. reflexivity.
    + reflexivity.
Defined.

(** ** The order of the steps of a tick *)

(** C4, as stated, fails: the tick publishes the hazard-light and gear
    commands before the arbitration step sends its request, not after. *)
Lemma commands_are_published_before_arbitration :
  data_ready normal_with_fault = true /\
  onTimer sample_env normal_with_fault =
    Returned tt
      (set_mrm_state_ (mkMrmState 103000000 MrmState.MRM_OPERATING MrmState.EMERGENCY_STOP)
         normal_with_fault)
      [pub_hazard_cmd HazardLightsCommand.ENABLE;
       pub_gear_cmd 100001000 GearCommand.DRIVE;
       send_request client_mrm_emergency_stop_ true;
       log WARN "Emergency stop is operated";
       pub_mrm_state (mkMrmState 103000000 MrmState.MRM_OPERATING MrmState.EMERGENCY_STOP)] /\
  onTimer_as_specified sample_env normal_with_fault =
    Returned tt
      (set_mrm_state_ (mkMrmState 103000000 MrmState.MRM_OPERATING MrmState.EMERGENCY_STOP)
         normal_with_fault)
      [send_request client_mrm_emergency_stop_ true;
       log WARN "Emergency stop is operated";
       pub_hazard_cmd HazardLightsCommand.ENABLE;
       pub_gear_cmd 100001000 GearCommand.DRIVE;
       pub_mrm_state (mkMrmState 103000000 MrmState.MRM_OPERATING MrmState.EMERGENCY_STOP)] /\
  onTimer sample_env normal_with_fault <> onTimer_as_specified sample_env normal_with_fault.
Proof.
  repeat split; try reflexivity. discriminate.
Qed.

Lemma transitionTo_outcome st env h :
  (exists o, transitionTo st env h = Returned tt (with_state st h) o /\
             forallb is_log o = true) \/
  (exists e, transitionTo st env h = Thrown e []).
Proof.
  unfold transitionTo, state2string. cbv [bind asks gets ret emit modify throw prepend app].
  destruct (debug_enabled env); [|left; eexists; split; reflexivity].
  repeat match goal with
  | |- context [if ?c then _ else _] => destruct c
  end; first [left; eexists; split; reflexivity | right; eexists; reflexivity].
Qed.

(** With a fault report at hand the state machine returns or throws; what it
    emitted before a throw is nothing. *)
Lemma updateMrmState_outcome env h hs :
  hazard_status_stamped_ h = Some hs ->
  (exists o,
     updateMrmState env h =
       Returned tt
         (with_state
            (next_state (control_mode_ h =? ControlModeReport.AUTONOMOUS)
               (is_emergency_of hs (is_hazard_status_timeout_ h)) (stopped h)
               (state (mrm_state_ h))) h) o /\
     forallb is_log o = true) \/
  (exists e, updateMrmState env h = Thrown e []).
Proof.
  intros E.
  destruct (updateMrmState env h) as [[] h' o | e o |o] eqn:U.
  - left. exists o. destruct (updateMrmState_post env h hs h' o E U) as [-> L]. auto.
  - right. exists e. f_equal.
    revert U. unfold updateMrmState.
    rewrite (bind_Returned _ _ _ _ _ _ _ (isEmergency_spec env h hs E)).
    cbv [bind gets ret throw]. rewrite !prepend_nil.
    destruct (state (mrm_state_ h) =? MrmState.NORMAL);
      [| destruct (state (mrm_state_ h) =? MrmState.MRM_OPERATING);
         [| destruct (state (mrm_state_ h) =? MrmState.MRM_SUCCEEDED);
            [| destruct (state (mrm_state_ h) =? MrmState.MRM_FAILED)]]];
      destruct (control_mode_ h =? ControlModeReport.AUTONOMOUS),
               (is_emergency_of hs (is_hazard_status_timeout_ h));
      cbn [andb negb]; rewrite ?isStopped_spec;
      try destruct (stopped h); cbn [andb negb prepend app]; rewrite ?prepend_nil;
      intros H; try discriminate H;
      try (inversion H; reflexivity);
      match type of H with
      | transitionTo ?st _ _ = _ =>
          destruct (transitionTo_outcome st env h) as [(o' & T & _) | (e' & T)];
          rewrite T in H; [discriminate H | inversion H; reflexivity]
      end.
  - exfalso. revert U. unfold updateMrmState.
    rewrite (bind_Returned _ _ _ _ _ _ _ (isEmergency_spec env h hs E)).
    cbv [bind gets ret throw]. rewrite !prepend_nil.
    destruct (state (mrm_state_ h) =? MrmState.NORMAL);
      [| destruct (state (mrm_state_ h) =? MrmState.MRM_OPERATING);
         [| destruct (state (mrm_state_ h) =? MrmState.MRM_SUCCEEDED);
            [| destruct (state (mrm_state_ h) =? MrmState.MRM_FAILED)]]];
      destruct (control_mode_ h =? ControlModeReport.AUTONOMOUS),
               (is_emergency_of hs (is_hazard_status_timeout_ h));
      cbn [andb negb]; rewrite ?isStopped_spec;
      try destruct (stopped h); cbn [andb negb prepend app]; rewrite ?prepend_nil;
      intros H; try discriminate H;
      match type of H with
      | transitionTo ?st _ _ = _ =>
          destruct (transitionTo_outcome st env h) as [(o' & T & _) | (e' & T)];
          rewrite T in H; discriminate H
      end.
Qed.

(** C4, amended. A tick that passes the gate runs its steps in this order,
    each on the handler the one before left: staleness, state machine,
    publication of the hazard-light and gear commands, arbitration (with its
    invoker calls), publication of the MRM state.  In the trace the two
    commands come after the logs of the first two steps and before
    everything the arbitration step emits, and the MRM state comes last.
    The only way out of the sequence is the exception of the state machine,
    in the second step, before anything is published; in a declared state
    there is none. *)
Theorem tick_steps_run_in_order (env : Env) (h : EmergencyHandler) :
  data_ready h = true ->
  exists h1 o1,
    checkHazardStatusTimeout env h = Returned tt h1 o1 /\
    ((exists e, updateMrmState env h1 = Thrown e [] /\
                onTimer env h = Thrown e o1 /\ forallb is_log o1 = true /\
                ~ declared_state (state_of h)) \/
     (exists h2 o2 cmds h4 arb h' out,
        updateMrmState env h1 = Returned tt h2 o2 /\
        publishControlCommands env h2 = Returned tt h2 cmds /\
        operateMrm env h2 = Returned tt h4 arb /\
        publishMrmState env h4 = Returned tt h' [pub_mrm_state (mrm_state_ h')] /\
        onTimer env h = Returned tt h' out /\
        out = (o1 ++ o2) ++ cmds ++ arb ++ [pub_mrm_state (mrm_state_ h')] /\
        forallb is_log (o1 ++ o2) = true /\
        (exists hazard gear,
           cmds = [pub_hazard_cmd hazard; pub_gear_cmd (now_commands env) gear]) /\
        forallb is_invoker arb = true)).
Proof.
  intros Er. destruct (data_ready_hazard h Er) as [hs Eh].
  eexists _, _. split; [apply checkHazardStatusTimeout_spec|].
  set (h1 := set_is_hazard_status_timeout_ (stale_at (now env) h) h).
  fold (stale_log (stale_at (now env) h)).
  assert (T : onTimer env h =
              prepend (stale_log (stale_at (now env) h))
                ((updateMrmState ;; publishControlCommands ;; operateMrm ;;
                  publishMrmState) env h1)).
  { destruct (isDataReady_spec env h) as (o & R & L & _). rewrite (L Er) in R.
    unfold onTimer. rewrite (bind_Returned _ _ _ _ _ _ _ R), Er.
    cbn [negb]. rewrite prepend_nil.
    now rewrite (bind_Returned _ _ _ _ _ _ _ (checkHazardStatusTimeout_spec env h)). }
  destruct (updateMrmState_outcome env h1 hs Eh) as [(o2 & U & L2) | (e & U)].
  - right. set (h2 := with_state _ h1) in U.
    assert (Eh2 : hazard_status_stamped_ h2 = Some hs) by exact Eh.
    destruct (operateMrm_returns env h2 hs Eh2) as (h4 & o4 & O).
    destruct (operateMrm_post _ _ _ _ O) as (b' & _ & L4 & _).
    exists h2, o2, [pub_hazard_cmd (hazard_command hs h2);
                    pub_gear_cmd (now_commands env) (gear_command h2)], h4, o4.
    eexists _, _.
    split; [exact U|].
    split; [apply (publishControlCommands_spec env h2 hs Eh2)|].
    split; [exact O|].
    split; [apply publishMrmState_spec|].
    split.
    { rewrite T, (bind_Returned _ _ _ _ _ _ _ U),
        (bind_Returned _ _ _ _ _ _ _ (publishControlCommands_spec env h2 hs Eh2)),
        (bind_Returned _ _ _ _ _ _ _ O), publishMrmState_spec.
      cbn [prepend]. reflexivity. }
    split; [rewrite <- !app_assoc; reflexivity|].
    split; [rewrite forallb_app, L2, stale_log_is_log; reflexivity|].
    split; [eauto | exact L4].
  - left. exists e. split; [exact U|].
    split; [rewrite T; unfold bind at 1; rewrite U; cbn [prepend];
            rewrite app_nil_r; reflexivity|].
    split; [apply stale_log_is_log|].
    intros D. destruct (updateMrmState_returns env h1 hs Eh D) as (o & U' & _).
    rewrite U' in U. discriminate U.
Qed.

Lemma tick_steps_run_in_order_witness :
  data_ready normal_with_fault = true /\
  exists h1 o1,
    checkHazardStatusTimeout sample_env normal_with_fault = Returned tt h1 o1 /\
    ((exists e, updateMrmState sample_env h1 = Thrown e [] /\
                onTimer sample_env normal_with_fault = Thrown e o1 /\
                forallb is_log o1 = true /\
                ~ declared_state (state_of normal_with_fault)) \/
     (exists h2 o2 cmds h4 arb h' out,
        updateMrmState sample_env h1 = Returned tt h2 o2 /\
        publishControlCommands sample_env h2 = Returned tt h2 cmds /\
        operateMrm sample_env h2 = Returned tt h4 arb /\
        publishMrmState sample_env h4 = Returned tt h' [pub_mrm_state (mrm_state_ h')] /\
        onTimer sample_env normal_with_fault = Returned tt h' out /\
        out = (o1 ++ o2) ++ cmds ++ arb ++ [pub_mrm_state (mrm_state_ h')] /\
        forallb is_log (o1 ++ o2) = true /\
        (exists hazard gear,
           cmds = [pub_hazard_cmd hazard; pub_gear_cmd (now_commands sample_env) gear]) /\
        forallb is_invoker arb = true)).
Proof.
  split; [reflexivity|].
  apply (tick_steps_run_in_order sample_env normal_with_fault).
  reflexivity.
Defined.

(** ** Values outside the enumerations *)

(** C5, as stated, fails: a tick that finds the behavior 7 logs a warning,
    overwrites it with NONE and goes on to publish; a tick that finds the
    state 9 without an emergency replaces it by NORMAL without a word (DEBUG
    logging off); and the arbitration step alone, on the state 9, logs a
    warning and returns. *)
Lemma invalid_values_are_logged_or_ignored :
  ~ declared_behavior (behavior_of normal_with_behavior_7) /\
  onTimer sample_env normal_with_behavior_7 =
    Returned tt
      (set_mrm_state_ (mkMrmState 103000000 MrmState.NORMAL MrmState.NONE)
         normal_with_behavior_7)
      [pub_hazard_cmd HazardLightsCommand.NO_COMMAND;
       pub_gear_cmd 100001000 GearCommand.DRIVE;
       log WARN "invalid MRM behavior: 7";
       pub_mrm_state (mkMrmState 103000000 MrmState.NORMAL MrmState.NONE)] /\
  ~ declared_state (state_of state_9) /\
  onTimer sample_env state_9 =
    Returned tt
      (set_mrm_state_ (mkMrmState 103000000 MrmState.NORMAL MrmState.NONE) state_9)
      [pub_hazard_cmd HazardLightsCommand.NO_COMMAND;
       pub_gear_cmd 100001000 GearCommand.DRIVE;
       pub_mrm_state (mkMrmState 103000000 MrmState.NORMAL MrmState.NONE)] /\
  operateMrm sample_env state_9 = Returned tt state_9 [log WARN "invalid MRM state: 9"].
Proof.
  assert (N7 : ~ declared_behavior 7) by (intros [H | [H | H]]; discriminate H).
  assert (N9 : ~ declared_state 9) by (intros [H | [H | [H | H]]]; discriminate H).
  repeat split; try reflexivity; assumption.
Qed.

Lemma invalid_behavior_tests b :
  ~ declared_behavior b ->
  (b =? MrmState.NONE) = false /\ (b =? MrmState.COMFORTABLE_STOP) = false /\
  (b =? MrmState.EMERGENCY_STOP) = false.
Proof.
  unfold declared_behavior. intros N.
  repeat split; apply Z.eqb_neq; tauto.
Qed.

Lemma invalid_state_tests st :
  ~ declared_state st ->
  (st =? MrmState.NORMAL) = false /\ (st =? MrmState.MRM_OPERATING) = false /\
  (st =? MrmState.MRM_SUCCEEDED) = false /\ (st =? MrmState.MRM_FAILED) = false.
Proof.
  unfold declared_state. intros N.
  repeat split; apply Z.eqb_neq; tauto.
Qed.

(** C5, amended. An undeclared state is fatal in the state machine only: with
    an emergency present [updateMrmState] throws, and [transitionTo] throws
    from its state-to-text conversion when DEBUG logging is enabled.
    Everything else goes on: without an emergency and with DEBUG logging off
    [updateMrmState] replaces the undeclared state by NORMAL; [operateMrm]
    logs a warning and returns; [cancelMrmBehavior] and [callMrmBehavior]
    log a warning for an undeclared behavior, send nothing and return; and
    [getCurrentMrmBehavior] hands an undeclared behavior back unchanged. *)
Theorem invalid_values_are_fatal_in_the_state_machine_only :
  (forall env h hs,
     hazard_status_stamped_ h = Some hs ->
     ~ declared_state (state_of h) ->
     is_emergency_of hs (is_hazard_status_timeout_ h) = true ->
     updateMrmState env h =
       Thrown (runtime_error (String.append "invalid state: " (to_string (state_of h)))) []) /\
  (forall env h st,
     ~ declared_state (state_of h) ->
     debug_enabled env = true ->
     transitionTo st env h =
       Thrown (runtime_error (String.append "invalid state: " (to_string (state_of h)))) []) /\
  (forall env h hs,
     hazard_status_stamped_ h = Some hs ->
     ~ declared_state (state_of h) ->
     is_emergency_of hs (is_hazard_status_timeout_ h) = false ->
     debug_enabled env = false ->
     updateMrmState env h = Returned tt (with_state MrmState.NORMAL h) []) /\
  (forall env h,
     ~ declared_state (state_of h) ->
     operateMrm env h =
       Returned tt h [log WARN (String.append "invalid MRM state: " (to_string (state_of h)))]) /\
  (forall env h b,
     ~ declared_behavior b ->
     cancelMrmBehavior b env h =
       Returned tt h [log WARN (String.append "invalid MRM behavior: " (to_string b))] /\
     callMrmBehavior b env h =
       Returned tt h [log WARN (String.append "invalid MRM behavior: " (to_string b))]) /\
  (forall env h hs,
     hazard_status_stamped_ h = Some hs ->
     ~ declared_behavior (behavior_of h) ->
     getCurrentMrmBehavior env h = Returned (behavior_of h) h []).
Proof.
  unfold state_of, behavior_of. repeat split.
  - intros env h hs Eh N Ee. destruct (invalid_state_tests _ N) as (T1 & T2 & T3 & T4).
    unfold updateMrmState. rewrite (bind_Returned _ _ _ _ _ _ _ (isEmergency_spec env h hs Eh)).
    cbv [bind gets prepend]. rewrite Ee, T1, T2, T3, T4. reflexivity.
  - intros env h st N Ed. destruct (invalid_state_tests _ N) as (T1 & T2 & T3 & T4).
    unfold transitionTo, state2string. cbv [bind gets asks prepend].
    rewrite Ed, T1, T2, T3, T4. reflexivity.
  - intros env h hs Eh N Ee Ed. destruct (invalid_state_tests _ N) as (T1 & T2 & T3 & T4).
    unfold updateMrmState. rewrite (bind_Returned _ _ _ _ _ _ _ (isEmergency_spec env h hs Eh)).
    cbv [bind gets prepend]. rewrite Ee, T1. cbn [negb app].
    rewrite (transitionTo_quiet _ _ _ Ed). reflexivity.
  - intros env h N. now apply operateMrm_invalid.
  - destruct (invalid_behavior_tests _ H) as (T1 & T2 & T3).
    unfold cancelMrmBehavior. rewrite T1, T2, T3. reflexivity.
  - destruct (invalid_behavior_tests _ H) as (T1 & T2 & T3).
    unfold callMrmBehavior. rewrite T1, T2, T3. reflexivity.
  - intros env h hs Eh N. destruct (invalid_behavior_tests _ N) as (T1 & T2 & T3).
    rewrite (getCurrentMrmBehavior_spec env h hs Eh). unfold selected_behavior.
    rewrite T1, T2. reflexivity.
Qed.
Lemma invalid_values_are_fatal_in_the_state_machine_only_witness :
  ~ declared_state (state_of state_9) /\
  updateMrmState late_env (set_is_hazard_status_timeout_ true state_9) =
    Thrown (runtime_error "invalid state: 9") [] /\
  operateMrm sample_env state_9 = Returned tt state_9 [log WARN "invalid MRM state: 9"] /\
  cancelMrmBehavior 7 sample_env state_9 =
    Returned tt state_9 [log WARN "invalid MRM behavior: 7"].
Proof.
  assert (N9 : ~ declared_state 9) by (intros [H | [H | [H | H]]]; discriminate H).
  assert (N7 : ~ declared_behavior 7) by (intros [H | [H | H]]; discriminate H).
  destruct invalid_values_are_fatal_in_the_state_machine_only as (W1 & W2 & W3 & W4 & W5 & W6).
  split; [exact N9|]. split; [|split].
  - exact (W1 late_env (set_is_hazard_status_timeout_ true state_9)
             (mkHazardStatus HazardStatus.NO_FAULT false false) eq_refl N9 eq_refl).
  - exact (W4 sample_env state_9 N9).
  - exact (proj1 (W5 sample_env state_9 7 N7)).
Defined.

(** ** The readiness gate *)

Section Gate.

(** A reason why the gate is closed, and the deliveries that cannot remove
    that reason. *)
Variable blocked : EmergencyHandler -> Prop.
Variable harmless : Input -> bool.

Hypothesis blocked_not_ready : forall h, blocked h -> data_ready h = false.
Hypothesis harmless_keeps_blocked : forall i h,
  harmless i = true -> blocked h ->
  match i with
  | Timer _ => True
  | _ => forall h' out, deliver i h = Returned tt h' out -> blocked h'
  end.

Lemma blocked_deliver i h :
  harmless i = true -> blocked h ->
  exists h' out, deliver i h = Returned tt h' out /\ blocked h' /\
    mrm_state_ h' = mrm_state_ h /\ forallb is_log out = true.
Proof.
  intros Hi B. pose proof (harmless_keeps_blocked i h Hi B) as K.
  destruct i; simpl in *;
    try (eexists _, _; split; [reflexivity|]; split; [eapply K; reflexivity|];
         split; reflexivity).
  destruct (onTimer_skip env h (blocked_not_ready h B)) as [text E].
  exists h, [log_throttle INFO 5000 text]. repeat split; auto.
Qed.

Lemma blocked_run inputs : forall h,
  forallb harmless inputs = true -> blocked h ->
  exists h' out, run h inputs = Returned tt h' out /\ blocked h' /\
    mrm_state_ h' = mrm_state_ h /\ forallb is_log out = true.
Proof.
  induction inputs as [|i rest IH]; simpl; intros h Hq B.
  - exists h, []. repeat split; auto.
  - apply andb_prop in Hq. destruct Hq as [Hi Hrest].
    destruct (blocked_deliver i h Hi B) as (h1 & o1 & D & B1 & M1 & L1).
    destruct (IH h1 Hrest B1) as (h2 & o2 & R & B2 & M2 & L2).
    rewrite D, R. simpl. exists h2, (o1 ++ o2).
    repeat split; auto; [congruence | rewrite forallb_app, L1, L2; reflexivity].
Qed.

End Gate.

Lemma existsb_false_forallb {A} (f : A -> bool) (l : list A) :
  existsb f l = false -> forallb (fun x => negb (f x)) l = true.
Proof.
  induction l as [|x l IH]; simpl; [reflexivity|].
  intros H. apply orb_false_elim in H. destruct H as [-> H]. simpl. auto.
Qed.

Lemma publications_logs o : forallb is_log o = true -> publications o = [].
Proof.
  induction o as [|e o IH]; [reflexivity|]. simpl. intros H.
  apply andb_prop in H. destruct H as [He Ho].
  destruct e; try discriminate He; simpl; auto.
Qed.

Lemma run_before_first_report p t inputs :
  existsb is_hazard_report inputs = false ->
  exists h out, run (EmergencyHandler_new p t) inputs = Returned tt h out /\
    data_ready h = false /\ mrm_state_ h = mrm_state_ (EmergencyHandler_new p t) /\
    forallb is_log out = true.
Proof.
  intros H. apply existsb_false_forallb in H.
  set (blocked := fun h => hazard_status_stamped_ h = None).
  assert (NR : forall h, blocked h -> data_ready h = false).
  { intros h B. unfold data_ready. now rewrite B. }
  assert (K : forall i h, negb (is_hazard_report i) = true -> blocked h ->
              match i with
              | Timer _ => True
              | _ => forall h' out, deliver i h = Returned tt h' out -> blocked h'
              end).
  { intros i h Hi B. destruct i; try exact I; try discriminate Hi;
      simpl; intros h' out E; inv_returned; exact B. }
  destruct (blocked_run blocked _ NR K inputs (EmergencyHandler_new p t) H eq_refl)
    as (h & out & R & B & M & L).
  exists h, out. auto.
Qed.

Lemma run_before_emergency_stop_available p t inputs :
  existsb shows_emergency_stop_available inputs = false ->
  exists h out, run (EmergencyHandler_new p t) inputs = Returned tt h out /\
    data_ready h = false /\ mrm_state_ h = mrm_state_ (EmergencyHandler_new p t) /\
    forallb is_log out = true.
Proof.
  intros H. apply existsb_false_forallb in H.
  set (blocked := fun h => mrm_emergency_stop_status_ h = MrmBehaviorStatus.NOT_AVAILABLE).
  assert (NR : forall h, blocked h -> data_ready h = false).
  { intros h B. unfold data_ready. rewrite B.
    destruct (hazard_status_stamped_ h); [|reflexivity].
    rewrite Z.eqb_refl. apply andb_false_r. }
  assert (K : forall i h, negb (shows_emergency_stop_available i) = true -> blocked h ->
              match i with
              | Timer _ => True
              | _ => forall h' out, deliver i h = Returned tt h' out -> blocked h'
              end).
  { intros i h Hi B. destruct i; try exact I;
      simpl; intros h' out E; inv_returned; try exact B.
    simpl in Hi. rewrite negb_involutive in Hi. unfold blocked. simpl. now apply Z.eqb_eq. }
  destruct (blocked_run blocked _ NR K inputs (EmergencyHandler_new p t) H eq_refl)
    as (h & out & R & B & M & L).
  exists h, out. auto.
Qed.

Lemma run_before_comfortable_stop_available p t inputs :
  use_comfortable_stop p = true ->
  existsb shows_comfortable_stop_available inputs = false ->
  exists h out, run (EmergencyHandler_new p t) inputs = Returned tt h out /\
    data_ready h = false /\ mrm_state_ h = mrm_state_ (EmergencyHandler_new p t) /\
    forallb is_log out = true.
Proof.
  intros Hp H. apply existsb_false_forallb in H.
  set (blocked := fun h => use_comfortable_stop (param_ h) = true /\
                  mrm_comfortable_stop_status_ h = MrmBehaviorStatus.NOT_AVAILABLE).
  assert (NR : forall h, blocked h -> data_ready h = false).
  { intros h [Bp B]. unfold data_ready. rewrite Bp, B.
    destruct (hazard_status_stamped_ h); reflexivity. }
  assert (K : forall i h, negb (shows_comfortable_stop_available i) = true -> blocked h ->
              match i with
              | Timer _ => True
              | _ => forall h' out, deliver i h = Returned tt h' out -> blocked h'
              end).
  { intros i h Hi B. destruct i; try exact I;
      simpl; intros h' out E; inv_returned; try exact B.
    simpl in Hi. rewrite negb_involutive in Hi.
    split; [apply B | simpl; now apply Z.eqb_eq]. }
  destruct (blocked_run blocked _ NR K inputs (EmergencyHandler_new p t) H
              (conj Hp eq_refl)) as (h & out & R & B & M & L).
  exists h, out. auto.
Qed.

(** C6. Until the node has received a fault report, has seen the
    emergency-stop controller report something other than NOT_AVAILABLE and,
    when comfortable stop is enabled, has seen the same of that controller,
    every delivery returns, the run has published nothing and sent no
    request, the MRM state is the constructed one, and the next tick is
    skipped: it returns the handler as it found it and emits one throttled
    log line. *)
Theorem ticks_before_readiness_are_skipped (p : Param) (t : Z) (inputs : list Input) :
  prerequisites_observed p inputs = false ->
  exists h out,
    run (EmergencyHandler_new p t) inputs = Returned tt h out /\
    publications out = [] /\ requests out = [] /\
    mrm_state_ h = mkMrmState t MrmState.NORMAL MrmState.NONE /\
    forall env, exists text,
      onTimer env h = Returned tt h [log_throttle INFO 5000 text].
Proof.
  unfold prerequisites_observed. intros H.
  assert (exists h out, run (EmergencyHandler_new p t) inputs = Returned tt h out /\
            data_ready h = false /\ mrm_state_ h = mrm_state_ (EmergencyHandler_new p t) /\
            forallb is_log out = true) as (h & out & R & Er & M & L).
  { destruct (existsb is_hazard_report inputs) eqn:E1;
      [|now apply run_before_first_report].
    destruct (existsb shows_emergency_stop_available inputs) eqn:E2;
      [|now apply run_before_emergency_stop_available].
    destruct (use_comfortable_stop p) eqn:E3; [|discriminate H].
    destruct (existsb shows_comfortable_stop_available inputs) eqn:E4; [discriminate H|].
    now apply run_before_comfortable_stop_available. }
  exists h, out. split; [exact R|].
  split; [now apply publications_logs|]. split; [now apply requests_logs|].
  split; [exact M|]. intros env. now apply onTimer_skip.
Qed.
Lemma ticks_before_readiness_are_skipped_witness :
  prerequisites_observed sample_param inputs_without_emergency_stop = false /\
  exists h out,
    run (EmergencyHandler_new sample_param 0) inputs_without_emergency_stop
      = Returned tt h out /\
    publications out = [] /\ requests out = [] /\
    mrm_state_ h = mkMrmState 0 MrmState.NORMAL MrmState.NONE /\
    forall env, exists text,
      onTimer env h = Returned tt h [log_throttle INFO 5000 text].
Proof.
  split; [reflexivity|].
  apply (ticks_before_readiness_are_skipped sample_param 0 inputs_without_emergency_stop).
  reflexivity.
Defined.

(** ** Comparisons of rationals *)

Lemma Qltb_lt (a b : Q) : Qltb a b = true <-> (a < b)%Q.
Proof.
  unfold Qltb. rewrite negb_true_iff. split.
  - intros H. apply Qnot_le_lt. intros L. apply Qle_bool_iff in L. congruence.
  - intros H. destruct (Qle_bool b a) eqn:E; [|reflexivity].
    apply Qle_bool_iff in E. exfalso. exact (Qlt_not_le _ _ H E).
Qed.

(** ** A silent fault reporter *)

Lemma selected_behavior_single_point_fault use_cs b :
  declared_behavior b ->
  selected_behavior use_cs HazardStatus.SINGLE_POINT_FAULT b = MrmState.EMERGENCY_STOP.
Proof. intros [-> | [-> | ->]]; reflexivity. Qed.



(** ** Arbitration is idempotent *)

Lemma operateMrm_twice env env' h h1 o1 :
  operateMrm env h = Returned tt h1 o1 ->
  exists o2, operateMrm env' h1 = Returned tt h1 o2 /\ requests o2 = [].
Proof.
  intros H.
  destruct (Z.eq_dec (state (mrm_state_ h)) MrmState.NORMAL) as [E | N1].
  { destruct (operateMrm_normal env h E) as (o' & E' & _). rewrite E' in H. inv_returned.
    destruct (operateMrm_normal env' (with_behavior MrmState.NONE h) E) as (o2 & E2 & _ & R2).
    exists o2. split; [exact E2 | exact R2]. }
  destruct (Z.eq_dec (state (mrm_state_ h)) MrmState.MRM_OPERATING) as [E | N2].
  { destruct (hazard_status_stamped_ h) as [hs|] eqn:Eh.
    2:{ destruct (operateMrm_post _ _ _ _ H) as (b' & -> & _).
        unfold operateMrm in H. cbv [bind gets prepend] in H. rewrite E in H.
        cbn [Z.eqb Pos.eqb MrmState.NORMAL MrmState.MRM_OPERATING] in H.
        unfold getCurrentMrmBehavior in H. cbv [bind hazard_status] in H.
        rewrite Eh in H. discriminate H. }
    destruct (operateMrm_operating env h hs E Eh) as (o' & E' & _). rewrite E' in H.
    inv_returned.
    set (b' := selected_behavior _ _ _).
    destruct (operateMrm_operating env' (with_behavior b' h) hs E Eh) as (o2 & E2 & _ & R2).
    change (behavior (mrm_state_ (with_behavior b' h))) with b' in *.
    change (param_ (with_behavior b' h)) with (param_ h) in *.
    change (is_hazard_status_timeout_ (with_behavior b' h))
      with (is_hazard_status_timeout_ h) in *.
    unfold b' in E2, R2 at 1 2. rewrite selected_behavior_idem in E2, R2. fold b' in E2, R2.
    rewrite Z.eqb_refl in R2. exists o2. split; [exact E2 | exact R2]. }
  destruct (operateMrm_post _ _ _ _ H) as (b' & _ & _ & _ & _ & _).
  destruct (Z.eq_dec (state (mrm_state_ h)) MrmState.MRM_SUCCEEDED) as [E | N3].
  { rewrite operateMrm_done in H by auto. inv_returned.
    exists []. split; [apply operateMrm_done; auto | reflexivity]. }
  destruct (Z.eq_dec (state (mrm_state_ h)) MrmState.MRM_FAILED) as [E | N4].
  { rewrite operateMrm_done in H by auto. inv_returned.
    exists []. split; [apply operateMrm_done; auto | reflexivity]. }
  rewrite operateMrm_invalid in H by (unfold declared_state; tauto). inv_returned.
  eexists. split; [apply operateMrm_invalid; unfold declared_state; tauto | reflexivity].
Qed.

(** C8. Whatever the arbitration step did, running it again on the handler
    it left (the report, the staleness flag and the configuration are the
    same) returns that handler unchanged and sends no request, whatever the
    controllers would answer.  And when the behavior the arbitrator computes
    is the committed one, the step returns the handler unchanged with no
    event at all; so does the step in NORMAL with the behavior NONE. *)
Theorem arbitration_is_idempotent :
  (forall env env' h h1 o1,
     operateMrm env h = Returned tt h1 o1 ->
     exists o2, operateMrm env' h1 = Returned tt h1 o2 /\ requests o2 = []) /\
  (forall env h,
     state_of h = MrmState.MRM_OPERATING ->
     getCurrentMrmBehavior env h = Returned (behavior_of h) h [] ->
     operateMrm env h = Returned tt h []) /\
  (forall env h,
     state_of h = MrmState.NORMAL ->
     behavior_of h = MrmState.NONE ->
     operateMrm env h = Returned tt h []).
Proof.
  unfold state_of, behavior_of. split; [exact operateMrm_twice|]. split.
  - intros env h E G. unfold operateMrm. cbv [bind gets prepend]. rewrite E.
    cbn [Z.eqb Pos.eqb MrmState.NORMAL MrmState.MRM_OPERATING].
    rewrite G, Z.eqb_refl. reflexivity.
  - intros env h E B. unfold operateMrm. cbv [bind gets prepend]. rewrite E, B. reflexivity.
Qed.
Lemma arbitration_is_idempotent_witness :
  (exists o2,
     operateMrm late_env (with_behavior MrmState.EMERGENCY_STOP operating_comfortable_moving)
       = Returned tt (with_behavior MrmState.EMERGENCY_STOP operating_comfortable_moving) o2 /\
     requests o2 = []) /\
  operateMrm sample_env operating_emergency_moving = Returned tt operating_emergency_moving [].
Proof.
  destruct arbitration_is_idempotent as (W1 & W2 & W3).
  split.
  - apply (W1 sample_env late_env operating_comfortable_moving
             (with_behavior MrmState.EMERGENCY_STOP operating_comfortable_moving)
             [send_request client_mrm_comfortable_stop_ false;
              log WARN "Comfortable stop is canceled";
              send_request client_mrm_emergency_stop_ true;
              log WARN "Emergency stop is operated"]).
    reflexivity.
  - apply (W2 sample_env operating_emergency_moving).
    + reflexivity.
    + reflexivity.
Defined.

(** ** Escalation from comfortable stop to emergency stop *)

(** C9, as stated, fails: a tick that starts in MRM_OPERATING with
    COMFORTABLE_STOP and a single point fault, with the vehicle at rest,
    moves to MRM_SUCCEEDED first; the arbitration step then does nothing, no
    cancel and no call is sent and the behavior stays COMFORTABLE_STOP. *)
Lemma escalation_is_skipped_when_stopped :
  data_ready operating_comfortable_at_rest = true /\
  state_of operating_comfortable_at_rest = MrmState.MRM_OPERATING /\
  behavior_of operating_comfortable_at_rest = MrmState.COMFORTABLE_STOP /\
  effective_level (mkHazardStatus HazardStatus.SINGLE_POINT_FAULT true false)
    (stale_at (now sample_env) operating_comfortable_at_rest)
    = HazardStatus.SINGLE_POINT_FAULT /\
  onTimer sample_env operating_comfortable_at_rest =
    Returned tt
      (set_mrm_state_ (mkMrmState 103000000 MrmState.MRM_SUCCEEDED MrmState.COMFORTABLE_STOP)
         operating_comfortable_at_rest)
      [pub_hazard_cmd HazardLightsCommand.ENABLE;
       pub_gear_cmd 100001000 GearCommand.PARK;
       pub_mrm_state (mkMrmState 103000000 MrmState.MRM_SUCCEEDED MrmState.COMFORTABLE_STOP)] /\
  requests [pub_hazard_cmd HazardLightsCommand.ENABLE;
            pub_gear_cmd 100001000 GearCommand.PARK;
            pub_mrm_state (mkMrmState 103000000 MrmState.MRM_SUCCEEDED
                             MrmState.COMFORTABLE_STOP)] = [].
Proof. repeat split; reflexivity. Qed.

Lemma operateMrm_escalation env h hs :
  state (mrm_state_ h) = MrmState.MRM_OPERATING ->
  behavior (mrm_state_ h) = MrmState.COMFORTABLE_STOP ->
  hazard_status_stamped_ h = Some hs ->
  effective_level hs (is_hazard_status_timeout_ h) = HazardStatus.SINGLE_POINT_FAULT ->
  operateMrm env h =
    (cancelMrmBehavior MrmState.COMFORTABLE_STOP ;;
     callMrmBehavior MrmState.EMERGENCY_STOP ;;
     commit_behavior MrmState.EMERGENCY_STOP) env h /\
  exists l1 l2, is_log l1 = true /\ is_log l2 = true /\
    operateMrm env h =
      Returned tt (with_behavior MrmState.EMERGENCY_STOP h)
        [send_request client_mrm_comfortable_stop_ false; l1;
         send_request client_mrm_emergency_stop_ true; l2].
Proof.
  intros E B Eh El.
  assert (G : operateMrm env h =
              (cancelMrmBehavior MrmState.COMFORTABLE_STOP ;;
               callMrmBehavior MrmState.EMERGENCY_STOP ;;
               commit_behavior MrmState.EMERGENCY_STOP) env h).
  { unfold operateMrm at 1. cbv [bind gets]. rewrite E.
    cbn [Z.eqb Pos.eqb MrmState.NORMAL MrmState.MRM_OPERATING].
    rewrite (getCurrentMrmBehavior_spec env h hs Eh), El, B.
    change (selected_behavior _ _ _) with MrmState.EMERGENCY_STOP.
    cbn [Z.eqb Pos.eqb negb MrmState.EMERGENCY_STOP MrmState.COMFORTABLE_STOP].
    rewrite !prepend_nil. reflexivity. }
  split; [exact G|]. rewrite G.
  unfold cancelMrmBehavior, callMrmBehavior. cbn [Z.eqb Pos.eqb MrmState.NONE
    MrmState.COMFORTABLE_STOP MrmState.EMERGENCY_STOP].
  cbv [bind request emit asks commit_behavior modify prepend app].
  destruct (response_success env client_mrm_comfortable_stop_ false);
    destruct (response_success env client_mrm_emergency_stop_ true);
    eexists _, _; repeat split; reflexivity.
Qed.

(** C9, amended. In a tick that starts in MRM_OPERATING with
    COMFORTABLE_STOP and an effective level SINGLE_POINT_FAULT, and in which
    the state machine stays in MRM_OPERATING (there is an emergency and the
    vehicle is not stopped), the arbitration step is the cancel of
    COMFORTABLE_STOP, then the call of EMERGENCY_STOP, then the commit of
    EMERGENCY_STOP: the tick sends exactly these two requests in this order,
    each followed by its log line, and publishes the MRM state, with the
    behavior EMERGENCY_STOP, after them. *)
Theorem escalation_cancels_then_calls
  (env : Env) (h : EmergencyHandler) (hs : HazardStatusMsg) :
  data_ready h = true ->
  hazard_status_stamped_ h = Some hs ->
  state_of h = MrmState.MRM_OPERATING ->
  behavior_of h = MrmState.COMFORTABLE_STOP ->
  effective_level hs (stale_at (now env) h) = HazardStatus.SINGLE_POINT_FAULT ->
  is_emergency_of hs (stale_at (now env) h) = true ->
  stopped h = false ->
  exists h2 h' out pre l1 l2,
    operateMrm env h2 =
      (cancelMrmBehavior MrmState.COMFORTABLE_STOP ;;
       callMrmBehavior MrmState.EMERGENCY_STOP ;;
       commit_behavior MrmState.EMERGENCY_STOP) env h2 /\
    h' = with_stamp (now_mrm_state env) (with_behavior MrmState.EMERGENCY_STOP h2) /\
    onTimer env h = Returned tt h' out /\
    out = pre ++ [send_request client_mrm_comfortable_stop_ false; l1;
                  send_request client_mrm_emergency_stop_ true; l2;
                  pub_mrm_state (mrm_state_ h')] /\
    requests pre = [] /\ is_log l1 = true /\ is_log l2 = true /\
    requests out = [send_request client_mrm_comfortable_stop_ false;
                    send_request client_mrm_emergency_stop_ true] /\
    state_of h' = MrmState.MRM_OPERATING /\
    behavior_of h' = MrmState.EMERGENCY_STOP.
Proof.
  unfold state_of, behavior_of. intros Er Eh E B El Ee Es.
  assert (Dd : declared_state (state (mrm_state_ h))) by (right; left; exact E).
  destruct (onTimer_ready_returns env h Er Dd) as (h' & out & H).
  destruct (onTimer_ready_inv env h hs h' out Er Eh H) as (o2 & h4 & o4 & U & L2 & O & -> & ->).
  rewrite Ee, Es, E in *.
  change (next_state _ true false MrmState.MRM_OPERATING) with MrmState.MRM_OPERATING in *.
  set (h2 := with_state MrmState.MRM_OPERATING
               (set_is_hazard_status_timeout_ (stale_at (now env) h) h)) in *.
  destruct (operateMrm_escalation env h2 hs eq_refl B Eh El) as (G & l1 & l2 & I1 & I2 & O').
  rewrite O' in O. inv_returned.
  exists h2, (with_stamp (now_mrm_state env) (with_behavior MrmState.EMERGENCY_STOP h2)).
  eexists. exists (stale_log (stale_at (now env) h) ++ o2 ++
                   [pub_hazard_cmd (hazard_command hs h2);
                    pub_gear_cmd (now_commands env) (gear_command h2)]), l1, l2.
  split; [exact G|]. split; [reflexivity|]. split; [exact H|].
  split; [rewrite <- !app_assoc; reflexivity|].
  assert (Rp : requests (stale_log (stale_at (now env) h) ++ o2 ++
                         [pub_hazard_cmd (hazard_command hs h2);
                          pub_gear_cmd (now_commands env) (gear_command h2)]) = []).
  { rewrite !requests_app, (requests_logs _ (stale_log_is_log _)), (requests_logs _ L2).
    reflexivity. }
  split; [exact Rp|]. split; [exact I1|]. split; [exact I2|].
  split; [|split; reflexivity].
  rewrite !requests_app, (requests_logs _ (stale_log_is_log _)), (requests_logs _ L2).
  destruct l1; try discriminate I1; destruct l2; try discriminate I2; reflexivity.
Qed.
Lemma escalation_cancels_then_calls_witness :
  stopped operating_comfortable_moving = false /\
  exists h2 h' out pre l1 l2,
    operateMrm sample_env h2 =
      (cancelMrmBehavior MrmState.COMFORTABLE_STOP ;;
       callMrmBehavior MrmState.EMERGENCY_STOP ;;
       commit_behavior MrmState.EMERGENCY_STOP) sample_env h2 /\
    h' = with_stamp (now_mrm_state sample_env) (with_behavior MrmState.EMERGENCY_STOP h2) /\
    onTimer sample_env operating_comfortable_moving = Returned tt h' out /\
    out = pre ++ [send_request client_mrm_comfortable_stop_ false; l1;
                  send_request client_mrm_emergency_stop_ true; l2;
                  pub_mrm_state (mrm_state_ h')] /\
    requests pre = [] /\ is_log l1 = true /\ is_log l2 = true /\
    requests out = [send_request client_mrm_comfortable_stop_ false;
                    send_request client_mrm_emergency_stop_ true] /\
    state_of h' = MrmState.MRM_OPERATING /\
    behavior_of h' = MrmState.EMERGENCY_STOP.
Proof.
  split; [reflexivity|].
  apply (escalation_cancels_then_calls sample_env operating_comfortable_moving
           (mkHazardStatus HazardStatus.SINGLE_POINT_FAULT true false)).
  - reflexivity.
  - reflexivity.
  - reflexivity.
  - reflexivity.
  - reflexivity.
  - reflexivity.
  - reflexivity.
Defined.

(** ** Stopped without odometry *)

Lemma deliver_keeps_odom i h h' out :
  is_odometry i = false ->
  deliver i h = Returned tt h' out -> odom_ h' = odom_ h.
Proof.
  destruct i; simpl; intros Hi H; try discriminate Hi; try (inv_returned; reflexivity).
  destruct (data_ready h) eqn:Er.
  - destruct (data_ready_hazard h Er) as [hs Eh].
    destruct (onTimer_ready_inv env h hs h' out Er Eh H) as (o2 & h4 & o4 & U & L2 & O & -> & _).
    destruct (operateMrm_post _ _ _ _ O) as (b' & -> & _). reflexivity.
  - destruct (onTimer_skip env h Er) as [text E]. rewrite E in H. inv_returned. reflexivity.
Qed.

Lemma run_keeps_odom inputs : forall h h' out,
  existsb is_odometry inputs = false ->
  run h inputs = Returned tt h' out -> odom_ h' = odom_ h.
Proof.
  induction inputs as [|i rest IH]; simpl; intros h h' out Hn H.
  - inv_returned. reflexivity.
  - apply orb_false_elim in Hn. destruct Hn as [Hi Hrest].
    destruct (deliver i h) as [[] h1 o1| |] eqn:D; try discriminate H.
    destruct (run h1 rest) as [[] h2 o2| |] eqn:R; try discriminate H.
    simpl in H. inv_returned.
    rewrite (IH h1 h' o2 Hrest R). exact (deliver_keeps_odom i h h1 o1 Hi D).
Qed.

Lemma onTimer_ready_eval env h hs :
  data_ready h = true ->
  hazard_status_stamped_ h = Some hs ->
  declared_state (state (mrm_state_ h)) ->
  let h1 := set_is_hazard_status_timeout_ (stale_at (now env) h) h in
  let h2 := with_state
              (next_state (control_mode_ h =? ControlModeReport.AUTONOMOUS)
                 (is_emergency_of hs (stale_at (now env) h)) (stopped h)
                 (state (mrm_state_ h))) h1 in
  exists o2 h4 o4,
    operateMrm env h2 = Returned tt h4 o4 /\ forallb is_log o2 = true /\
    onTimer env h =
      Returned tt (with_stamp (now_mrm_state env) h4)
        (stale_log (stale_at (now env) h) ++ o2 ++
         [pub_hazard_cmd (hazard_command hs h2); pub_gear_cmd (now_commands env) (gear_command h2)] ++
         o4 ++ [pub_mrm_state (mrm_state_ (with_stamp (now_mrm_state env) h4))]).
Proof.
  intros Er Eh D h1 h2.
  destruct (onTimer_ready_returns env h Er D) as (h' & out & H).
  destruct (onTimer_ready_inv env h hs h' out Er Eh H) as (o2 & h4 & o4 & U & L2 & O & -> & ->).
  exists o2, h4, o4. auto.
Qed.

Lemma run_without_odometry_result (p : Param) :
  use_parking_after_stopped p = true ->
  exists h out,
    run (EmergencyHandler_new p 0) run_without_odometry = Returned tt h out /\
    state (mrm_state_ h) = MrmState.MRM_SUCCEEDED /\
    In (pub_gear_cmd 100001000 GearCommand.PARK) out /\
    In (pub_mrm_state (mkMrmState 103000000 MrmState.MRM_OPERATING MrmState.EMERGENCY_STOP))
       out.
Proof.
  intros Hp.
  set (hs := mkHazardStatus HazardStatus.SINGLE_POINT_FAULT true false).
  set (hA := mkHandler p (Some hs) 0 (0 # 1) ControlModeReport.AUTONOMOUS
               MrmBehaviorStatus.AVAILABLE MrmBehaviorStatus.AVAILABLE
               (mkMrmState 0 MrmState.NORMAL MrmState.NONE) false).
  assert (RA : forall g, data_ready (set_mrm_state_ g hA) = true).
  { intros g. unfold data_ready. simpl. destruct (use_comfortable_stop p); reflexivity. }
  (* first tick: NORMAL to MRM_OPERATING, EMERGENCY_STOP called, PARK commanded *)
  destruct (onTimer_ready_eval sample_env hA hs (RA (mrm_state_ hA)) eq_refl)
    as (o2 & h4 & o4 & O & L2 & T1); [left; reflexivity|].
  change (next_state _ _ _ _) with MrmState.MRM_OPERATING in O, T1.
  set (hA2 := with_state MrmState.MRM_OPERATING
                (set_is_hazard_status_timeout_ (stale_at (now sample_env) hA) hA)) in *.
  destruct (operateMrm_operating sample_env hA2 hs eq_refl eq_refl) as (o4' & O' & _).
  assert (Eb : selected_behavior (use_comfortable_stop (param_ hA2))
                 (effective_level hs (is_hazard_status_timeout_ hA2))
                 (behavior (mrm_state_ hA2)) = MrmState.EMERGENCY_STOP).
  { unfold effective_level. destruct (is_hazard_status_timeout_ hA2); reflexivity. }
  rewrite Eb in O'. rewrite O' in O. inv_returned. clear O'.
  assert (Eg : gear_command hA2 = GearCommand.PARK).
  { unfold gear_command. simpl. rewrite Hp. reflexivity. }
  rewrite Eg in T1.
  set (hB := with_stamp (now_mrm_state sample_env) (with_behavior MrmState.EMERGENCY_STOP hA2)) in *.
  (* second tick: the vehicle counts as stopped, MRM_OPERATING to MRM_SUCCEEDED *)
  destruct (onTimer_ready_eval sample_env hB hs (RA _) eq_refl)
    as (o2' & h4' & o4'' & O2 & L2' & T2); [right; left; reflexivity|].
  change (next_state _ _ _ _) with MrmState.MRM_SUCCEEDED in O2, T2.
  rewrite operateMrm_done in O2 by (left; reflexivity). inv_returned.
  assert (Eg' : forall g, gear_command (with_state MrmState.MRM_SUCCEEDED
                            (set_is_hazard_status_timeout_ g hB)) = GearCommand.PARK).
  { intros g. unfold gear_command. simpl. rewrite Hp. reflexivity. }
  rewrite Eg' in T2.
  unfold run_without_odometry. cbn [run deliver]. rewrite !prepend_nil.
  match goal with
  | |- context [onTimer sample_env (onControlMode ?m ?g)] =>
      change (onControlMode m g) with hA
  end.
  rewrite T1. cbn [prepend]. rewrite T2.
  cbn [prepend].
  eexists _, _. split; [reflexivity|]. split; [reflexivity|]. split.
  - rewrite !in_app_iff. simpl. auto 20.
  - rewrite !in_app_iff. simpl. auto 20.
Qed.

(** C10. [isStopped] answers true for every velocity below 0.001 m/s, the
    negative ones included; the constructed handler has velocity 0, and a run
    without odometry keeps it, so [isStopped] is true on every handler such a
    run reaches; and such a run can go from MRM_OPERATING to MRM_SUCCEEDED
    with the gear PARK commanded (when parking after stop is configured). *)
Theorem stopped_without_any_odometry :
  (forall env h, (odom_ h < 1 # 1000)%Q -> isStopped env h = Returned true h []) /\
  (forall env h, (odom_ h < 0)%Q -> isStopped env h = Returned true h []) /\
  (forall p t inputs h out env,
     existsb is_odometry inputs = false ->
     run (EmergencyHandler_new p t) inputs = Returned tt h out ->
     isStopped env h = Returned true h []) /\
  (forall p,
     use_parking_after_stopped p = true ->
     existsb is_odometry run_without_odometry = false /\
     exists h out,
       run (EmergencyHandler_new p 0) run_without_odometry = Returned tt h out /\
       state_of h = MrmState.MRM_SUCCEEDED /\
       In (pub_gear_cmd 100001000 GearCommand.PARK) out /\
       In (pub_mrm_state
             (mkMrmState 103000000 MrmState.MRM_OPERATING MrmState.EMERGENCY_STOP)) out).
Proof.
  assert (S : forall env h, (odom_ h < 1 # 1000)%Q -> isStopped env h = Returned true h []).
  { intros env h H. rewrite isStopped_spec. unfold stopped, th_stopped_velocity.
    apply Qltb_lt in H. rewrite H. reflexivity. }
  split; [exact S|]. split; [|split].
  - intros env h H. apply S. apply Qlt_trans with (y := 0%Q); [exact H | reflexivity].
  - intros p t inputs h out env Hn R. apply S.
    rewrite (run_keeps_odom inputs _ _ _ Hn R). reflexivity.
  - intros p Hp. split; [reflexivity|]. now apply run_without_odometry_result.
Qed.
Lemma stopped_without_any_odometry_witness :
  (odom_ reversing < 1 # 1000)%Q /\
  isStopped sample_env reversing = Returned true reversing [] /\
  isStopped sample_env (EmergencyHandler_new sample_param 0)
    = Returned true (EmergencyHandler_new sample_param 0) [] /\
  exists h out,
    run (EmergencyHandler_new sample_param 0) run_without_odometry = Returned tt h out /\
    state_of h = MrmState.MRM_SUCCEEDED /\
    In (pub_gear_cmd 100001000 GearCommand.PARK) out /\
    In (pub_mrm_state
          (mkMrmState 103000000 MrmState.MRM_OPERATING MrmState.EMERGENCY_STOP)) out.
Proof.
  destruct stopped_without_any_odometry as (W1 & W2 & W3 & W4).
  split; [reflexivity|]. split; [|split].
  - apply (W1 sample_env reversing). reflexivity.
  - apply (W3 sample_param 0 [] (EmergencyHandler_new sample_param 0) [] sample_env).
    + reflexivity.
    + reflexivity.
  - apply (W4 sample_param). reflexivity.
Defined.

(** * Further properties of the handler *)

(** ** How a tick can end *)

Lemma onTimer_ready_unfold env h :
  data_ready h = true ->
  onTimer env h =
    prepend (stale_log (stale_at (now env) h))
      ((updateMrmState ;; publishControlCommands ;; operateMrm ;; publishMrmState) env
         (set_is_hazard_status_timeout_ (stale_at (now env) h) h)).
Proof.
  intros Er. destruct (isDataReady_spec env h) as (o & R & L & _). rewrite (L Er) in R.
  unfold onTimer. rewrite (bind_Returned _ _ _ _ _ _ _ R), Er.
  cbn [negb]. rewrite prepend_nil.
  now rewrite (bind_Returned _ _ _ _ _ _ _ (checkHazardStatusTimeout_spec env h)).
Qed.

(** After the state machine has returned, the rest of the tick returns. *)
Lemma rest_of_tick_returns env h2 hs :
  hazard_status_stamped_ h2 = Some hs ->
  exists h' out,
    (publishControlCommands ;; operateMrm ;; publishMrmState) env h2 = Returned tt h' out.
Proof.
  intros Eh.
  rewrite (bind_Returned _ _ _ _ _ _ _ (publishControlCommands_spec env h2 hs Eh)).
  destruct (operateMrm_returns env h2 hs Eh) as (h4 & o4 & O).
  rewrite (bind_Returned _ _ _ _ _ _ _ O), publishMrmState_spec. cbn [prepend]. eauto.
Qed.

(** The state machine on an undeclared state. *)
Lemma updateMrmState_undeclared env h hs :
  hazard_status_stamped_ h = Some hs ->
  ~ declared_state (state (mrm_state_ h)) ->
  updateMrmState env h =
    if is_emergency_of hs (is_hazard_status_timeout_ h) || debug_enabled env
    then Thrown (runtime_error
                   (String.append "invalid state: " (to_string (state (mrm_state_ h))))) []
    else Returned tt (with_state MrmState.NORMAL h) [].
Proof.
  intros Eh N. destruct (invalid_state_tests _ N) as (T1 & T2 & T3 & T4).
  unfold updateMrmState. rewrite (bind_Returned _ _ _ _ _ _ _ (isEmergency_spec env h hs Eh)).
  cbv [bind gets prepend]. rewrite T1.
  destruct (is_emergency_of hs (is_hazard_status_timeout_ h)); cbn [negb orb app].
  - rewrite T2, T3, T4. reflexivity.
  - destruct (debug_enabled env) eqn:Ed.
    + unfold transitionTo, state2string. cbv [bind gets asks prepend].
      rewrite Ed, T1, T2, T3, T4. reflexivity.
    + rewrite (transitionTo_quiet _ _ _ Ed). reflexivity.
Qed.

(** X1. The timer callback never dereferences the null fault report: for
    every handler and every environment it returns or throws, because the
    gate turns the tick away while [hazard_status_stamped_] is null. *)
Theorem tick_never_dereferences_a_null_report (env : Env) (h : EmergencyHandler) :
  (exists h' out, onTimer env h = Returned tt h' out) \/
  (exists e out, onTimer env h = Thrown e out).
Proof.
  destruct (data_ready h) eqn:Er.
  - destruct (data_ready_hazard h Er) as [hs Eh].
    rewrite (onTimer_ready_unfold env h Er).
    set (h1 := set_is_hazard_status_timeout_ (stale_at (now env) h) h).
    destruct (updateMrmState_outcome env h1 hs Eh) as [(o2 & U & L2) | (e & U)].
    + left. set (h2 := with_state _ h1) in U.
      rewrite (bind_Returned _ _ _ _ _ _ _ U).
      destruct (rest_of_tick_returns env h2 hs Eh) as (h' & out & R).
      rewrite R. cbn [prepend]. eauto.
    + right. unfold bind at 1. rewrite U. cbn [prepend]. eauto.
  - left. destruct (onTimer_skip env h Er) as [text E]. eauto.
Qed.

(** X2. A tick throws exactly when it passes the gate with a state outside
    the enumeration and either there is an emergency or DEBUG logging is
    enabled; the exception is the runtime error "invalid state: N", and
    nothing has been published or requested before it. *)
Theorem tick_throws_exactly_on_an_undeclared_state
  (env : Env) (h : EmergencyHandler) (e : Exception) (out : list Event) :
  onTimer env h = Thrown e out <->
  (exists hs,
     data_ready h = true /\ hazard_status_stamped_ h = Some hs /\
     ~ declared_state (state_of h) /\
     is_emergency_of hs (stale_at (now env) h) || debug_enabled env = true /\
     e = runtime_error (String.append "invalid state: " (to_string (state_of h))) /\
     out = stale_log (stale_at (now env) h)).
Proof.
  unfold state_of. split.
  - intros H. destruct (data_ready h) eqn:Er.
    2:{ destruct (onTimer_skip env h Er) as [text E]. rewrite E in H. discriminate H. }
    destruct (data_ready_hazard h Er) as [hs Eh]. exists hs.
    rewrite (onTimer_ready_unfold env h Er) in H.
    set (h1 := set_is_hazard_status_timeout_ (stale_at (now env) h) h) in *.
    assert (N : ~ declared_state (state (mrm_state_ h))).
    { intros D. destruct (updateMrmState_returns env h1 hs Eh D) as (o & U & _).
      set (h2 := with_state _ h1) in U.
      rewrite (bind_Returned _ _ _ _ _ _ _ U) in H.
      destruct (rest_of_tick_returns env h2 hs Eh) as (h' & out' & R).
      rewrite R in H. discriminate H. }
    pose proof (updateMrmState_undeclared env h1 hs Eh N) as U.
    change (is_hazard_status_timeout_ h1) with (stale_at (now env) h) in U.
    change (state (mrm_state_ h1)) with (state (mrm_state_ h)) in U.
    destruct (is_emergency_of hs (stale_at (now env) h) || debug_enabled env).
    + unfold bind at 1 in H. rewrite U in H. cbn [prepend] in H.
      rewrite app_nil_r in H. inversion H; subst. auto 10.
    + rewrite (bind_Returned _ _ _ _ _ _ _ U) in H.
      destruct (rest_of_tick_returns env (with_state MrmState.NORMAL h1) hs Eh)
        as (h' & out' & R).
      rewrite R in H. discriminate H.
  - intros (hs & Er & Eh & N & C & -> & ->).
    rewrite (onTimer_ready_unfold env h Er).
    set (h1 := set_is_hazard_status_timeout_ (stale_at (now env) h) h).
    pose proof (updateMrmState_undeclared env h1 hs Eh N) as U.
    change (is_hazard_status_timeout_ h1) with (stale_at (now env) h) in U.
    change (state (mrm_state_ h1)) with (state (mrm_state_ h)) in U.
    rewrite C in U. unfold bind at 1. rewrite U. cbn [prepend].
    rewrite app_nil_r. reflexivity.
Qed.

Lemma tick_throws_exactly_on_an_undeclared_state_witness :
  onTimer late_env state_9 =
    Thrown (runtime_error "invalid state: 9")
      [log_throttle WARN 1000 "heartbeat_hazard_status is timeout"].
Proof.
  apply (proj2 (tick_throws_exactly_on_an_undeclared_state late_env state_9
                  (runtime_error "invalid state: 9")
                  [log_throttle WARN 1000 "heartbeat_hazard_status is timeout"])).
  exists (mkHazardStatus HazardStatus.NO_FAULT false false).
  split; [reflexivity|]. split; [reflexivity|].
  split; [intros [H | [H | [H | H]]]; discriminate H|].
  split; [reflexivity|]. split; reflexivity.
Defined.

(** ** What a tick leaves, sends and publishes *)

Lemma operateMrm_result env h hs :
  hazard_status_stamped_ h = Some hs ->
  let b := behavior (mrm_state_ h) in
  let b' := arbitrated (state (mrm_state_ h)) (use_comfortable_stop (param_ h))
              (effective_level hs (is_hazard_status_timeout_ h)) b in
  exists o, operateMrm env h = Returned tt (with_behavior b' h) o /\
    forallb is_invoker o = true /\
    requests o = arbitration_requests (state (mrm_state_ h)) b b'.
Proof.
  intros Eh b b'. unfold arbitrated, arbitration_requests in *.
  destruct (Z.eqb_spec (state (mrm_state_ h)) MrmState.NORMAL) as [E | N1].
  { destruct (operateMrm_normal env h E) as (o & Ho & L & R). eauto. }
  destruct (Z.eqb_spec (state (mrm_state_ h)) MrmState.MRM_OPERATING) as [E | N2].
  { destruct (operateMrm_operating env h hs E Eh) as (o & Ho & L & R). eauto. }
  subst b'. unfold b. rewrite with_behavior_same.
  destruct (Z.eq_dec (state (mrm_state_ h)) MrmState.MRM_SUCCEEDED) as [E | N3].
  { exists []. rewrite operateMrm_done by auto. auto. }
  destruct (Z.eq_dec (state (mrm_state_ h)) MrmState.MRM_FAILED) as [E | N4].
  { exists []. rewrite operateMrm_done by auto. auto. }
  eexists. rewrite operateMrm_invalid by (unfold declared_state; tauto).
  split; [reflexivity|]. split; reflexivity.
Qed.

Lemma publications_app a b : publications (a ++ b) = publications a ++ publications b.
Proof. apply filter_app. Qed.

Lemma requests_invoker_publications o :
  forallb is_invoker o = true -> publications o = [].
Proof.
  induction o as [|e o IH]; [reflexivity|]. simpl. intros H.
  apply andb_prop in H. destruct H as [He Ho].
  destruct e; try discriminate He; simpl; auto.
Qed.

(** A tick that passes the gate and returns: the handler it leaves, the
    requests it sends and the messages it publishes, from what it read. *)
Lemma onTimer_ready_result env h hs h' out :
  data_ready h = true ->
  hazard_status_stamped_ h = Some hs ->
  onTimer env h = Returned tt h' out ->
  let stale := stale_at (now env) h in
  let st' := next_state (control_mode_ h =? ControlModeReport.AUTONOMOUS)
               (is_emergency_of hs stale) (stopped h) (state (mrm_state_ h)) in
  let b := behavior (mrm_state_ h) in
  let b' := arbitrated st' (use_comfortable_stop (param_ h)) (effective_level hs stale) b in
  h' = with_stamp (now_mrm_state env)
         (with_behavior b' (with_state st' (set_is_hazard_status_timeout_ stale h))) /\
  requests out = arbitration_requests st' b b' /\
  publications out =
    [pub_hazard_cmd (hazard_command hs (set_is_hazard_status_timeout_ stale h));
     pub_gear_cmd (now_commands env) (gear_command h);
     pub_mrm_state (mkMrmState (now_mrm_state env) st' b')].
Proof.
  intros Er Eh H. cbv zeta.
  destruct (onTimer_ready_inv env h hs h' out Er Eh H) as (o2 & h4 & o4 & U & L2 & O & -> & ->).
  set (stale := stale_at (now env) h) in *.
  set (st' := next_state _ _ _ _) in *.
  set (h2 := with_state st' (set_is_hazard_status_timeout_ stale h)) in *.
  destruct (operateMrm_result env h2 hs Eh) as (o & O' & L & R).
  rewrite O' in O. inv_returned.
  split; [reflexivity|]. split.
  - rewrite !requests_app, (requests_logs _ (stale_log_is_log _)), (requests_logs _ L2), R.
    simpl. rewrite app_nil_r. reflexivity.
  - rewrite !publications_app, (publications_logs _ (stale_log_is_log _)),
      (publications_logs _ L2), (requests_invoker_publications _ L).
    reflexivity.
Qed.

Lemma onTimer_declared_result env h hs :
  data_ready h = true ->
  hazard_status_stamped_ h = Some hs ->
  declared_state (state (mrm_state_ h)) ->
  let stale := stale_at (now env) h in
  let st' := next_state (control_mode_ h =? ControlModeReport.AUTONOMOUS)
               (is_emergency_of hs stale) (stopped h) (state (mrm_state_ h)) in
  let b := behavior (mrm_state_ h) in
  let b' := arbitrated st' (use_comfortable_stop (param_ h)) (effective_level hs stale) b in
  exists out,
    onTimer env h =
      Returned tt
        (with_stamp (now_mrm_state env)
           (with_behavior b' (with_state st' (set_is_hazard_status_timeout_ stale h)))) out /\
    requests out = arbitration_requests st' b b'.
Proof.
  intros Er Eh D. cbv zeta.
  destruct (onTimer_ready_returns env h Er D) as (h' & out & H).
  destruct (onTimer_ready_result env h hs h' out Er Eh H) as (E & R & _).
  exists out. rewrite <- E. auto.
Qed.

(** ** States the node never enters *)

Lemma next_state_failed a e s st :
  next_state a e s st = MrmState.MRM_FAILED -> st = MrmState.MRM_FAILED.
Proof.
  unfold next_state.
  destruct (Z.eqb_spec st MrmState.NORMAL) as [-> |];
    destruct a, e, s; simpl; try discriminate; auto;
    destruct (st =? MrmState.MRM_OPERATING); simpl; try discriminate; auto.
Qed.

(** X3. No delivery moves the node into MRM_FAILED: a handler in MRM_FAILED
    was there before the delivery.  So every handler the node reaches is in
    NORMAL, MRM_OPERATING or MRM_SUCCEEDED. *)
Theorem mrm_failed_is_never_entered :
  (forall i h h' out,
     deliver i h = Returned tt h' out ->
     state_of h' = MrmState.MRM_FAILED -> state_of h = MrmState.MRM_FAILED) /\
  (forall p h,
     reachable p h ->
     state_of h = MrmState.NORMAL \/ state_of h = MrmState.MRM_OPERATING \/
     state_of h = MrmState.MRM_SUCCEEDED).
Proof.
  assert (S : forall i h h' out,
            deliver i h = Returned tt h' out ->
            state_of h' = MrmState.MRM_FAILED -> state_of h = MrmState.MRM_FAILED).
  { unfold state_of. intros i h h' out H.
    destruct i; simpl in H; try (inv_returned; auto; fail).
    destruct (data_ready h) eqn:Er.
    - destruct (data_ready_hazard h Er) as [hs Eh].
      destruct (onTimer_ready_result env h hs h' out Er Eh H) as (-> & _).
      simpl. apply next_state_failed.
    - destruct (onTimer_skip env h Er) as [text E]. rewrite E in H. inv_returned. auto. }
  split; [exact S|].
  intros p h R. induction R as [t | h h' i out R IH D].
  - left. reflexivity.
  - pose proof (deliver_keeps_declared i h h' out D (reachable_declared p h R)) as Dd.
    destruct Dd as [E | [E | [E | E]]]; auto.
    exfalso. pose proof (S i h h' out D E) as F.
    destruct IH as [G | [G | G]]; rewrite G in F; discriminate F.
Qed.

Lemma mrm_failed_is_never_entered_witness :
  state_of failed_with_fault = MrmState.MRM_FAILED /\
  (state_of (EmergencyHandler_new sample_param 0) = MrmState.NORMAL \/
   state_of (EmergencyHandler_new sample_param 0) = MrmState.MRM_OPERATING \/
   state_of (EmergencyHandler_new sample_param 0) = MrmState.MRM_SUCCEEDED).
Proof.
  split.
  - apply (proj1 mrm_failed_is_never_entered (Timer sample_env) failed_with_fault
             (with_stamp 103000000 failed_with_fault)
             [pub_hazard_cmd HazardLightsCommand.ENABLE;
              pub_gear_cmd 100001000 GearCommand.DRIVE;
              pub_mrm_state (mkMrmState 103000000 MrmState.MRM_FAILED
                               MrmState.EMERGENCY_STOP)]).
    + reflexivity.
    + reflexivity.
  - apply (proj2 mrm_failed_is_never_entered sample_param). apply reachable_new.
Defined.

(** ** Entering, completing and leaving an MRM *)

(** X4. Outside autonomous mode no MRM starts: a tick that passes the gate
    in NORMAL with a control mode other than AUTONOMOUS returns in NORMAL
    with the behavior NONE, whatever the fault report and its age, and sends
    nothing but the cancel of a behavior that was still set. *)
Theorem manual_mode_starts_no_mrm (env : Env) (h : EmergencyHandler) :
  data_ready h = true ->
  state_of h = MrmState.NORMAL ->
  control_mode_ h <> ControlModeReport.AUTONOMOUS ->
  exists h' out,
    onTimer env h = Returned tt h' out /\
    state_of h' = MrmState.NORMAL /\ behavior_of h' = MrmState.NONE /\
    requests out = request_to (behavior_of h) false.
Proof.
  unfold state_of, behavior_of. intros Er En Nm.
  destruct (data_ready_hazard h Er) as [hs Eh].
  destruct (onTimer_declared_result env h hs Er Eh) as (out & H & R).
  { left. exact En. }
  apply Z.eqb_neq in Nm. rewrite Nm, En in H, R.
  eexists _, out. split; [exact H|]. repeat split. exact R.
Qed.

Lemma manual_mode_starts_no_mrm_witness :
  exists h' out,
    onTimer sample_env manual_with_fault = Returned tt h' out /\
    state_of h' = MrmState.NORMAL /\ behavior_of h' = MrmState.NONE /\
    requests out = request_to (behavior_of manual_with_fault) false.
Proof.
  apply (manual_mode_starts_no_mrm sample_env manual_with_fault).
  - reflexivity.
  - reflexivity.
  - discriminate.
Defined.

Lemma next_state_without_emergency a s st :
  declared_state st -> next_state a false s st = MrmState.NORMAL.
Proof.
  unfold next_state. intros [-> | [-> | [-> | ->]]]; destruct a; reflexivity.
Qed.

(** X5. Recovery takes priority: a tick that passes the gate in any declared
    state while there is no emergency (both flags clear, report fresh)
    returns in NORMAL with the behavior NONE, and its only request is the
    cancel of the behavior that was active (none when it was NONE). *)
Theorem recovery_returns_to_normal
  (env : Env) (h : EmergencyHandler) (hs : HazardStatusMsg) :
  data_ready h = true ->
  hazard_status_stamped_ h = Some hs ->
  declared_state (state_of h) ->
  is_emergency_of hs (stale_at (now env) h) = false ->
  exists h' out,
    onTimer env h = Returned tt h' out /\
    state_of h' = MrmState.NORMAL /\ behavior_of h' = MrmState.NONE /\
    requests out = request_to (behavior_of h) false.
Proof.
  unfold state_of, behavior_of. intros Er Eh D Ne.
  destruct (onTimer_declared_result env h hs Er Eh D) as (out & H & R).
  rewrite Ne, (next_state_without_emergency _ _ _ D) in H, R.
  eexists _, out. split; [exact H|]. repeat split. exact R.
Qed.

Lemma recovery_returns_to_normal_witness :
  exists h' out,
    onTimer sample_env operating_after_fault_cleared = Returned tt h' out /\
    state_of h' = MrmState.NORMAL /\ behavior_of h' = MrmState.NONE /\
    requests out = [send_request client_mrm_emergency_stop_ false].
Proof.
  apply (recovery_returns_to_normal sample_env operating_after_fault_cleared
           (mkHazardStatus HazardStatus.NO_FAULT false false)).
  - reflexivity.
  - reflexivity.
  - right. left. reflexivity.
  - reflexivity.
Defined.

(** X6. Stopping completes the MRM: a tick that passes the gate in
    MRM_OPERATING during an emergency with the vehicle stopped returns in
    MRM_SUCCEEDED, keeps the behavior, whatever it is, and sends no
    request. *)
Theorem stopping_completes_the_mrm
  (env : Env) (h : EmergencyHandler) (hs : HazardStatusMsg) :
  data_ready h = true ->
  hazard_status_stamped_ h = Some hs ->
  state_of h = MrmState.MRM_OPERATING ->
  is_emergency_of hs (stale_at (now env) h) = true ->
  (odom_ h < 1 # 1000)%Q ->
  exists h' out,
    onTimer env h = Returned tt h' out /\
    state_of h' = MrmState.MRM_SUCCEEDED /\ behavior_of h' = behavior_of h /\
    requests out = [].
Proof.
  unfold state_of, behavior_of. intros Er Eh Eo Ee Hv.
  assert (Es : stopped h = true) by (now apply Qltb_lt).
  destruct (onTimer_declared_result env h hs Er Eh) as (out & H & R).
  { right. left. exact Eo. }
  rewrite Ee, Es, Eo in H, R.
  eexists _, out. split; [exact H|]. repeat split. exact R.
Qed.

Lemma stopping_completes_the_mrm_witness :
  exists h' out,
    onTimer sample_env operating_emergency_at_rest = Returned tt h' out /\
    state_of h' = MrmState.MRM_SUCCEEDED /\
    behavior_of h' = behavior_of operating_emergency_at_rest /\
    requests out = [].
Proof.
  apply (stopping_completes_the_mrm sample_env operating_emergency_at_rest
           (mkHazardStatus HazardStatus.SINGLE_POINT_FAULT true false)).
  - reflexivity.
  - reflexivity.
  - reflexivity.
  - reflexivity.
  - reflexivity.
Defined.

(** ** What the arbitrator selects *)

(** The state machine leaves the tick in MRM_OPERATING: it enters from
    NORMAL in autonomous mode, or stays while the vehicle moves. *)
Lemma next_state_operating a s st :
  (st = MrmState.NORMAL /\ a = true) \/ (st = MrmState.MRM_OPERATING /\ s = false) ->
  next_state a true s st = MrmState.MRM_OPERATING.
Proof. intros [[-> ->] | [-> ->]]; reflexivity. Qed.

Lemma selected_behavior_below_latent use_cs lvl b :
  lvl <> HazardStatus.LATENT_FAULT -> lvl <> HazardStatus.SINGLE_POINT_FAULT ->
  selected_behavior use_cs lvl b = b.
Proof.
  intros N1 N2. apply Z.eqb_neq in N1, N2. unfold selected_behavior.
  rewrite N1, N2. destruct (b =? MrmState.NONE), (b =? MrmState.COMFORTABLE_STOP); reflexivity.
Qed.

(** X7. While the fault report is fresh and its level is neither
    LATENT_FAULT nor SINGLE_POINT_FAULT, a tick that the state machine
    leaves in MRM_OPERATING (entered from NORMAL in autonomous mode, or kept
    while the vehicle moves) selects and escalates nothing: the behavior is
    kept and no request is sent.  An MRM entered on the emergency flag alone
    therefore runs with the behavior NONE and calls no controller. *)
Theorem emergency_below_latent_fault_selects_nothing
  (env : Env) (h : EmergencyHandler) (hs : HazardStatusMsg) :
  data_ready h = true ->
  hazard_status_stamped_ h = Some hs ->
  (state_of h = MrmState.NORMAL /\ control_mode_ h = ControlModeReport.AUTONOMOUS) \/
  (state_of h = MrmState.MRM_OPERATING /\ stopped h = false) ->
  emergency hs || emergency_holding hs = true ->
  stale_at (now env) h = false ->
  level hs <> HazardStatus.LATENT_FAULT ->
  level hs <> HazardStatus.SINGLE_POINT_FAULT ->
  exists h' out,
    onTimer env h = Returned tt h' out /\
    state_of h' = MrmState.MRM_OPERATING /\ behavior_of h' = behavior_of h /\
    requests out = [].
Proof.
  unfold state_of, behavior_of. intros Er Eh Hs Ee Es N1 N2.
  destruct (onTimer_declared_result env h hs Er Eh) as (out & H & R).
  { unfold declared_state. destruct Hs as [[E _] | [E _]]; auto. }
  assert (Ne : is_emergency_of hs (stale_at (now env) h) = true).
  { unfold is_emergency_of. rewrite Ee. reflexivity. }
  assert (St : next_state (control_mode_ h =? ControlModeReport.AUTONOMOUS) true (stopped h)
                 (state (mrm_state_ h)) = MrmState.MRM_OPERATING).
  { apply next_state_operating. destruct Hs as [[E M] | [E S]]; [left | right]; split; auto.
    now apply Z.eqb_eq. }
  rewrite Ne, St, Es in H, R.
  unfold arbitrated, effective_level in H, R. cbn [Z.eqb Pos.eqb MrmState.MRM_OPERATING
    MrmState.NORMAL] in H, R.
  rewrite (selected_behavior_below_latent _ _ _ N1 N2) in H, R.
  unfold arbitration_requests in R. cbn [Z.eqb Pos.eqb MrmState.MRM_OPERATING
    MrmState.NORMAL] in R. rewrite Z.eqb_refl in R.
  eexists _, out. split; [exact H|]. repeat split. exact R.
Qed.

Lemma emergency_below_latent_fault_selects_nothing_witness :
  exists h' out,
    onTimer sample_env normal_with_safe_fault = Returned tt h' out /\
    state_of h' = MrmState.MRM_OPERATING /\
    behavior_of h' = behavior_of normal_with_safe_fault /\
    requests out = [].
Proof.
  apply (emergency_below_latent_fault_selects_nothing sample_env normal_with_safe_fault
           (mkHazardStatus HazardStatus.SAFE_FAULT true false)).
  - reflexivity.
  - reflexivity.
  - left. split; reflexivity.
  - reflexivity.
  - reflexivity.
  - discriminate.
  - discriminate.
Defined.

(** X8. Entering an MRM with the behavior NONE: on a fresh report of a
    LATENT_FAULT the tick selects COMFORTABLE_STOP when comfortable stop is
    enabled and EMERGENCY_STOP when it is not; when the effective level is
    SINGLE_POINT_FAULT (reported, or forced by a stale report) it selects
    EMERGENCY_STOP.  In each case the tick sends exactly one request, the
    call of the selected controller, and no cancel. *)
Theorem first_behavior_follows_level_and_configuration
  (env : Env) (h : EmergencyHandler) (hs : HazardStatusMsg) (lvl : Z) :
  data_ready h = true ->
  hazard_status_stamped_ h = Some hs ->
  (state_of h = MrmState.NORMAL /\ control_mode_ h = ControlModeReport.AUTONOMOUS) \/
  (state_of h = MrmState.MRM_OPERATING /\ stopped h = false) ->
  behavior_of h = MrmState.NONE ->
  is_emergency_of hs (stale_at (now env) h) = true ->
  effective_level hs (stale_at (now env) h) = lvl ->
  lvl = HazardStatus.LATENT_FAULT \/ lvl = HazardStatus.SINGLE_POINT_FAULT ->
  exists h' out,
    onTimer env h = Returned tt h' out /\
    state_of h' = MrmState.MRM_OPERATING /\
    (lvl = HazardStatus.LATENT_FAULT /\ use_comfortable_stop (param_ h) = true ->
     behavior_of h' = MrmState.COMFORTABLE_STOP /\
     requests out = [send_request client_mrm_comfortable_stop_ true]) /\
    (lvl = HazardStatus.SINGLE_POINT_FAULT \/ use_comfortable_stop (param_ h) = false ->
     behavior_of h' = MrmState.EMERGENCY_STOP /\
     requests out = [send_request client_mrm_emergency_stop_ true]).
Proof.
  unfold state_of, behavior_of. intros Er Eh Hs Eb Ne Elvl Hl.
  destruct (onTimer_declared_result env h hs Er Eh) as (out & H & R).
  { unfold declared_state. destruct Hs as [[E _] | [E _]]; auto. }
  assert (St : next_state (control_mode_ h =? ControlModeReport.AUTONOMOUS) true (stopped h)
                 (state (mrm_state_ h)) = MrmState.MRM_OPERATING).
  { apply next_state_operating. destruct Hs as [[E M] | [E S]]; [left | right]; split; auto.
    now apply Z.eqb_eq. }
  rewrite Ne, St, Eb, Elvl in H, R.
  eexists _, out. split; [exact H|]. split; [reflexivity|].
  cbn [behavior mrm_state_ with_stamp with_behavior set_mrm_state_ set_stamp set_behavior].
  rewrite R. unfold arbitration_requests, arbitrated, selected_behavior.
  cbn [Z.eqb Pos.eqb MrmState.MRM_OPERATING MrmState.NORMAL MrmState.NONE].
  split.
  - intros [El Ec]. rewrite El, Ec. split; reflexivity.
  - intros C. destruct Hl as [El | El]; rewrite El.
    + destruct C as [C | C]; [rewrite C in El; discriminate El|].
      rewrite C. split; reflexivity.
    + split; reflexivity.
Qed.

Lemma first_behavior_follows_level_and_configuration_witness :
  exists h' out,
    onTimer sample_env normal_with_latent_fault = Returned tt h' out /\
    state_of h' = MrmState.MRM_OPERATING /\
    (HazardStatus.LATENT_FAULT = HazardStatus.LATENT_FAULT /\
     use_comfortable_stop (param_ normal_with_latent_fault) = true ->
     behavior_of h' = MrmState.COMFORTABLE_STOP /\
     requests out = [send_request client_mrm_comfortable_stop_ true]) /\
    (HazardStatus.LATENT_FAULT = HazardStatus.SINGLE_POINT_FAULT \/
     use_comfortable_stop (param_ normal_with_latent_fault) = false ->
     behavior_of h' = MrmState.EMERGENCY_STOP /\
     requests out = [send_request client_mrm_emergency_stop_ true]).
Proof.
  apply (first_behavior_follows_level_and_configuration sample_env normal_with_latent_fault
           (mkHazardStatus HazardStatus.LATENT_FAULT true false) HazardStatus.LATENT_FAULT).
  - reflexivity.
  - reflexivity.
  - left. split; reflexivity.
  - reflexivity.
  - reflexivity.
  - reflexivity.
  - left. reflexivity.
Defined.

(** ** What does not influence a tick *)

(** The state machine reads the clock and the logger level of its
    environment, not the answers of the controllers. *)
Lemma updateMrmState_answers n c m r r' d h :
  updateMrmState (mkEnv n c m r d) h = updateMrmState (mkEnv n c m r' d) h.
Proof.
  unfold updateMrmState, isEmergency, isStopped, transitionTo, state2string.
  cbv [bind gets asks ret throw emit modify hazard_status prepend debug_enabled].
  destruct (hazard_status_stamped_ h); [|reflexivity].
  repeat (match goal with
          | |- context [if ?c then _ else _] => destruct c
          end; cbv beta iota);
    reflexivity.
Qed.

Lemma isDataReady_any_env env env' h : isDataReady env h = isDataReady env' h.
Proof.
  unfold isDataReady. cbv [bind gets ret emit prepend].
  destruct (hazard_status_stamped_ h); [|reflexivity].
  repeat (match goal with
          | |- context [if ?c then _ else _] => destruct c
          end; cbv beta iota);
    reflexivity.
Qed.

(** X9. What the backup controllers answer has no influence on the node: two
    ticks on the same handler, with the same three clock readings and logger
    level, that differ only in the answers to the service requests leave the
    same handler, send the same requests and publish the same messages (or
    throw the same exception); only the log lines differ. *)
Theorem responses_do_not_influence_the_tick (env env' : Env) (h : EmergencyHandler) :
  now env = now env' ->
  now_commands env = now_commands env' ->
  now_mrm_state env = now_mrm_state env' ->
  debug_enabled env = debug_enabled env' ->
  (forall h' out, onTimer env h = Returned tt h' out ->
     exists out', onTimer env' h = Returned tt h' out' /\
       requests out' = requests out /\ publications out' = publications out) /\
  (forall e out, onTimer env h = Thrown e out -> onTimer env' h = Thrown e out).
Proof.
  intros En Ec Em Ed. destruct (data_ready h) eqn:Er.
  - destruct (data_ready_hazard h Er) as [hs Eh].
    assert (U : updateMrmState env'
                  (set_is_hazard_status_timeout_ (stale_at (now env) h) h) =
                updateMrmState env
                  (set_is_hazard_status_timeout_ (stale_at (now env) h) h)).
    { destruct env as [n c m r d], env' as [n' c' m' r' d'].
      simpl in En, Ec, Em, Ed. subst n' c' m' d'.
      symmetry. apply updateMrmState_answers. }
    split.
    + intros h' out H.
      destruct (onTimer_ready_result env h hs h' out Er Eh H) as (E & R & P).
      assert (exists h'' out', onTimer env' h = Returned tt h'' out') as (h'' & out' & H').
      { rewrite (onTimer_ready_unfold env h Er) in H.
        rewrite (onTimer_ready_unfold env' h Er), <- En.
        unfold bind at 1 in H. unfold bind at 1. rewrite U.
        destruct (updateMrmState env _) as [[] h2 o2| |] eqn:Eu; try discriminate H.
        assert (Eh2 : hazard_status_stamped_ h2 = Some hs).
        { destruct (updateMrmState_post env
                      (set_is_hazard_status_timeout_ (stale_at (now env) h) h)
                      hs h2 o2 Eh Eu) as [-> _]. exact Eh. }
        destruct (rest_of_tick_returns env' h2 hs Eh2) as (h3 & o3 & R3).
        rewrite R3. cbn [prepend]. eauto. }
      destruct (onTimer_ready_result env' h hs h'' out' Er Eh H') as (E' & R' & P').
      rewrite <- En in E', R', P'. rewrite <- Em in E', P'. rewrite <- Ec in P'.
      rewrite <- E in E'. subst h''.
      exists out'. rewrite R', P', R, P. auto.
    + intros e out H.
      rewrite (onTimer_ready_unfold env h Er) in H.
      rewrite (onTimer_ready_unfold env' h Er), <- En.
      unfold bind at 1 in H. unfold bind at 1. rewrite U.
      destruct (updateMrmState env _) as [[] h2 o2| |] eqn:Eu.
      * exfalso.
        assert (Eh2 : hazard_status_stamped_ h2 = Some hs).
        { destruct (updateMrmState_post env
                      (set_is_hazard_status_timeout_ (stale_at (now env) h) h)
                      hs h2 o2 Eh Eu) as [-> _]. exact Eh. }
        destruct (rest_of_tick_returns env h2 hs Eh2) as (h3 & o3 & R3).
        rewrite R3 in H. discriminate H.
      * exact H.
      * discriminate H.
  - assert (S : onTimer env' h = onTimer env h).
    { destruct (isDataReady_spec env h) as (o & R & _).
      unfold onTimer. unfold bind at 1. unfold bind at 5.
      rewrite (isDataReady_any_env env' env h), R, Er. reflexivity. }
    rewrite S. split; [intros h' out H; exists out; auto | auto].
Qed.

Lemma responses_do_not_influence_the_tick_witness :
  exists out',
    onTimer failing_env operating_comfortable_moving =
      Returned tt
        (set_mrm_state_
           (mkMrmState 103000000 MrmState.MRM_OPERATING MrmState.EMERGENCY_STOP)
           operating_comfortable_moving) out' /\
    requests out' = [send_request client_mrm_comfortable_stop_ false;
                     send_request client_mrm_emergency_stop_ true] /\
    publications out' = [pub_hazard_cmd HazardLightsCommand.ENABLE;
                         pub_gear_cmd 100001000 GearCommand.DRIVE;
                         pub_mrm_state (mkMrmState 103000000 MrmState.MRM_OPERATING
                                          MrmState.EMERGENCY_STOP)].
Proof.
  apply (proj1 (responses_do_not_influence_the_tick sample_env failing_env
                  operating_comfortable_moving eq_refl eq_refl eq_refl eq_refl)
           _
           [pub_hazard_cmd HazardLightsCommand.ENABLE;
            pub_gear_cmd 100001000 GearCommand.DRIVE;
            send_request client_mrm_comfortable_stop_ false;
            log WARN "Comfortable stop is canceled";
            send_request client_mrm_emergency_stop_ true;
            log WARN "Emergency stop is operated";
            pub_mrm_state (mkMrmState 103000000 MrmState.MRM_OPERATING
                             MrmState.EMERGENCY_STOP)]).
  reflexivity.
Defined.



(** ** Who writes what *)

(** X11. A delivery never changes the configuration.  A subscription
    callback emits nothing and leaves the MRM state and the staleness flag
    alone; the timer callback leaves every snapshot alone (fault report and
    its reception time, velocity, control mode, both controller statuses). *)
Theorem deliveries_write_only_their_own_members
  (i : Input) (h h' : EmergencyHandler) (out : list Event) :
  deliver i h = Returned tt h' out ->
  param_ h' = param_ h /\
  match i with
  | Timer _ =>
      hazard_status_stamped_ h' = hazard_status_stamped_ h /\
      stamp_hazard_status_ h' = stamp_hazard_status_ h /\
      odom_ h' = odom_ h /\
      control_mode_ h' = control_mode_ h /\
      mrm_comfortable_stop_status_ h' = mrm_comfortable_stop_status_ h /\
      mrm_emergency_stop_status_ h' = mrm_emergency_stop_status_ h
  | _ =>
      out = [] /\ mrm_state_ h' = mrm_state_ h /\
      is_hazard_status_timeout_ h' = is_hazard_status_timeout_ h
  end.
Proof.
  destruct i; simpl; intros H; try (inv_returned; repeat split; reflexivity).
  destruct (data_ready h) eqn:Er.
  - destruct (data_ready_hazard h Er) as [hs Eh].
    destruct (onTimer_ready_result env h hs h' out Er Eh H) as (-> & _).
    repeat split; reflexivity.
  - destruct (onTimer_skip env h Er) as [text E]. rewrite E in H. inv_returned.
    repeat split; reflexivity.
Qed.

Lemma deliveries_write_only_their_own_members_witness :
  param_ (onOdometry (7 # 2) normal_with_fault) = param_ normal_with_fault /\
  @nil Event = [] /\
  mrm_state_ (onOdometry (7 # 2) normal_with_fault) = mrm_state_ normal_with_fault /\
  is_hazard_status_timeout_ (onOdometry (7 # 2) normal_with_fault)
  = is_hazard_status_timeout_ normal_with_fault.
Proof.
  apply (deliveries_write_only_their_own_members (Odometry (7 # 2)) normal_with_fault
           (onOdometry (7 # 2) normal_with_fault) []).
  reflexivity.
Defined.

(** ** How many requests a tick sends *)

Lemma arbitration_requests_shape st use_cs lvl b :
  let rs := arbitration_requests st b (arbitrated st use_cs lvl b) in
  rs = [] \/
  (exists c, rs = [send_request c false]) \/
  (exists c, rs = [send_request c true]) \/
  rs = [send_request client_mrm_comfortable_stop_ false;
        send_request client_mrm_emergency_stop_ true].
Proof.
  unfold arbitration_requests, arbitrated, request_to, client_of.
  destruct (st =? MrmState.NORMAL).
  { destruct (b =? MrmState.COMFORTABLE_STOP); [eauto|].
    destruct (b =? MrmState.EMERGENCY_STOP); eauto. }
  destruct (st =? MrmState.MRM_OPERATING); [|auto].
  unfold selected_behavior.
  destruct (Z.eqb_spec b MrmState.NONE) as [-> |].
  { destruct (lvl =? HazardStatus.LATENT_FAULT); [destruct use_cs; simpl; eauto 6|].
    destruct (lvl =? HazardStatus.SINGLE_POINT_FAULT); simpl; eauto 6. }
  destruct (Z.eqb_spec b MrmState.COMFORTABLE_STOP) as [-> |].
  { destruct (lvl =? HazardStatus.SINGLE_POINT_FAULT); simpl; eauto 6. }
  rewrite Z.eqb_refl. auto.
Qed.

(** X12. A tick blocks on at most two service calls: whatever it starts
    from, a tick that returns sends no request, one cancel, one call, or the
    cancel of COMFORTABLE_STOP followed by the call of EMERGENCY_STOP.  It
    never sends a call before a cancel, and never two requests to the same
    controller. *)
Theorem tick_sends_at_most_two_requests
  (env : Env) (h h' : EmergencyHandler) (out : list Event) :
  onTimer env h = Returned tt h' out ->
  requests out = [] \/
  (exists c, requests out = [send_request c false]) \/
  (exists c, requests out = [send_request c true]) \/
  requests out = [send_request client_mrm_comfortable_stop_ false;
                  send_request client_mrm_emergency_stop_ true].
Proof.
  intros H. destruct (data_ready h) eqn:Er.
  - destruct (data_ready_hazard h Er) as [hs Eh].
    destruct (onTimer_ready_result env h hs h' out Er Eh H) as (_ & -> & _).
    apply arbitration_requests_shape.
  - destruct (onTimer_skip env h Er) as [text E]. rewrite E in H. inv_returned.
    left. reflexivity.
Qed.

Lemma tick_sends_at_most_two_requests_witness :
  requests [pub_hazard_cmd HazardLightsCommand.ENABLE;
            pub_gear_cmd 100001000 GearCommand.DRIVE;
            send_request client_mrm_emergency_stop_ true;
            log WARN "Emergency stop is operated";
            pub_mrm_state (mkMrmState 103000000 MrmState.MRM_OPERATING
                             MrmState.EMERGENCY_STOP)] = [] \/
  (exists c, requests [pub_hazard_cmd HazardLightsCommand.ENABLE;
            pub_gear_cmd 100001000 GearCommand.DRIVE;
            send_request client_mrm_emergency_stop_ true;
            log WARN "Emergency stop is operated";
            pub_mrm_state (mkMrmState 103000000 MrmState.MRM_OPERATING
                             MrmState.EMERGENCY_STOP)] = [send_request c false]) \/
  (exists c, requests [pub_hazard_cmd HazardLightsCommand.ENABLE;
            pub_gear_cmd 100001000 GearCommand.DRIVE;
            send_request client_mrm_emergency_stop_ true;
            log WARN "Emergency stop is operated";
            pub_mrm_state (mkMrmState 103000000 MrmState.MRM_OPERATING
                             MrmState.EMERGENCY_STOP)] = [send_request c true]) \/
  requests [pub_hazard_cmd HazardLightsCommand.ENABLE;
            pub_gear_cmd 100001000 GearCommand.DRIVE;
            send_request client_mrm_emergency_stop_ true;
            log WARN "Emergency stop is operated";
            pub_mrm_state (mkMrmState 103000000 MrmState.MRM_OPERATING
                             MrmState.EMERGENCY_STOP)]
  = [send_request client_mrm_comfortable_stop_ false;
     send_request client_mrm_emergency_stop_ true].
Proof.
  apply (tick_sends_at_most_two_requests sample_env normal_with_fault
           (set_mrm_state_
              (mkMrmState 103000000 MrmState.MRM_OPERATING MrmState.EMERGENCY_STOP)
              normal_with_fault)).
  reflexivity.
Defined.

(** ** What a tick publishes *)

(** X13. A tick that passes the gate and returns publishes exactly three
    messages, in this order: a hazard-light command, a gear command stamped
    with the clock as [publishControlCommands] reads it, and the MRM state
    it leaves, stamped with the clock as [publishMrmState] reads it after
    the arbitration step; neither stamp is the reading of the staleness
    test.  The hazard-light command is ENABLE when the report holds the
    emergency or when there is an emergency and hazard lights on emergency
    are configured, and NO_COMMAND otherwise (never DISABLE); the gear
    command is PARK when parking after stop is configured and the velocity
    is below 0.001, and DRIVE otherwise. *)
Theorem tick_publishes_hazard_gear_and_state
  (env : Env) (h h' : EmergencyHandler) (hs : HazardStatusMsg) (out : list Event) :
  data_ready h = true ->
  hazard_status_stamped_ h = Some hs ->
  onTimer env h = Returned tt h' out ->
  exists hazard gear,
    publications out =
      [pub_hazard_cmd hazard; pub_gear_cmd (now_commands env) gear;
       pub_mrm_state (mrm_state_ h')] /\
    stamp (mrm_state_ h') = now_mrm_state env /\
    (hazard = HazardLightsCommand.ENABLE \/ hazard = HazardLightsCommand.NO_COMMAND) /\
    (hazard = HazardLightsCommand.ENABLE <->
     emergency_holding hs = true \/
     (is_emergency_of hs (stale_at (now env) h) = true /\
      turning_hazard_on_emergency (param_ h) = true)) /\
    (gear = GearCommand.PARK \/ gear = GearCommand.DRIVE) /\
    (gear = GearCommand.PARK <->
     use_parking_after_stopped (param_ h) = true /\ (odom_ h < 1 # 1000)%Q).
Proof.
  intros Er Eh H.
  destruct (onTimer_ready_result env h hs h' out Er Eh H) as (-> & _ & P).
  eexists _, _. split; [exact P|]. split; [reflexivity|].
  unfold hazard_command, gear_command.
  cbn [is_hazard_status_timeout_ param_ set_is_hazard_status_timeout_].
  assert (Sv : stopped h = true <-> (odom_ h < 1 # 1000)%Q) by apply Qltb_lt.
  split; [destruct (emergency_holding hs), (is_emergency_of hs (stale_at (now env) h)),
            (turning_hazard_on_emergency (param_ h)); cbn [andb]; auto|].
  split.
  { destruct (emergency_holding hs), (is_emergency_of hs (stale_at (now env) h)),
      (turning_hazard_on_emergency (param_ h)); cbn [andb];
      intuition (try discriminate; auto). }
  split; [destruct (use_parking_after_stopped (param_ h)), (stopped h); cbn [andb]; auto|].
  destruct (use_parking_after_stopped (param_ h)), (stopped h); cbn [andb];
    intuition (try discriminate; auto).
Qed.

Lemma tick_publishes_hazard_gear_and_state_witness :
  exists hazard gear,
    publications [pub_hazard_cmd HazardLightsCommand.ENABLE;
                  pub_gear_cmd 100001000 GearCommand.PARK;
                  pub_mrm_state (mkMrmState 103000000 MrmState.MRM_SUCCEEDED
                                   MrmState.EMERGENCY_STOP)] =
      [pub_hazard_cmd hazard; pub_gear_cmd (now_commands sample_env) gear;
       pub_mrm_state (mrm_state_
                        (set_mrm_state_
                           (mkMrmState 103000000 MrmState.MRM_SUCCEEDED
                              MrmState.EMERGENCY_STOP) operating_emergency_at_rest))] /\
    stamp (mrm_state_
             (set_mrm_state_
                (mkMrmState 103000000 MrmState.MRM_SUCCEEDED MrmState.EMERGENCY_STOP)
                operating_emergency_at_rest)) = now_mrm_state sample_env /\
    (hazard = HazardLightsCommand.ENABLE \/ hazard = HazardLightsCommand.NO_COMMAND) /\
    (hazard = HazardLightsCommand.ENABLE <->
     emergency_holding (mkHazardStatus HazardStatus.SINGLE_POINT_FAULT true false) = true \/
     (is_emergency_of (mkHazardStatus HazardStatus.SINGLE_POINT_FAULT true false)
        (stale_at (now sample_env) operating_emergency_at_rest) = true /\
      turning_hazard_on_emergency (param_ operating_emergency_at_rest) = true)) /\
    (gear = GearCommand.PARK \/ gear = GearCommand.DRIVE) /\
    (gear = GearCommand.PARK <->
     use_parking_after_stopped (param_ operating_emergency_at_rest) = true /\
     (odom_ operating_emergency_at_rest < 1 # 1000)%Q).
Proof.
  apply (tick_publishes_hazard_gear_and_state sample_env operating_emergency_at_rest
           (set_mrm_state_
              (mkMrmState 103000000 MrmState.MRM_SUCCEEDED MrmState.EMERGENCY_STOP)
              operating_emergency_at_rest)
           (mkHazardStatus HazardStatus.SINGLE_POINT_FAULT true false)).
  - reflexivity.
  - reflexivity.
  - reflexivity.
Defined.

(** * Properties of the shift predicates *)

Lemma Qltb_false (a b : Q) : Qltb a b = false <-> (b <= a)%Q.
Proof.
  split.
  - intros H. apply Qnot_lt_le. intros L. apply Qltb_lt in L. congruence.
  - intros H. destruct (Qltb a b) eqn:E; [|reflexivity].
    apply Qltb_lt in E. exfalso. exact (Qlt_not_le _ _ E H).
Qed.

Ltac Qltb_props :=
  repeat match goal with
  | H : Qltb _ _ = true |- _ => apply Qltb_lt in H
  | H : Qltb _ _ = false |- _ => apply Qltb_false in H
  end.

(** X14. A shift is never both an avoid shift and a return shift, and never
    both a left and a right middle shift; a return shift is an avoid shift
    read backwards; and with a threshold that is not positive no shift is an
    avoid or a return shift. *)
Theorem shift_kinds_exclude_each_other (s e t : Q) :
  isAvoidShift s e t && isReturnShift s e t = false /\
  isLeftMiddleShift s e t && isRightMiddleShift s e t = false /\
  isReturnShift s e t = isAvoidShift e s t /\
  ((t <= 0)%Q -> isAvoidShift s e t = false /\ isReturnShift s e t = false).
Proof.
  unfold isAvoidShift, isReturnShift, isLeftMiddleShift, isRightMiddleShift.
  repeat split.
  - destruct (Qltb (Qabs s) t) eqn:A, (Qltb t (Qabs e)) eqn:B,
      (Qltb t (Qabs s)) eqn:C, (Qltb (Qabs e) t) eqn:D; try reflexivity.
    Qltb_props. lra.
  - destruct (Qltb t s) eqn:A, (Qltb t e) eqn:B, (Qltb s t) eqn:C, (Qltb e t) eqn:D;
      try reflexivity.
    Qltb_props. lra.
  - apply andb_comm.
  - pose proof (Qabs_nonneg s).
    destruct (Qltb (Qabs s) t) eqn:A; [|reflexivity]. Qltb_props. lra.
  - pose proof (Qabs_nonneg e).
    destruct (Qltb (Qabs e) t) eqn:A; [|apply andb_false_r]. Qltb_props. lra.
Qed.

Lemma shift_kinds_exclude_each_other_witness :
  isAvoidShift (1 # 10) (1 # 1) (-1 # 2) = false /\
  isReturnShift (1 # 10) (1 # 1) (-1 # 2) = false.
Proof.
  apply (proj2 (proj2 (proj2 (shift_kinds_exclude_each_other (1 # 10) (1 # 1) (-1 # 2))))).
  discriminate.
Defined.

(** X15. [existShiftSideLane] answers true whenever there are lanes on both
    sides, and whenever the shift has the same length at its start and at
    its end, whatever the lanes. *)
Theorem existShiftSideLane_with_lanes_or_without_shift
  (s e t : Q) (no_left_lanes no_right_lanes : bool) :
  existShiftSideLane s e false false t = true /\
  ((e == s)%Q -> existShiftSideLane s e no_left_lanes no_right_lanes t = true).
Proof.
  unfold existShiftSideLane. split.
  - cbv zeta. rewrite !andb_false_r. reflexivity.
  - intros E. cbv zeta.
    assert (P : Qltb 0 (e - s) = false) by (apply Qltb_false; lra).
    assert (N : Qltb (e - s) 0 = false) by (apply Qltb_false; lra).
    rewrite P, N. cbn [andb orb]. rewrite !andb_false_r. reflexivity.
Qed.

Lemma existShiftSideLane_with_lanes_or_without_shift_witness :
  existShiftSideLane (3 # 2) (3 # 2) true true (1 # 10) = true.
Proof.
  apply (proj2 (existShiftSideLane_with_lanes_or_without_shift
                  (3 # 2) (3 # 2) (1 # 10) true true)).
  reflexivity.
Defined.

(** X16. More lanes never take the blinker away: if [existShiftSideLane]
    answers true with some side lanes missing, it answers true for the same
    shift with any of them present. *)
Theorem existShiftSideLane_is_monotone_in_the_lanes
  (s e t : Q) (no_left no_right no_left' no_right' : bool) :
  (no_left' = true -> no_left = true) ->
  (no_right' = true -> no_right = true) ->
  existShiftSideLane s e no_left no_right t = true ->
  existShiftSideLane s e no_left' no_right' t = true.
Proof.
  unfold existShiftSideLane. cbv zeta.
  generalize (isAvoidShift s e t) (isReturnShift s e t) (isLeftMiddleShift s e t)
    (isRightMiddleShift s e t) (Qltb 0 (e - s)) (Qltb (e - s) 0).
  intros a r l m p n L R.
  destruct no_left', no_right';
    try (rewrite (L eq_refl)); try (rewrite (R eq_refl));
    try (intros H; exact H);
    destruct a, r, l, m, p, n, no_left, no_right; cbn; intros H;
    first [reflexivity | discriminate H].
Qed.

Lemma existShiftSideLane_is_monotone_in_the_lanes_witness :
  existShiftSideLane 0 (1 # 1) false true (1 # 2) = true /\
  existShiftSideLane 0 (1 # 1) false false (1 # 2) = true.
Proof.
  split; [reflexivity|].
  apply (existShiftSideLane_is_monotone_in_the_lanes 0 (1 # 1) (1 # 2)
           false true false false).
  - intros H. discriminate H.
  - intros H. discriminate H.
  - reflexivity.
Defined.

(** X17. A middle shift without the lane on its side needs no blinker: when
    both ends of a shift are above the threshold, the lengths differ and
    there is no left lane, [existShiftSideLane] answers false; and when both
    ends are below the threshold (the same threshold, not its negative), the
    lengths differ and there is no right lane, it answers false, whatever
    the direction of the shift and whether or not there is a left lane. *)
Theorem middle_shift_without_its_side_lane (s e t : Q) (no_left no_right : bool) :
  ~ (e == s)%Q ->
  ((t < s)%Q -> (t < e)%Q -> existShiftSideLane s e true no_right t = false) /\
  ((s < t)%Q -> (e < t)%Q -> existShiftSideLane s e no_left true t = false).
Proof.
  intros D.
  assert (PN : Qltb 0 (e - s) = true \/ Qltb (e - s) 0 = true).
  { destruct (Q_dec e s) as [[L | G] | E]; [right | left | contradiction];
      apply Qltb_lt; lra. }
  unfold existShiftSideLane, isLeftMiddleShift, isRightMiddleShift. cbv zeta. split.
  - intros A B. apply Qltb_lt in A, B. rewrite A, B.
    generalize (isAvoidShift s e t) (isReturnShift s e t). intros a r.
    destruct PN as [P | P]; rewrite P;
      destruct a, r, (Qltb 0 (e - s)), (Qltb (e - s) 0), no_right, (Qltb s t), (Qltb e t);
      reflexivity.
  - intros A B. apply Qltb_lt in A, B. rewrite A, B.
    generalize (isAvoidShift s e t) (isReturnShift s e t)
      (Qltb t s) (Qltb t e). intros a r l l'.
    destruct PN as [P | P]; rewrite P;
      destruct a, r, l, l', (Qltb 0 (e - s)), (Qltb (e - s) 0), no_left; reflexivity.
Qed.

Lemma middle_shift_without_its_side_lane_witness :
  existShiftSideLane 0 (1 # 4) false true (1 # 2) = false.
Proof.
  apply (proj2 (middle_shift_without_its_side_lane 0 (1 # 4) (1 # 2) false true
                  ltac:(discriminate))).
  - reflexivity.
  - reflexivity.
Defined.

(** ** Straddling a road bound *)

Section GeometryProperties.

Variables Pose Transform Footprint LineString Lane : Type.
Variable createFootprint : Footprint.
Variable pose2transform : Pose -> Transform.
Variable transformVector : Footprint -> Transform -> Footprint.
Variable intersects : LineString -> Footprint -> bool.
Variable leftBound2d : Lane -> LineString.
Variable rightBound2d : Lane -> LineString.

Local Abbreviation points_loop :=
  (straddle_points createFootprint pose2transform transformVector intersects
     leftBound2d rightBound2d).
Local Abbreviation straddle :=
  (straddleRoadBound createFootprint pose2transform transformVector intersects
     leftBound2d rightBound2d).
Local Abbreviation touches :=
  (touches_bound createFootprint pose2transform transformVector intersects
     leftBound2d rightBound2d).

Lemma straddle_points_step (points : list Pose) (lane : Lane) (i r : nat) (pose : Pose) :
  nth_error points i = Some pose ->
  points_loop points lane i (S r) =
    if touches lane pose then Value true else points_loop points lane (S i) r.
Proof.
  intros E. simpl. rewrite E. unfold touches_bound.
  destruct (intersects (leftBound2d lane) _); [reflexivity|].
  destruct (intersects (rightBound2d lane) _); reflexivity.
Qed.

Lemma straddle_points_in_range (points : list Pose) (lane : Lane) :
  forall remaining i,
    (i + remaining <= List.length points)%nat ->
    exists b, points_loop points lane i remaining = Value b /\
      (b = true <->
       exists j pose, (i <= j < i + remaining)%nat /\
         nth_error points j = Some pose /\ touches lane pose = true).
Proof.
  induction remaining as [|r IH]; intros i Hle.
  - exists false. split; [reflexivity|]. split; [discriminate|].
    intros (j & pose & Hj & _). lia.
  - destruct (nth_error points i) as [pose|] eqn:E.
    2:{ apply nth_error_None in E. lia. }
    rewrite (straddle_points_step points lane i r pose E).
    destruct (touches lane pose) eqn:T.
    + exists true. split; [reflexivity|]. split; [|reflexivity].
      intros _. exists i, pose. repeat split; auto; lia.
    + destruct (IH (S i) ltac:(lia)) as (b & Hb & Hiff).
      exists b. split; [exact Hb|]. rewrite Hiff. split.
      * intros (j & p & Hj & Hn & Ht). exists j, p. repeat split; auto; lia.
      * intros (j & p & Hj & Hn & Ht). exists j, p. repeat split; auto; try lia.
        assert (j <> i); [|lia]. intros ->. rewrite E in Hn. inversion Hn; subst.
        rewrite T in Ht. discriminate Ht.
Qed.

Lemma straddle_points_hit (points : list Pose) (lane : Lane) :
  forall remaining i j pose,
    (i <= j < i + remaining)%nat ->
    nth_error points j = Some pose -> touches lane pose = true ->
    points_loop points lane i remaining = Value true.
Proof.
  induction remaining as [|r IH]; intros i j pose Hj Hn Ht; [lia|].
  assert (exists p, nth_error points i = Some p) as [p E].
  { destruct (nth_error points i) as [p|] eqn:E; [now exists p|].
    apply nth_error_None in E.
    assert (nth_error points j <> None) as N by congruence.
    apply nth_error_Some in N. lia. }
  rewrite (straddle_points_step points lane i r p E).
  destruct (touches lane p) eqn:T; [reflexivity|].
  apply (IH (S i) j pose); auto.
  assert (j <> i); [|lia]. intros ->. rewrite E in Hn. inversion Hn; subst.
  rewrite T in Ht. discriminate Ht.
Qed.

Lemma straddle_points_miss (points : list Pose) (lane : Lane) (start_idx : nat) :
  (forall j pose, (start_idx <= j)%nat ->
     nth_error points j = Some pose -> touches lane pose = false) ->
  forall remaining i,
    (start_idx <= i)%nat ->
    (0 < remaining)%nat -> (List.length points < i + remaining)%nat ->
    points_loop points lane i remaining =
      out_of_range (Nat.max i (List.length points)) (List.length points).
Proof.
  intros Miss. induction remaining as [|r IH]; intros i Hi Hpos Hgt; [lia|].
  destruct (nth_error points i) as [pose|] eqn:E.
  - rewrite (straddle_points_step points lane i r pose E), (Miss i pose Hi E).
    assert (i < List.length points)%nat
      by (apply nth_error_Some; congruence).
    rewrite (IH (S i)) by lia. f_equal. lia.
  - simpl. rewrite E. apply nth_error_None in E. f_equal. lia.
Qed.

Lemma straddleRoadBound_nothing_aux
  (points : list Pose) (start_idx end_idx : nat) (lanes : list Lane) :
  (end_idx <= start_idx)%nat -> straddle points start_idx end_idx lanes = Value false.
Proof.
  intros Hle. induction lanes as [|lane rest IH]; [reflexivity|].
  simpl. replace (end_idx - start_idx)%nat with 0%nat by lia. exact IH.
Qed.

(** X18. Without lanes, or with an index range that is empty
    ([end_idx <= start_idx]), [straddleRoadBound] answers false and reads no
    path point: it does so for any path, the empty one included, and any
    indices. *)
Theorem straddleRoadBound_of_nothing
  (points : list Pose) (start_idx end_idx : nat) (lanes : list Lane) :
  straddleRoadBound createFootprint pose2transform transformVector intersects
    leftBound2d rightBound2d points start_idx end_idx [] = Value false /\
  ((end_idx <= start_idx)%nat ->
   straddleRoadBound createFootprint pose2transform transformVector intersects
     leftBound2d rightBound2d points start_idx end_idx lanes = Value false).
Proof.
  split; [reflexivity|]. apply straddleRoadBound_nothing_aux.
Qed.

(** X19. When the shift line ends within the path ([end_idx] at most the
    number of points) [straddleRoadBound] throws nothing, and it answers true
    exactly when the footprint at some point of the shift line touches the
    left or the right bound of some lane. *)
Theorem straddleRoadBound_within_the_path
  (points : list Pose) (start_idx end_idx : nat) (lanes : list Lane) :
  (end_idx <= List.length points)%nat ->
  exists b,
    straddleRoadBound createFootprint pose2transform transformVector intersects
      leftBound2d rightBound2d points start_idx end_idx lanes = Value b /\
    (b = true <->
     exists lane j pose, In lane lanes /\ (start_idx <= j < end_idx)%nat /\
       nth_error points j = Some pose /\
       touches_bound createFootprint pose2transform transformVector intersects
         leftBound2d rightBound2d lane pose = true).
Proof.
  intros Hle. induction lanes as [|lane rest IH].
  - exists false. split; [reflexivity|]. split; [discriminate|].
    intros (l & _ & _ & [] & _).
  - destruct (Nat.le_gt_cases end_idx start_idx) as [Hes | Hse].
    { exists false.
      split; [apply straddleRoadBound_nothing_aux; exact Hes|].
      split; [discriminate|]. intros (l & j & p & _ & Hj & _). lia. }
    destruct (straddle_points_in_range points lane (end_idx - start_idx) start_idx
                ltac:(lia)) as (b & Hb & Hiff).
    simpl. rewrite Hb. destruct b.
    + exists true. split; [reflexivity|]. split; [|reflexivity]. intros _.
      destruct (proj1 Hiff eq_refl) as (j & p & Hj & Hn & Ht).
      exists lane, j, p. repeat split; auto; try lia; try (now left).
    + destruct IH as (b & Hs & Hi). exists b. split; [exact Hs|].
      rewrite Hi. split.
      * intros (l & j & p & Hin & R). exists l, j, p. split; [now right | exact R].
      * intros (l & j & p & [-> | Hin] & Hj & Hn & Ht).
        -- assert (false = true) as F; [|discriminate F].
           apply Hiff. exists j, p. repeat split; auto; lia.
        -- exists l, j, p. auto.
Qed.

(** X20. When the shift line runs beyond the path ([end_idx] above the
    number of points, and the range not empty) the outcome depends on the
    first lane: if no footprint from [start_idx] on touches its bounds, the
    access to the first missing point throws [std::out_of_range], the other
    lanes are never looked at; if a footprint at a point of the path from
    [start_idx] on touches a bound, the answer is true and the missing
    points go unnoticed. *)
Theorem straddleRoadBound_beyond_the_path
  (points : list Pose) (start_idx end_idx : nat) (lane : Lane) (rest : list Lane) :
  (start_idx < end_idx)%nat ->
  (List.length points < end_idx)%nat ->
  ((forall j pose, (start_idx <= j)%nat ->
      nth_error points j = Some pose ->
      touches_bound createFootprint pose2transform transformVector intersects
        leftBound2d rightBound2d lane pose = false) ->
   straddleRoadBound createFootprint pose2transform transformVector intersects
     leftBound2d rightBound2d points start_idx end_idx (lane :: rest) =
     out_of_range (Nat.max start_idx (List.length points)) (List.length points)) /\
  (forall j pose, (start_idx <= j)%nat ->
     nth_error points j = Some pose ->
     touches_bound createFootprint pose2transform transformVector intersects
       leftBound2d rightBound2d lane pose = true ->
     straddleRoadBound createFootprint pose2transform transformVector intersects
       leftBound2d rightBound2d points start_idx end_idx (lane :: rest) = Value true).
Proof.
  intros Hse Hlen. split.
  - intros Miss. simpl.
    rewrite (straddle_points_miss points lane start_idx Miss) by lia. reflexivity.
  - intros j pose Hj Hn Ht. simpl.
    assert (j < List.length points)%nat by (apply nth_error_Some; congruence).
    rewrite (straddle_points_hit points lane (end_idx - start_idx) start_idx j pose)
      by (auto; lia).
    reflexivity.
Qed.

End GeometryProperties.

(** ** Near the end of a shift *)

Section NearEndOfShift.

Variables Polygon Point Lane : Type.
Variable within : Point -> Polygon -> bool.
Variable polygon2d : Lane -> Polygon.

Local Abbreviation near_end := (isNearEndOfShift within polygon2d).

(** X21. [isNearEndOfShift] answers true exactly for a return shift with the
    ego position within one of the original lanes.  So it answers false
    whenever the start of the shift is within the threshold, the end is not
    below it, the threshold is not positive, or there is no lane. *)
Theorem isNearEndOfShift_needs_a_return_shift
  (s e t : Q) (ego_pos : Point) (original_lanes : list Lane) :
  (isNearEndOfShift within polygon2d s e ego_pos original_lanes t = true <->
   (t < Qabs s)%Q /\ (Qabs e < t)%Q /\
   exists lane, In lane original_lanes /\ within ego_pos (polygon2d lane) = true) /\
  ((Qabs s <= t)%Q \/ (t <= Qabs e)%Q \/ (t <= 0)%Q \/ original_lanes = [] ->
   isNearEndOfShift within polygon2d s e ego_pos original_lanes t = false).
Proof.
  assert (I : near_end s e ego_pos original_lanes t = true <->
              (t < Qabs s)%Q /\ (Qabs e < t)%Q /\
              exists lane, In lane original_lanes /\ within ego_pos (polygon2d lane) = true).
  { unfold isNearEndOfShift, isReturnShift.
    destruct (Qltb t (Qabs s)) eqn:A, (Qltb (Qabs e) t) eqn:B; cbn [andb negb];
      Qltb_props.
    - rewrite existsb_exists. tauto.
    - split; [discriminate|]. intros (_ & L & _). lra.
    - split; [discriminate|]. intros (L & _). lra.
    - split; [discriminate|]. intros (L & _). lra. }
  split; [exact I|].
  intros C. apply not_true_is_false. intros N.
  apply I in N. destruct N as (A & B & lane & Hin & _).
  pose proof (Qabs_nonneg e).
  destruct C as [C | [C | [C | C]]]; try lra.
  rewrite C in Hin. exact Hin.
Qed.

End NearEndOfShift.

Lemma straddleRoadBound_of_nothing_witness :
  line_straddle [] 7 3 [(1, 2); (5, 9)] = Value false.
Proof.
  apply (proj2 (straddleRoadBound_of_nothing Z Z Z Z (Z * Z) 0 (fun pose : Z => pose)
                  line_transform line_intersects
                  (fun lane : Z * Z => fst lane) (fun lane : Z * Z => snd lane)
                  [] 7 3 [(1, 2); (5, 9)])).
  repeat constructor.
Defined.

Lemma straddleRoadBound_within_the_path_witness :
  exists b, line_straddle [0; 4; 9; 12] 1 3 [(1, 2); (5, 9)] = Value b /\
    (b = true <->
     exists lane j pose, In lane [(1, 2); (5, 9)] /\ (1 <= j < 3)%nat /\
       nth_error [0; 4; 9; 12] j = Some pose /\ line_touches lane pose = true).
Proof.
  apply (straddleRoadBound_within_the_path Z Z Z Z (Z * Z) 0 (fun pose : Z => pose)
           line_transform line_intersects
           (fun lane : Z * Z => fst lane) (fun lane : Z * Z => snd lane)
           [0; 4; 9; 12] 1 3 [(1, 2); (5, 9)]).
  repeat constructor.
Defined.

Lemma straddleRoadBound_beyond_the_path_witness :
  line_straddle [0; 4; 9] 1 6 [(5, 9); (1, 2)] = Value true.
Proof.
  apply (proj2 (straddleRoadBound_beyond_the_path Z Z Z Z (Z * Z) 0 (fun pose : Z => pose)
                  line_transform line_intersects
                  (fun lane : Z * Z => fst lane) (fun lane : Z * Z => snd lane)
                  [0; 4; 9] 1 6 (5, 9) [(1, 2)]
                  ltac:(repeat constructor) ltac:(repeat constructor))
           2%nat 9).
  - repeat constructor.
  - reflexivity.
  - reflexivity.
Defined.

Lemma isNearEndOfShift_needs_a_return_shift_witness :
  isNearEndOfShift line_within (fun lane : Z * Z => lane)
    (3 # 2) (1 # 10) 4 [(1, 5)] (-1 # 2) = false.
Proof.
  apply (proj2 (isNearEndOfShift_needs_a_return_shift (Z * Z) Z (Z * Z) line_within
                  (fun lane : Z * Z => lane) (3 # 2) (1 # 10) (-1 # 2) 4 [(1, 5)])).
  right. right. left. discriminate.
Defined.

(** * The invoker and the transitions of the state machine *)

(** X22. The invoker leaves the handler as it is and always returns.  For a
    behavior with a controller it sends one request to that controller, with
    [operate] false for a cancel and true for a call; for NONE and for an
    undeclared behavior it sends nothing (the call of NONE logs a warning,
    the cancel of NONE is silent).  It never publishes. *)
Theorem invoker_sends_one_request_and_keeps_the_handler
  (b : Z) (env : Env) (h : EmergencyHandler) :
  exists o_cancel o_call,
    cancelMrmBehavior b env h = Returned tt h o_cancel /\
    callMrmBehavior b env h = Returned tt h o_call /\
    requests o_cancel = request_to b false /\
    requests o_call = request_to b true /\
    publications o_cancel = [] /\ publications o_call = [] /\
    (b = MrmState.NONE ->
     o_cancel = [] /\ o_call = [log WARN "MRM behavior is None. Do nothing."]) /\
    (~ declared_behavior b -> requests o_cancel = [] /\ requests o_call = []).
Proof.
  destruct (cancelMrmBehavior_spec b env h) as (o1 & E1 & L1 & R1).
  destruct (callMrmBehavior_spec b env h) as (o2 & E2 & L2 & R2).
  exists o1, o2.
  split; [exact E1|]. split; [exact E2|]. split; [exact R1|]. split; [exact R2|].
  split; [now apply requests_invoker_publications|].
  split; [now apply requests_invoker_publications|].
  split.
  - intros ->. split.
    + unfold cancelMrmBehavior in E1. simpl in E1. inversion E1. reflexivity.
    + unfold callMrmBehavior in E2. simpl in E2. inversion E2. reflexivity.
  - intros N. destruct (invalid_behavior_tests _ N) as (T1 & T2 & T3).
    rewrite R1, R2. unfold request_to, client_of. rewrite T2, T3. split; reflexivity.
Qed.

Lemma invoker_sends_one_request_and_keeps_the_handler_witness :
  exists o_cancel o_call,
    cancelMrmBehavior 7 sample_env normal_with_fault = Returned tt normal_with_fault o_cancel /\
    callMrmBehavior 7 sample_env normal_with_fault = Returned tt normal_with_fault o_call /\
    requests o_cancel = [] /\ requests o_call = [].
Proof.
  destruct (invoker_sends_one_request_and_keeps_the_handler 7 sample_env normal_with_fault)
    as (o1 & o2 & E1 & E2 & _ & _ & _ & _ & _ & N).
  exists o1, o2. split; [exact E1|]. split; [exact E2|].
  apply N. intros [H | [H | H]]; discriminate H.
Defined.

Lemma next_state_edges a e s st :
  declared_state st ->
  let st' := next_state a e s st in
  st' = st \/ st' = MrmState.NORMAL \/
  (st = MrmState.NORMAL /\ st' = MrmState.MRM_OPERATING /\ a = true /\ e = true) \/
  (st = MrmState.MRM_OPERATING /\ st' = MrmState.MRM_SUCCEEDED /\ e = true /\ s = true).
Proof.
  intros [-> | [-> | [-> | ->]]]; destruct a, e, s; cbn; auto 10.
Qed.

(** X23. The transitions of a tick.  From a declared state a tick keeps the
    state, returns to NORMAL, goes from NORMAL to MRM_OPERATING (only in
    autonomous mode during an emergency) or from MRM_OPERATING to
    MRM_SUCCEEDED (only during an emergency with the vehicle stopped).  In
    particular it takes two ticks from NORMAL to MRM_SUCCEEDED, and
    MRM_SUCCEEDED and MRM_FAILED are left only for NORMAL. *)
Theorem tick_follows_the_transition_graph
  (env : Env) (h h' : EmergencyHandler) (out : list Event) :
  declared_state (state_of h) ->
  onTimer env h = Returned tt h' out ->
  state_of h' = state_of h \/
  state_of h' = MrmState.NORMAL \/
  (state_of h = MrmState.NORMAL /\ state_of h' = MrmState.MRM_OPERATING /\
   control_mode_ h = ControlModeReport.AUTONOMOUS /\
   exists hs, hazard_status_stamped_ h = Some hs /\
              is_emergency_of hs (stale_at (now env) h) = true) \/
  (state_of h = MrmState.MRM_OPERATING /\ state_of h' = MrmState.MRM_SUCCEEDED /\
   (odom_ h < 1 # 1000)%Q /\
   exists hs, hazard_status_stamped_ h = Some hs /\
              is_emergency_of hs (stale_at (now env) h) = true).
Proof.
  unfold state_of. intros D H. destruct (data_ready h) eqn:Er.
  - destruct (data_ready_hazard h Er) as [hs Eh].
    destruct (onTimer_ready_result env h hs h' out Er Eh H) as (-> & _).
    cbn [state mrm_state_ with_stamp with_behavior with_state set_mrm_state_ set_stamp
         set_behavior set_state].
    destruct (next_state_edges (control_mode_ h =? ControlModeReport.AUTONOMOUS)
                (is_emergency_of hs (stale_at (now env) h)) (stopped h)
                (state (mrm_state_ h)) D) as [E | [E | [(E1 & E2 & A & B) | (E1 & E2 & A & B)]]].
    + left. exact E.
    + right. left. exact E.
    + right. right. left. repeat split; auto. now apply Z.eqb_eq. eauto.
    + right. right. right. repeat split; auto. now apply Qltb_lt. eauto.
  - destruct (onTimer_skip env h Er) as [text E]. rewrite E in H. inv_returned. auto.
Qed.

Lemma tick_follows_the_transition_graph_witness :
  state_of (set_mrm_state_
              (mkMrmState 103000000 MrmState.MRM_OPERATING MrmState.EMERGENCY_STOP)
              normal_with_fault) = state_of normal_with_fault \/
  state_of (set_mrm_state_
              (mkMrmState 103000000 MrmState.MRM_OPERATING MrmState.EMERGENCY_STOP)
              normal_with_fault) = MrmState.NORMAL \/
  (state_of normal_with_fault = MrmState.NORMAL /\
   state_of (set_mrm_state_
               (mkMrmState 103000000 MrmState.MRM_OPERATING MrmState.EMERGENCY_STOP)
               normal_with_fault) = MrmState.MRM_OPERATING /\
   control_mode_ normal_with_fault = ControlModeReport.AUTONOMOUS /\
   exists hs, hazard_status_stamped_ normal_with_fault = Some hs /\
              is_emergency_of hs (stale_at (now sample_env) normal_with_fault) = true) \/
  (state_of normal_with_fault = MrmState.MRM_OPERATING /\
   state_of (set_mrm_state_
               (mkMrmState 103000000 MrmState.MRM_OPERATING MrmState.EMERGENCY_STOP)
               normal_with_fault) = MrmState.MRM_SUCCEEDED /\
   (odom_ normal_with_fault < 1 # 1000)%Q /\
   exists hs, hazard_status_stamped_ normal_with_fault = Some hs /\
              is_emergency_of hs (stale_at (now sample_env) normal_with_fault) = true).
Proof.
  apply (tick_follows_the_transition_graph sample_env normal_with_fault
           (set_mrm_state_
              (mkMrmState 103000000 MrmState.MRM_OPERATING MrmState.EMERGENCY_STOP)
              normal_with_fault)
           [pub_hazard_cmd HazardLightsCommand.ENABLE;
            pub_gear_cmd 100001000 GearCommand.DRIVE;
            send_request client_mrm_emergency_stop_ true;
            log WARN "Emergency stop is operated";
            pub_mrm_state (mkMrmState 103000000 MrmState.MRM_OPERATING
                             MrmState.EMERGENCY_STOP)]).
  - left. reflexivity.
  - reflexivity.
Defined.
